(** * ANetworkSession: the network session multiplexer of the Wi-Fi Display stack

    A shallow embedding of [native/wifi-display/ANetworkSession.cpp] and the
    properties its specification states about it.

    Conventions of the embedding.
    - C integers are [Z]; a conversion to a fixed width is written out
      ([to_u8], [to_u32], [wrap_s32], [wrap_s64]).
    - [AString] and [ABuffer] contents are [list byte].
    - A method of [Session] or of [ANetworkSession] is a computation in the
      monad [M]: it reads and updates the object, appends to a trace of
      observable events (notifications posted, [send] calls, writes to the
      wake pipe, lock operations) and ends in an [outcome].
    - The kernel is an oracle handed to the method: it gives the outcome of
      each system call.  A call the source wraps in
      [do { ... } while (n < 0 && errno == EINTR)] is taken with the outcome
      that ends that loop (see [interrupted]). *)

From Stdlib Require Import String.
From Stdlib Require Import ZArith List Bool Lia Sorted.
From Stdlib Require Strings.Byte.
Import ListNotations.
Import Init.Byte.
Open Scope Z_scope.

(** ** Bytes and fixed-width integers *)

Definition u8 (b : byte) : Z := Z.of_N (Strings.Byte.to_N b).

(** Conversion of an integer to [uint8_t]: the low eight bits. *)
Definition to_u8 (z : Z) : byte :=
  match Strings.Byte.of_N (Z.to_N (z mod 256)) with
  | Some b => b
  | None => x00
  end.

Definition to_u32 (z : Z) : Z := z mod 2 ^ 32.

(** Two's-complement wrap-around of a signed [w]-bit integer. *)
Definition wrap_signed (w : Z) (z : Z) : Z :=
  (z + 2 ^ (w - 1)) mod 2 ^ w - 2 ^ (w - 1).

Definition wrap_s32 : Z -> Z := wrap_signed 32.
Definition wrap_s64 : Z -> Z := wrap_signed 64.

Definition INT32_MAX : Z := 2 ^ 31 - 1.
Definition INT64_MAX : Z := 2 ^ 63 - 1.

(** [U16_AT(ptr)] and [U32_AT(ptr)] of [media/stagefright/Utils.h]: the
    big-endian integer held by the first two (four) bytes.  The callers check
    the size first where they read a string; a missing byte reads as the
    string's terminating NUL. *)
Definition U16_AT (p : list byte) : Z :=
  Z.lor (Z.shiftl (u8 (nth 0 p x00)) 8) (u8 (nth 1 p x00)).

Definition U32_AT (p : list byte) : Z :=
  Z.lor (Z.lor (Z.lor (Z.shiftl (u8 (nth 0 p x00)) 24)
                      (Z.shiftl (u8 (nth 1 p x00)) 16))
               (Z.shiftl (u8 (nth 2 p x00)) 8))
        (u8 (nth 3 p x00)).

(** ** Error numbers and status codes (Linux/bionic [errno.h]) *)

Definition status_t := Z.
Definition OK : status_t := 0.
Definition ENOENT : Z := 2.
Definition EINTR : Z := 4.
Definition EAGAIN : Z := 11.
Definition ECONNRESET : Z := 104.
Definition ECONNREFUSED : Z := 111.
Definition EINPROGRESS : Z := 115.

(** The result of a system call: its return value and [errno].  *)
Record sysret : Type := { rv : Z; errno : Z }.

(** The condition under which the source repeats a system call.  The oracle
    hands over the outcome that ends the retry loop, for which this is
    [false]. *)
Definition interrupted (r : sysret) : bool :=
  (rv r <? 0) && (errno r =? EINTR).

(** ** AString and ABuffer *)

Definition AString := list byte.
Definition ABuffer := list byte.

Definition size (s : list byte) : Z := Z.of_nat (length s).

(** [s.c_str()[i]]: the byte at [i], the terminating NUL at [i = size s]. *)
Definition c_str_at (s : AString) (i : Z) : byte := nth (Z.to_nat i) s x00.

(** [s.append(p, n)]. *)
Definition append (s : AString) (p : list byte) (n : Z) : AString :=
  s ++ firstn (Z.to_nat n) p.

(** [s.erase(0, n)]. *)
Definition erase (s : AString) (n : Z) : AString := skipn (Z.to_nat n) s.

(** [strlen(p)]: the number of bytes before the first NUL. *)
Fixpoint strlen (p : list byte) : Z :=
  match p with
  | [] => 0
  | b :: p' => if Strings.Byte.eqb b x00 then 0 else 1 + strlen p'
  end.

(** ** Outcomes *)

Inductive outcome (A : Type) : Type :=
| Done (a : A)
| CheckFailed      (* a CHECK macro failed: the process aborts *)
| OutOfRange       (* an index past the end of an ABuffer *)
| OutOfFuel.       (* the loop bound of the model was reached *)

Arguments Done {A} a.
Arguments CheckFailed {A}.
Arguments OutOfRange {A}.
Arguments OutOfFuel {A}.

(** [buf->data()[i]] for an [ABuffer] of [buf->size()] bytes. *)
Definition data_at (buf : ABuffer) (i : Z) : outcome byte :=
  match nth_error buf (Z.to_nat i) with
  | Some b => Done b
  | None => OutOfRange
  end.

(** [buf->data()[i] = b]. *)
Fixpoint data_set (buf : ABuffer) (i : nat) (b : byte) : outcome ABuffer :=
  match buf, i with
  | [], _ => OutOfRange
  | _ :: rest, O => Done (b :: rest)
  | x :: rest, S i' =>
      match data_set rest i' b with
      | Done rest' => Done (x :: rest')
      | CheckFailed => CheckFailed
      | OutOfRange => OutOfRange
      | OutOfFuel => OutOfFuel
      end
  end.

Definition obind {A B : Type} (o : outcome A) (f : A -> outcome B) : outcome B :=
  match o with
  | Done a => f a
  | CheckFailed => CheckFailed
  | OutOfRange => OutOfRange
  | OutOfFuel => OutOfFuel
  end.

(** ** What the file takes from the rest of the repository

    [ParsedMessage.h] and [ANetworkSession.h] are not part of the sources at
    hand.  The RTSP parser, the notification template and the integer value
    of the enumerators of [NotificationReason] are parameters. *)

Inductive NotificationReason : Type :=
| kWhatError
| kWhatConnected
| kWhatClientConnected
| kWhatData
| kWhatDatagram
| kWhatBinaryData.

Class Platform : Type := {
  (* android::AMessage, the notification template a caller supplies *)
  AMessage : Type;
  (* android::ParsedMessage *)
  ParsedMessage : Type;
  (* ParsedMessage::Parse(data, size, noMoreData, &length): NULL, or a
     message and the number of bytes it took *)
  Parse : list byte -> bool -> option (ParsedMessage * Z);
  (* ParsedMessage::getContent(): NULL, or the content as a C string *)
  getContent : ParsedMessage -> option (list byte);
  (* the integer value of an enumerator of NotificationReason *)
  reason_value : NotificationReason -> Z
}.

(** ** Sessions, notifications and events *)

Inductive State : Type :=
| CONNECTING
| CONNECTED
| LISTENING_RTSP
| LISTENING_TCP_DGRAMS
| DATAGRAM.

Definition State_eqb (a b : State) : bool :=
  match a, b with
  | CONNECTING, CONNECTING
  | CONNECTED, CONNECTED
  | LISTENING_RTSP, LISTENING_RTSP
  | LISTENING_TCP_DGRAMS, LISTENING_TCP_DGRAMS
  | DATAGRAM, DATAGRAM => true
  | _, _ => false
  end.

(** [struct sockaddr_in], address and port in host byte order. *)
Record sockaddr_in : Type := { sin_addr : Z; sin_port : Z }.

(** The four numbers [StringPrintf("%d.%d.%d.%d", ...)] prints. *)
Definition dotted_quad (addr : Z) : Z * Z * Z * Z :=
  (Z.shiftr addr 24,
   Z.land (Z.shiftr addr 16) 255,
   Z.land (Z.shiftr addr 8) 255,
   Z.land addr 255).

Section Model.
Context {P : Platform}.

Record Session : Type := {
  mSessionID : Z;
  mState : State;
  mIsRTSPConnection : bool;
  mSocket : Z;
  mNotify : AMessage;
  mSawReceiveFailure : bool;
  mSawSendFailure : bool;
  mOutBuffer : AString;
  mOutDatagrams : list ABuffer;
  mInBuffer : AString
}.

Definition set_mState (s : Session) (v : State) : Session :=
  {| mSessionID := mSessionID s; mState := v;
     mIsRTSPConnection := mIsRTSPConnection s; mSocket := mSocket s;
     mNotify := mNotify s; mSawReceiveFailure := mSawReceiveFailure s;
     mSawSendFailure := mSawSendFailure s; mOutBuffer := mOutBuffer s;
     mOutDatagrams := mOutDatagrams s; mInBuffer := mInBuffer s |}.

Definition set_mIsRTSPConnection (s : Session) (v : bool) : Session :=
  {| mSessionID := mSessionID s; mState := mState s;
     mIsRTSPConnection := v; mSocket := mSocket s;
     mNotify := mNotify s; mSawReceiveFailure := mSawReceiveFailure s;
     mSawSendFailure := mSawSendFailure s; mOutBuffer := mOutBuffer s;
     mOutDatagrams := mOutDatagrams s; mInBuffer := mInBuffer s |}.

Definition set_mSawReceiveFailure (s : Session) (v : bool) : Session :=
  {| mSessionID := mSessionID s; mState := mState s;
     mIsRTSPConnection := mIsRTSPConnection s; mSocket := mSocket s;
     mNotify := mNotify s; mSawReceiveFailure := v;
     mSawSendFailure := mSawSendFailure s; mOutBuffer := mOutBuffer s;
     mOutDatagrams := mOutDatagrams s; mInBuffer := mInBuffer s |}.

Definition set_mSawSendFailure (s : Session) (v : bool) : Session :=
  {| mSessionID := mSessionID s; mState := mState s;
     mIsRTSPConnection := mIsRTSPConnection s; mSocket := mSocket s;
     mNotify := mNotify s; mSawReceiveFailure := mSawReceiveFailure s;
     mSawSendFailure := v; mOutBuffer := mOutBuffer s;
     mOutDatagrams := mOutDatagrams s; mInBuffer := mInBuffer s |}.

Definition set_mOutBuffer (s : Session) (v : AString) : Session :=
  {| mSessionID := mSessionID s; mState := mState s;
     mIsRTSPConnection := mIsRTSPConnection s; mSocket := mSocket s;
     mNotify := mNotify s; mSawReceiveFailure := mSawReceiveFailure s;
     mSawSendFailure := mSawSendFailure s; mOutBuffer := v;
     mOutDatagrams := mOutDatagrams s; mInBuffer := mInBuffer s |}.

Definition set_mOutDatagrams (s : Session) (v : list ABuffer) : Session :=
  {| mSessionID := mSessionID s; mState := mState s;
     mIsRTSPConnection := mIsRTSPConnection s; mSocket := mSocket s;
     mNotify := mNotify s; mSawReceiveFailure := mSawReceiveFailure s;
     mSawSendFailure := mSawSendFailure s; mOutBuffer := mOutBuffer s;
     mOutDatagrams := v; mInBuffer := mInBuffer s |}.

Definition set_mInBuffer (s : Session) (v : AString) : Session :=
  {| mSessionID := mSessionID s; mState := mState s;
     mIsRTSPConnection := mIsRTSPConnection s; mSocket := mSocket s;
     mNotify := mNotify s; mSawReceiveFailure := mSawReceiveFailure s;
     mSawSendFailure := mSawSendFailure s; mOutBuffer := mOutBuffer s;
     mOutDatagrams := mOutDatagrams s; mInBuffer := v |}.

(** The fields a notification carries besides [sessionID] and [reason]. *)
Inductive Fields : Type :=
| NoFields
| ErrorFields (send : bool) (err : status_t) (detail : string)
| ClientFields (server_ip : Z * Z * Z * Z) (server_port : Z)
               (client_ip : Z * Z * Z * Z) (client_port : Z)
| DataFields (data : ParsedMessage)
| PacketFields (data : ABuffer)
| UDPFields (fromAddr : Z * Z * Z * Z) (fromPort : Z)
            (data : ABuffer) (arrivalTimeUs : Z)
| BinaryFields (channel : byte) (data : ABuffer) (arrivalTimeUs : Z).

(** A duplicate of the template, filled in. *)
Record Notification : Type := {
  sessionID : Z;
  reason : NotificationReason;
  fields : Fields
}.

Inductive event : Type :=
| Post (notify : AMessage) (msg : Notification)   (* msg->post() *)
| Send (socket : Z) (data : list byte)            (* send(s, data, size, 0) *)
| PipeWrite (fd : Z) (b : byte)                   (* write(fd, &b, 1) *)
| PipeRead (fd : Z)                               (* read(fd, &c, 1) *)
| Close (socket : Z)                              (* close(s) *)
| Lock                                            (* mLock taken *)
| Unlock.                                         (* mLock released *)

(** ** The monad of methods *)

Definition M (St A : Type) : Type := St -> list event * outcome (A * St).

Definition ret {St A : Type} (a : A) : M St A :=
  fun s => ([], Done (a, s)).

Definition bind {St A B : Type} (m : M St A) (f : A -> M St B) : M St B :=
  fun s =>
    match m s with
    | (t, Done (a, s')) => let (t', o) := f a s' in (t ++ t', o)
    | (t, CheckFailed) => (t, CheckFailed)
    | (t, OutOfRange) => (t, OutOfRange)
    | (t, OutOfFuel) => (t, OutOfFuel)
    end.

Definition get {St : Type} : M St St := fun s => ([], Done (s, s)).
Definition put {St : Type} (s : St) : M St unit := fun _ => ([], Done (tt, s)).
Definition modify {St : Type} (f : St -> St) : M St unit :=
  fun s => ([], Done (tt, f s)).
Definition emit {St : Type} (e : event) : M St unit :=
  fun s => ([e], Done (tt, s)).
Definition lift {St A : Type} (o : outcome A) : M St A :=
  fun s => ([], obind o (fun a => Done (a, s))).

(** [CHECK(b)]. *)
Definition CHECK {St : Type} (b : bool) : M St unit :=
  if b then ret tt else lift CheckFailed.

End Model.

Declare Scope method_scope.
Delimit Scope method_scope with method.
Notation "x <- m ;; k" := (bind m (fun x => k))
  (at level 61, m at next level, right associativity) : method_scope.
Notation "m ;; k" := (bind m (fun _ => k))
  (at level 61, right associativity) : method_scope.

Declare Scope outcome_scope.
Delimit Scope outcome_scope with outcome.
Notation "x <- m ;; k" := (obind m (fun x => k))
  (at level 61, m at next level, right associativity) : outcome_scope.
Notation "m ;; k" := (obind m (fun _ => k))
  (at level 61, right associativity) : outcome_scope.

Fixpoint bytes_eqb (a b : list byte) : bool :=
  match a, b with
  | [], [] => true
  | x :: a', y :: b' => Strings.Byte.eqb x y && bytes_eqb a' b'
  | _, _ => false
  end.

Definition is_empty {A : Type} (l : list A) : bool :=
  match l with [] => true | _ :: _ => false end.

(** ** struct ANetworkSession::Session *)

Module Session.
Section Methods.
Context {P : Platform}.
Local Open Scope method_scope.

(** What the kernel and the clock answer during one call of a method on a
    session's socket. *)
Record IO : Type := {
  (* recv(mSocket, tmp, sizeof(tmp), 0): the outcome and the bytes in tmp *)
  io_recv : sysret * list byte;
  (* the k-th recvfrom(mSocket, ...): outcome, bytes and sender *)
  io_recvfrom : nat -> sysret * list byte * sockaddr_in;
  (* the outcome of the send(mSocket, ...) of the k-th loop iteration *)
  io_send : nat -> sysret;
  (* ALooper::GetNowUs() as read in the k-th loop iteration *)
  io_now : nat -> Z;
  (* getsockopt(mSocket, SOL_SOCKET, SO_ERROR, &err, &optionLen): the
     return value, optionLen and err *)
  io_getsockopt : Z * Z * Z
}.

(** [Session::notifyError]. *)
Definition notifyError (send : bool) (err : status_t) (detail : string)
  : M Session unit :=
  s <- get ;;
  emit (Post (mNotify s)
             {| sessionID := mSessionID s; reason := kWhatError;
                fields := ErrorFields send err detail |}).

(** [Session::notify]. *)
Definition notify (r : NotificationReason) : M Session unit :=
  s <- get ;;
  emit (Post (mNotify s)
             {| sessionID := mSessionID s; reason := r; fields := NoFields |}).

(** The constructor.  [local] and [remote] are what [getsockname] and
    [getpeername] answer (return value and address) for a connected socket. *)
Definition new (id : Z) (state : State) (s : Z) (notify : AMessage)
    (local remote : Z * sockaddr_in) : list event * outcome Session :=
  let this :=
    {| mSessionID := id; mState := state; mIsRTSPConnection := false;
       mSocket := s; mNotify := notify; mSawReceiveFailure := false;
       mSawSendFailure := false; mOutBuffer := []; mOutDatagrams := [];
       mInBuffer := [] |} in
  if State_eqb state CONNECTED then
    if negb (0 <=? fst local) then ([], CheckFailed)
    else if negb (0 <=? fst remote) then ([], CheckFailed)
    else
      ([Post notify
             {| sessionID := id; reason := kWhatClientConnected;
                fields := ClientFields
                            (dotted_quad (sin_addr (snd local)))
                            (sin_port (snd local))
                            (dotted_quad (sin_addr (snd remote)))
                            (sin_port (snd remote)) |}],
       Done this)
  else ([], Done this).

Definition isRTSPServer (s : Session) : bool :=
  State_eqb (mState s) LISTENING_RTSP.

Definition isTCPDatagramServer (s : Session) : bool :=
  State_eqb (mState s) LISTENING_TCP_DGRAMS.

Definition wantsToRead (s : Session) : bool :=
  negb (mSawReceiveFailure s) && negb (State_eqb (mState s) CONNECTING).

Definition wantsToWrite (s : Session) : bool :=
  negb (mSawSendFailure s)
  && (State_eqb (mState s) CONNECTING
      || (State_eqb (mState s) CONNECTED
          && negb (is_empty (mOutBuffer s)))
      || (State_eqb (mState s) DATAGRAM
          && negb (is_empty (mOutDatagrams s)))).

(** [Session::sendRequest(data, size)].  [data] holds the bytes at the
    pointer; a negative [size] asks for [strlen(data)]. *)
Definition sendRequest (data : list byte) (size : Z) : M Session status_t :=
  s <- get ;;
  CHECK (State_eqb (mState s) CONNECTED || State_eqb (mState s) DATAGRAM) ;;
  if State_eqb (mState s) DATAGRAM then
    CHECK (0 <=? size) ;;
    let datagram : ABuffer := firstn (Z.to_nat size) data in
    modify (fun s => set_mOutDatagrams s (mOutDatagrams s ++ [datagram])) ;;
    ret OK
  else
    (if State_eqb (mState s) CONNECTED && negb (mIsRTSPConnection s) then
       CHECK (size <=? 65535) ;;
       let prefix := [to_u8 (Z.shiftr size 8); to_u8 (Z.land size 255)] in
       modify (fun s => set_mOutBuffer s (append (mOutBuffer s) prefix 2))
     else ret tt) ;;
    modify (fun s =>
      set_mOutBuffer s
        (append (mOutBuffer s) data
                (if 0 <=? size then size else strlen data))) ;;
    ret OK.

(** *** writeMore *)

(** [uint32_t rtpTime = (nowUs * 9ll) / 100ll]: a 64-bit signed product, a
    division that truncates, a conversion to 32 bits. *)
Definition rtpTime (nowUs : Z) : Z :=
  to_u32 (Z.quot (wrap_s64 (nowUs * 9)) 100).

(** Lines 416-432: the head datagram as it is handed to [send]. *)
Definition stamp (nowUs : Z) (data : ABuffer) : outcome ABuffer :=
  (d0 <- data_at data 0 ;;
   if u8 d0 =? 128 then
     d1 <- data_at data 1 ;;
     if Z.land (u8 d1) 127 =? 33 then
       (* prevRtpTime = U32_AT(&data[4]) *)
       data_at data 4 ;; data_at data 5 ;; data_at data 6 ;; data_at data 7 ;;
       let t := rtpTime nowUs in
       data <- data_set data 4 (to_u8 (Z.shiftr t 24)) ;;
       data <- data_set data 5 (to_u8 (Z.land (Z.shiftr t 16) 255)) ;;
       data <- data_set data 6 (to_u8 (Z.land (Z.shiftr t 8) 255)) ;;
       data_set data 7 (to_u8 (Z.land t 255))
     else Done data
   else Done data)%outcome.

(** Lines 413-448: the do-while loop over the queue of datagrams.  It gives
    [err] and the queue that is left. *)
Fixpoint sendDatagrams (io : IO) (sock : Z) (k : nat) (queue : list ABuffer)
  : list event * outcome (status_t * list ABuffer) :=
  match queue with
  | [] => ([], OutOfRange)
  | datagram :: rest =>
      match stamp (io_now io k) datagram with
      | Done data =>
          let r := io_send io k in
          if 0 <? rv r then
            match rest with
            | [] => ([Send sock data], Done (OK, []))
            | _ :: _ =>
                let (t, o) := sendDatagrams io sock (S k) rest in
                (Send sock data :: t, o)
            end
          else if rv r <? 0 then
            ([Send sock data], Done (- errno r, data :: rest))
          else
            ([Send sock data], Done (- ECONNRESET, data :: rest))
      | CheckFailed => ([], CheckFailed)
      | OutOfRange => ([], OutOfRange)
      | OutOfFuel => ([], OutOfFuel)
      end
  end.

(** The loop, run on the queue of the session. *)
Definition drainDatagrams (io : IO) : M Session status_t :=
  fun s =>
    match sendDatagrams io (mSocket s) 0 (mOutDatagrams s) with
    | (t, Done (err, queue)) => (t, Done (err, set_mOutDatagrams s queue))
    | (t, CheckFailed) => (t, CheckFailed)
    | (t, OutOfRange) => (t, OutOfRange)
    | (t, OutOfFuel) => (t, OutOfFuel)
    end.

Definition writeMore (io : IO) : M Session status_t :=
  s <- get ;;
  if State_eqb (mState s) DATAGRAM then
    CHECK (negb (is_empty (mOutDatagrams s))) ;;
    err <- drainDatagrams io ;;
    let err := if err =? - EAGAIN then OK else err in
    (if negb (err =? OK) then
       notifyError true err "Send datagram failed." ;;
       modify (fun s => set_mSawSendFailure s true)
     else ret tt) ;;
    ret err
  else if State_eqb (mState s) CONNECTING then
    let '(res, optionLen, err) := io_getsockopt io in
    CHECK (res =? 0) ;;
    CHECK (optionLen =? 4) ;;
    if negb (err =? 0) then
      (* notifyError(kWhatError, -err, "Connection failed"): the enumerator
         is converted to the bool parameter [send] *)
      notifyError (negb (reason_value kWhatError =? 0)) (- err)
                  "Connection failed" ;;
      modify (fun s => set_mSawSendFailure s true) ;;
      ret (- err)
    else
      modify (fun s => set_mState s CONNECTED) ;;
      notify kWhatConnected ;;
      ret OK
  else
    CHECK (State_eqb (mState s) CONNECTED) ;;
    CHECK (negb (is_empty (mOutBuffer s))) ;;
    emit (Send (mSocket s) (mOutBuffer s)) ;;
    let r := io_send io 0 in
    err <- (if 0 <? rv r then
              modify (fun s => set_mOutBuffer s (erase (mOutBuffer s) (rv r))) ;;
              ret OK
            else if rv r <? 0 then ret (- errno r)
            else ret (- ECONNRESET)) ;;
    (if negb (err =? OK) then
       notifyError true err "Send failed." ;;
       modify (fun s => set_mSawSendFailure s true)
     else ret tt) ;;
    ret err.

(** *** readMore *)

(** Lines 228-271: the loop over [recvfrom]. *)
Fixpoint recvfromLoop (io : IO) (fuel k : nat) : M Session status_t :=
  match fuel with
  | O => lift OutOfFuel
  | S fuel' =>
      let '(r, buf, remoteAddr) := io_recvfrom io k in
      if rv r <? 0 then ret (- errno r)
      else if rv r =? 0 then ret (- ECONNRESET)
      else
        s <- get ;;
        emit (Post (mNotify s)
                {| sessionID := mSessionID s; reason := kWhatDatagram;
                   fields := UDPFields (dotted_quad (sin_addr remoteAddr))
                                       (sin_port remoteAddr)
                                       (firstn (Z.to_nat (rv r)) buf)
                                       (io_now io k) |}) ;;
        recvfromLoop io fuel' (S k)
  end.

(** Lines 311-328: a TCP stream that carries datagrams behind a 16-bit
    length. *)
Fixpoint lengthPrefixLoop (fuel : nat) : M Session unit :=
  match fuel with
  | O => lift OutOfFuel
  | S fuel' =>
      s <- get ;;
      if 2 <=? size (mInBuffer s) then
        let packetSize := U16_AT (mInBuffer s) in
        if size (mInBuffer s) <? packetSize + 2 then ret tt
        else
          let packet : ABuffer :=
            firstn (Z.to_nat packetSize) (skipn 2 (mInBuffer s)) in
          emit (Post (mNotify s)
                  {| sessionID := mSessionID s; reason := kWhatDatagram;
                     fields := PacketFields packet |}) ;;
          modify (fun s =>
            set_mInBuffer s (erase (mInBuffer s) (packetSize + 2))) ;;
          lengthPrefixLoop fuel'
      else ret tt
  end.

(** The literal ["wfd_idr_request\r\n"]. *)
Definition wfd_idr_request : list byte :=
  [x77; x66; x64; x5f; x69; x64; x72; x5f;
   x72; x65; x71; x75; x65; x73; x74; x0d; x0a].

(** [!memcmp(content, lit, n)] for a C string [content]. *)
Definition memcmp_eq (content lit : list byte) (n : nat) : bool :=
  bytes_eqb (firstn n (content ++ [x00])) (firstn n lit).

(** Lines 381-388: the length to erase after a message the parser took
    [length] bytes for. *)
Definition idr_length (msg : ParsedMessage) (buf : AString) (length : Z) : Z :=
  match getContent msg with
  | Some content =>
      if memcmp_eq content wfd_idr_request 17
         && (19 <=? length)
         && Strings.Byte.eqb (c_str_at buf length) x0d
         && Strings.Byte.eqb (c_str_at buf (length + 1)) x0a
      then length + 2
      else length
  | None => length
  end.

(** Lines 330-396: an RTSP stream, with binary frames behind a '$'. *)
Fixpoint rtspLoop (io : IO) (err : status_t) (fuel k : nat) : M Session unit :=
  match fuel with
  | O => lift OutOfFuel
  | S fuel' =>
      s <- get ;;
      let buf := mInBuffer s in
      if (0 <? size buf) && Strings.Byte.eqb (c_str_at buf 0) x24 then
        if size buf <? 4 then ret tt
        else
          let length := U16_AT (skipn 2 buf) in
          if size buf <? 4 + length then ret tt
          else
            emit (Post (mNotify s)
                    {| sessionID := mSessionID s; reason := kWhatBinaryData;
                       fields := BinaryFields
                                   (c_str_at buf 1)
                                   (firstn (Z.to_nat length) (skipn 4 buf))
                                   (io_now io k) |}) ;;
            modify (fun s => set_mInBuffer s (erase (mInBuffer s) (4 + length))) ;;
            rtspLoop io err fuel' (S k)
      else
        match Parse buf (negb (err =? OK)) with
        | None => ret tt
        | Some (msg, length) =>
            emit (Post (mNotify s)
                    {| sessionID := mSessionID s; reason := kWhatData;
                       fields := DataFields msg |}) ;;
            modify (fun s =>
              set_mInBuffer s (erase (mInBuffer s) (idr_length msg buf length))) ;;
            if negb (err =? OK) then ret tt
            else rtspLoop io err fuel' (S k)
        end
  end.

Definition readMore (io : IO) (fuel : nat) : M Session status_t :=
  s <- get ;;
  if State_eqb (mState s) DATAGRAM then
    err <- recvfromLoop io fuel 0 ;;
    let err := if err =? - EAGAIN then OK else err in
    (if negb (err =? OK) then
       notifyError false err "Recvfrom failed." ;;
       modify (fun s => set_mSawReceiveFailure s true)
     else ret tt) ;;
    ret err
  else
    let (r, tmp) := io_recv io in
    err <- (if 0 <? rv r then
              modify (fun s => set_mInBuffer s (append (mInBuffer s) tmp (rv r))) ;;
              ret OK
            else if rv r <? 0 then ret (- errno r)
            else ret (- ECONNRESET)) ;;
    (if negb (mIsRTSPConnection s) then lengthPrefixLoop fuel
     else rtspLoop io err fuel 0) ;;
    (if negb (err =? OK) then
       notifyError false err "Recv failed." ;;
       modify (fun s => set_mSawReceiveFailure s true)
     else ret tt) ;;
    ret err.

End Methods.
End Session.

(** ** KeyedVector

    [android::KeyedVector<int32_t, V>] of [utils/KeyedVector.h], a vector of
    pairs kept sorted by key, in which a key occurs once: [add] of a key
    that is present replaces its value. *)

Module KeyedVector.
Section Vector.
Context {V : Type}.

Definition t : Type := list (Z * V).

Definition NAME_NOT_FOUND : Z := -2.

Fixpoint find (v : t) (key : Z) : option nat :=
  match v with
  | [] => None
  | (k, _) :: v' => if k =? key then Some O else option_map S (find v' key)
  end.

(** The index of [key], or the negative [NAME_NOT_FOUND]. *)
Definition indexOfKey (v : t) (key : Z) : Z :=
  match find v key with
  | Some i => Z.of_nat i
  | None => NAME_NOT_FOUND
  end.

Definition valueAt (v : t) (index : nat) : option V :=
  option_map snd (nth_error v index).

Fixpoint add (v : t) (key : Z) (item : V) : t :=
  match v with
  | [] => [(key, item)]
  | (k, x) :: v' =>
      if key <? k then (key, item) :: (k, x) :: v'
      else if key =? k then (key, item) :: v'
      else (k, x) :: add v' key item
  end.

Fixpoint removeItemsAt (v : t) (index : nat) : t :=
  match v, index with
  | [], _ => []
  | _ :: v', O => v'
  | x :: v', S i => x :: removeItemsAt v' i
  end.

(** Assignment through the reference [valueAt(index)] gives. *)
Fixpoint setValueAt (v : t) (index : nat) (item : V) : t :=
  match v, index with
  | [], _ => []
  | (k, _) :: v', O => (k, item) :: v'
  | x :: v', S i => x :: setValueAt v' i item
  end.

Definition keys (v : t) : list Z := map fst v.

(** The invariant of the vector: the keys increase. *)
Definition sorted (v : t) : Prop := StronglySorted Z.lt (keys v).

End Vector.
Arguments t V : clear implicits.
End KeyedVector.

(** ** struct ANetworkSession *)

Module ANetworkSession.
Section Methods.
Context {P : Platform}.
Local Open Scope method_scope.

Inductive Mode : Type :=
| kModeCreateUDPSession
| kModeCreateTCPDatagramSessionPassive
| kModeCreateTCPDatagramSessionActive
| kModeCreateRTSPServer
| kModeCreateRTSPClient.

Definition Mode_eqb (a b : Mode) : bool :=
  match a, b with
  | kModeCreateUDPSession, kModeCreateUDPSession
  | kModeCreateTCPDatagramSessionPassive, kModeCreateTCPDatagramSessionPassive
  | kModeCreateTCPDatagramSessionActive, kModeCreateTCPDatagramSessionActive
  | kModeCreateRTSPServer, kModeCreateRTSPServer
  | kModeCreateRTSPClient, kModeCreateRTSPClient => true
  | _, _ => false
  end.

Record t : Type := {
  mNextSessionID : Z;                     (* int32_t *)
  mSessions : KeyedVector.t Session;
  mPipeFd : Z * Z
}.

Definition set_mNextSessionID (e : t) (v : Z) : t :=
  {| mNextSessionID := v; mSessions := mSessions e; mPipeFd := mPipeFd e |}.

Definition set_mSessions (e : t) (v : KeyedVector.t Session) : t :=
  {| mNextSessionID := mNextSessionID e; mSessions := v; mPipeFd := mPipeFd e |}.

(** The constructor. *)
Definition new : t :=
  {| mNextSessionID := 1; mSessions := []; mPipeFd := (-1, -1) |}.

(** [mNextSessionID++]. *)
Definition nextSessionID : M t Z :=
  e <- get ;;
  put (set_mNextSessionID e (wrap_s32 (mNextSessionID e + 1))) ;;
  ret (mNextSessionID e).

(** [ANetworkSession::interrupt]: one byte into the write end of the pipe.
    A failure of the write is logged and nothing else. *)
Definition interrupt : M t unit :=
  e <- get ;;
  emit (PipeWrite (snd (mPipeFd e)) x00).

(** [Mutex::Autolock autoLock(mLock)] around a body. *)
Definition Autolock {A : Type} (body : M t A) : M t A :=
  emit Lock ;;
  a <- body ;;
  emit Unlock ;;
  ret a.

(** [ANetworkSession::MakeSocketNonBlocking], from the outcome of
    [fcntl(s, F_SETFL, flags | O_NONBLOCK)]. *)
Definition MakeSocketNonBlocking (setfl : sysret) : status_t :=
  if rv setfl <? 0 then - errno setfl else OK.

(** The kernel's and the resolver's answers during
    [createClientOrServer]. *)
Record SetupIO : Type := {
  su_socket : sysret;                  (* socket(AF_INET, ..., 0) *)
  su_reuseaddr : sysret;               (* setsockopt(SO_REUSEADDR) *)
  su_rcvbuf : sysret;                  (* setsockopt(SO_RCVBUF) *)
  su_sndbuf : sysret;                  (* setsockopt(SO_SNDBUF) *)
  su_setfl : sysret;                   (* fcntl(F_SETFL) *)
  su_gethostbyname : option Z;         (* gethostbyname: NULL or h_addr *)
  su_h_errno : Z;
  su_connect : sysret;                 (* connect *)
  su_bind : sysret;                    (* bind *)
  su_listen : sysret;                  (* listen(s, 4) *)
  su_getsockname : Z * sockaddr_in;
  su_getpeername : Z * sockaddr_in
}.

Definition is_server (mode : Mode) : bool :=
  Mode_eqb mode kModeCreateRTSPServer
  || Mode_eqb mode kModeCreateTCPDatagramSessionPassive.

Definition is_client (mode : Mode) : bool :=
  Mode_eqb mode kModeCreateRTSPClient
  || Mode_eqb mode kModeCreateTCPDatagramSessionActive.

(** Lines 756-872 of [createClientOrServer]: what is done to the new socket.
    [Done OK] reaches the construction of the session, [Done err] with
    another [err] is a [goto bail2]. *)
Definition configure (io : SetupIO) (mode : Mode) (remoteHost : option string)
  : outcome status_t :=
  if is_server mode && (rv (su_reuseaddr io) <? 0) then
    Done (- errno (su_reuseaddr io))
  else if Mode_eqb mode kModeCreateUDPSession && (rv (su_rcvbuf io) <? 0) then
    Done (- errno (su_rcvbuf io))
  else if Mode_eqb mode kModeCreateUDPSession && (rv (su_sndbuf io) <? 0) then
    Done (- errno (su_sndbuf io))
  else if negb (MakeSocketNonBlocking (su_setfl io) =? OK) then
    Done (MakeSocketNonBlocking (su_setfl io))
  else if is_client mode then
    match su_gethostbyname io with
    | None => Done (- su_h_errno io)
    | Some _ =>
        let c := su_connect io in
        if negb (rv c <? 0) then CheckFailed        (* CHECK_LT(res, 0) *)
        else
          let res := if errno c =? EINPROGRESS then 0 else rv c in
          if res <? 0 then Done (- errno c) else Done OK
    end
  else
    let b := su_bind io in
    if rv b =? 0 then
      if is_server mode then
        if rv (su_listen io) <? 0 then Done (- errno (su_listen io))
        else Done OK
      else
        match remoteHost with
        | Some _ =>
            match su_gethostbyname io with
            | None => Done (- su_h_errno io)
            | Some _ =>
                if rv (su_connect io) <? 0 then Done (- errno (su_connect io))
                else Done OK
            end
        | None => Done OK
        end
    else if rv b <? 0 then Done (- errno b)
    else Done OK.

(** The [switch (mode)] of lines 874-896. *)
Definition state_of_mode (mode : Mode) : State :=
  match mode with
  | kModeCreateRTSPClient => CONNECTING
  | kModeCreateTCPDatagramSessionActive => CONNECTING
  | kModeCreateTCPDatagramSessionPassive => LISTENING_TCP_DGRAMS
  | kModeCreateRTSPServer => LISTENING_RTSP
  | kModeCreateUDPSession => DATAGRAM
  end.

(** A constructor call inside a method of the engine. *)
Definition construct (c : list event * outcome Session) : M t Session :=
  fun e => (fst c, obind (snd c) (fun session => Done (session, e))).

(** [ANetworkSession::createClientOrServer].  It gives the status and what
    it stores in [*sessionID]. *)
Definition createClientOrServer (io : SetupIO) (mode : Mode)
    (localAddr : option Z) (port : Z)
    (remoteHost : option string) (remotePort : Z) (notify : AMessage)
  : M t (status_t * Z) :=
  Autolock
    (let s := su_socket io in
     if rv s <? 0 then ret (- errno s, 0)
     else
       err <- lift (configure io mode remoteHost) ;;
       if negb (err =? OK) then
         emit (Close (rv s)) ;;
         ret (err, 0)
       else
         id <- nextSessionID ;;
         session <- construct
           (Session.new id (state_of_mode mode) (rv s) notify
                        (su_getsockname io) (su_getpeername io)) ;;
         let session :=
           if Mode_eqb mode kModeCreateTCPDatagramSessionActive then
             set_mIsRTSPConnection session false
           else if Mode_eqb mode kModeCreateRTSPClient then
             set_mIsRTSPConnection session true
           else session in
         modify (fun e =>
           set_mSessions e
             (KeyedVector.add (mSessions e) (mSessionID session) session)) ;;
         interrupt ;;
         ret (OK, mSessionID session)).

Definition createRTSPClient (io : SetupIO) (host : string) (port : Z)
    (notify : AMessage) : M t (status_t * Z) :=
  createClientOrServer io kModeCreateRTSPClient None 0 (Some host) port notify.

Definition createRTSPServer (io : SetupIO) (addr : Z) (port : Z)
    (notify : AMessage) : M t (status_t * Z) :=
  createClientOrServer io kModeCreateRTSPServer (Some addr) port None 0 notify.

Definition createUDPSession (io : SetupIO) (localPort : Z)
    (remoteHost : option string) (remotePort : Z) (notify : AMessage)
  : M t (status_t * Z) :=
  createClientOrServer io kModeCreateUDPSession None localPort
                       remoteHost remotePort notify.

Definition createTCPDatagramSessionPassive (io : SetupIO) (addr : Z) (port : Z)
    (notify : AMessage) : M t (status_t * Z) :=
  createClientOrServer io kModeCreateTCPDatagramSessionPassive
                       (Some addr) port None 0 notify.

Definition createTCPDatagramSessionActive (io : SetupIO) (localPort : Z)
    (remoteHost : string) (remotePort : Z) (notify : AMessage)
  : M t (status_t * Z) :=
  createClientOrServer io kModeCreateTCPDatagramSessionActive
                       None localPort (Some remoteHost) remotePort notify.

(** A method of the session at [index], called through the [sp<Session>]
    the vector holds. *)
Definition onSession {A : Type} (index : nat) (m : M Session A) : M t A :=
  fun e =>
    match KeyedVector.valueAt (mSessions e) index with
    | None => ([], OutOfRange)
    | Some session =>
        match m session with
        | (tr, Done (a, session')) =>
            (tr, Done (a, set_mSessions e
                            (KeyedVector.setValueAt (mSessions e) index session')))
        | (tr, CheckFailed) => (tr, CheckFailed)
        | (tr, OutOfRange) => (tr, OutOfRange)
        | (tr, OutOfFuel) => (tr, OutOfFuel)
        end
    end.

(** [mSessions.valueAt(index)], read. *)
Definition sessionAt (index : nat) : M t Session :=
  fun e =>
    match KeyedVector.valueAt (mSessions e) index with
    | None => ([], OutOfRange)
    | Some session => ([], Done (session, e))
    end.

(** [ANetworkSession::destroySession].  The vector held the last reference:
    the session's destructor closes its socket. *)
Definition destroySession (sessionID : Z) : M t status_t :=
  Autolock
    (e <- get ;;
     let index := KeyedVector.indexOfKey (mSessions e) sessionID in
     if index <? 0 then ret (- ENOENT)
     else
       session <- sessionAt (Z.to_nat index) ;;
       put (set_mSessions e
              (KeyedVector.removeItemsAt (mSessions e) (Z.to_nat index))) ;;
       emit (Close (mSocket session)) ;;
       interrupt ;;
       ret OK).

(** [ANetworkSession::connectUDPSession], with the answers of
    [gethostbyname] and of [connect]. *)
Definition connectUDPSession (ent : option Z) (h_errno : Z) (c : sysret)
    (sessionID : Z) (remoteHost : string) (remotePort : Z) : M t status_t :=
  Autolock
    (e <- get ;;
     let index := KeyedVector.indexOfKey (mSessions e) sessionID in
     if index <? 0 then ret (- ENOENT)
     else
       match ent with
       | None => ret (- h_errno)
       | Some _ => if rv c <? 0 then ret (- errno c) else ret OK
       end).

(** [ANetworkSession::sendRequest]. *)
Definition sendRequest (sessionID : Z) (data : list byte) (size : Z)
  : M t status_t :=
  Autolock
    (e <- get ;;
     let index := KeyedVector.indexOfKey (mSessions e) sessionID in
     if index <? 0 then ret (- ENOENT)
     else
       err <- onSession (Z.to_nat index) (Session.sendRequest data size) ;;
       interrupt ;;
       ret err).

(** *** threadLoop *)

Definition fd_set : Type := Z -> bool.
Definition FD_ZERO : fd_set := fun _ => false.
Definition FD_SET (fd : Z) (set : fd_set) : fd_set :=
  fun x => (x =? fd) || set x.
Definition FD_ISSET (fd : Z) (set : fd_set) : bool := set fd.

(** The kernel's answers during one pass of [threadLoop]: those of
    [select], and for each socket those of [accept] and of the session's
    [readMore] and [writeMore]. *)
Record LoopIO : Type := {
  lo_select : sysret;
  lo_readable : Z -> bool;
  lo_writable : Z -> bool;
  lo_accept : Z -> sysret;
  lo_setfl : Z -> sysret;
  lo_getsockname : Z -> Z * sockaddr_in;
  lo_getpeername : Z -> Z * sockaddr_in;
  lo_read : Z -> Session.IO;
  lo_write : Z -> Session.IO
}.

(** Lines 1010-1032: the sets handed to [select]. *)
Fixpoint collect (v : KeyedVector.t Session) (rs ws : fd_set)
  : fd_set * fd_set :=
  match v with
  | [] => (rs, ws)
  | (_, session) :: v' =>
      let s := mSocket session in
      if s <? 0 then collect v' rs ws
      else
        let rs := if Session.wantsToRead session then FD_SET s rs else rs in
        let ws := if Session.wantsToWrite session then FD_SET s ws else ws in
        collect v' rs ws
  end.

(** Lines 1085-1131: the listener [session] is readable.  The session of
    an accepted connection is staged behind [sessionsToAdd]. *)
Definition acceptClient (io : LoopIO) (session : Session)
    (sessionsToAdd : list Session) : M t (list Session) :=
  let clientSocket := rv (lo_accept io (mSocket session)) in
  if 0 <=? clientSocket then
    let err := MakeSocketNonBlocking (lo_setfl io clientSocket) in
    if negb (err =? OK) then
      emit (Close clientSocket) ;;
      ret sessionsToAdd
    else
      id <- nextSessionID ;;
      clientSession <- construct
        (Session.new id CONNECTED clientSocket (mNotify session)
                     (lo_getsockname io clientSocket)
                     (lo_getpeername io clientSocket)) ;;
      let clientSession :=
        set_mIsRTSPConnection clientSession (Session.isRTSPServer session) in
      ret (sessionsToAdd ++ [clientSession])
  else ret sessionsToAdd.

(** Lines 1070-1150: the body of the loop, for the session at [i]. *)
Definition dispatchOne (io : LoopIO) (fuel : nat) (rs ws : fd_set)
    (i : nat) (res : Z) (sessionsToAdd : list Session)
  : M t (Z * list Session) :=
  session <- sessionAt i ;;
  let s := mSocket session in
  if s <? 0 then ret (res, sessionsToAdd)
  else
    let res := if FD_ISSET s rs || FD_ISSET s ws then res - 1 else res in
    sessionsToAdd <-
      (if FD_ISSET s rs then
         if Session.isRTSPServer session || Session.isTCPDatagramServer session
         then acceptClient io session sessionsToAdd
         else
           onSession i (Session.readMore (lo_read io s) fuel) ;;
           ret sessionsToAdd
       else ret sessionsToAdd) ;;
    (if FD_ISSET s ws then
       onSession i (Session.writeMore (lo_write io s)) ;;
       ret tt
     else ret tt) ;;
    ret (res, sessionsToAdd).

(** [for (size_t i = mSessions.size(); res > 0 && i-- > 0;)]. *)
Fixpoint dispatchLoop (io : LoopIO) (fuel : nat) (rs ws : fd_set)
    (i : nat) (res : Z) (sessionsToAdd : list Session)
  : M t (list Session) :=
  match i with
  | O => ret sessionsToAdd
  | S i' =>
      if 0 <? res then
        r <- dispatchOne io fuel rs ws i' res sessionsToAdd ;;
        dispatchLoop io fuel rs ws i' (fst r) (snd r)
      else ret sessionsToAdd
  end.

(** Lines 1153-1161. *)
Definition addSessions (sessionsToAdd : list Session)
    (v : KeyedVector.t Session) : KeyedVector.t Session :=
  fold_left (fun v session => KeyedVector.add v (mSessionID session) session)
            sessionsToAdd v.

(** [ANetworkSession::threadLoop], one pass. *)
Definition threadLoop (io : LoopIO) (fuel : nat) : M t unit :=
  e <- get ;;
  let pipe := fst (mPipeFd e) in
  sets <- Autolock
            (e <- get ;;
             ret (collect (mSessions e) (FD_SET pipe FD_ZERO) FD_ZERO)) ;;
  let res := rv (lo_select io) in
  if res =? 0 then ret tt
  else if res <? 0 then ret tt
  else
    let rs : fd_set := fun fd => fst sets fd && lo_readable io fd in
    let ws : fd_set := fun fd => snd sets fd && lo_writable io fd in
    res <- (if FD_ISSET pipe rs then
              emit (PipeRead pipe) ;;
              ret (res - 1)
            else ret res) ;;
    Autolock
      (e <- get ;;
       sessionsToAdd <-
         dispatchLoop io fuel rs ws (length (mSessions e)) res [] ;;
       modify (fun e =>
         set_mSessions e (addSessions sessionsToAdd (mSessions e)))).

End Methods.
End ANetworkSession.

(** ** A platform to run the model on

    A stand-in for the parts of the repository the model is parametric in,
    used where a statement is evaluated on concrete bytes: a parser that
    takes a message to end with its header block (up to the first empty
    line) and the [Content-Length] bytes after it, and the enumerators of
    [NotificationReason] numbered from zero in the order the source names
    them. *)

Module Reference.

Fixpoint starts_with (pat buf : list byte) : bool :=
  match pat, buf with
  | [], _ => true
  | x :: pat', y :: buf' => Strings.Byte.eqb x y && starts_with pat' buf'
  | _ :: _, [] => false
  end.

Fixpoint find_sub (pat buf : list byte) {struct buf} : option nat :=
  if starts_with pat buf then Some O
  else match buf with
       | [] => None
       | _ :: buf' => option_map S (find_sub pat buf')
       end.

Fixpoint decimal (acc : Z) (buf : list byte) : Z :=
  match buf with
  | [] => acc
  | b :: buf' =>
      if (48 <=? u8 b) && (u8 b <=? 57)
      then decimal (acc * 10 + (u8 b - 48)) buf'
      else acc
  end.

(** ["Content-Length: "]. *)
Definition content_length_header : list byte :=
  [x43; x6f; x6e; x74; x65; x6e; x74; x2d;
   x4c; x65; x6e; x67; x74; x68; x3a; x20].

Definition content_length (headers : list byte) : Z :=
  match find_sub content_length_header headers with
  | Some i => decimal 0 (skipn (i + 16) headers)
  | None => 0
  end.

(** A message: its header block and its content. *)
Definition message : Type := list byte * list byte.

Definition parse (buf : list byte) (noMoreData : bool)
  : option (message * Z) :=
  match find_sub [x0d; x0a; x0d; x0a] buf with
  | None => None
  | Some i =>
      let n := content_length (firstn i buf) in
      let total := Z.of_nat i + 4 + n in
      if size buf <? total then
        if noMoreData
        then Some ((firstn i buf, skipn (i + 4) buf), size buf)
        else None
      else Some ((firstn i buf, firstn (Z.to_nat n) (skipn (i + 4) buf)), total)
  end.

Definition content (m : message) : option (list byte) :=
  match snd m with
  | [] => None
  | c => Some c
  end.

Definition value (r : NotificationReason) : Z :=
  match r with
  | kWhatError => 0
  | kWhatConnected => 1
  | kWhatClientConnected => 2
  | kWhatData => 3
  | kWhatDatagram => 4
  | kWhatBinaryData => 5
  end.

#[export] Instance platform : Platform :=
  {| AMessage := nat;
     ParsedMessage := message;
     Parse := parse;
     getContent := content;
     reason_value := value |}.

(** A notification template. *)
Definition template : @AMessage platform := 0%nat.

(** A session as the constructor leaves it. *)
Definition session (id : Z) (state : State) (rtsp : bool) : Session :=
  {| mSessionID := id; mState := state; mIsRTSPConnection := rtsp;
     mSocket := 7; mNotify := template; mSawReceiveFailure := false;
     mSawSendFailure := false; mOutBuffer := []; mOutDatagrams := [];
     mInBuffer := [] |}.

(** The answers of a kernel whose [recv] hands over [tmp], whose [send]
    takes [sent] bytes and whose clock reads [now]. *)
Definition io (tmp : list byte) (sent : Z) (now : Z) : Session.IO :=
  {| Session.io_recv := ({| rv := size tmp; errno := 0 |}, tmp);
     Session.io_recvfrom :=
       fun _ => ({| rv := -1; errno := EAGAIN |}, [],
                 {| sin_addr := 0; sin_port := 0 |});
     Session.io_send := fun _ => {| rv := sent; errno := 0 |};
     Session.io_now := fun _ => now;
     Session.io_getsockopt := (0, 4, 0) |}.

(** Scenario 3 of the specification: the header block of a SET_PARAMETER
    request that announces [Content-Length: 17], ... *)
Definition idr_headers : list byte :=
  [x53; x45; x54; x5f; x50; x41; x52; x41; x4d; x45; x54; x45;
   x52; x20; x72; x74; x73; x70; x3a; x2f; x2f; x6c; x6f; x63;
   x61; x6c; x68; x6f; x73; x74; x2f; x77; x66; x64; x31; x2e;
   x30; x20; x52; x54; x53; x50; x2f; x31; x2e; x30; x0d; x0a;
   x43; x53; x65; x71; x3a; x20; x32; x0d; x0a; x43; x6f; x6e;
   x74; x65; x6e; x74; x2d; x4c; x65; x6e; x67; x74; x68; x3a;
   x20; x31; x37].

(** ... and the header block of an OPTIONS request. *)
Definition options_headers : list byte :=
  [x4f; x50; x54; x49; x4f; x4e; x53; x20; x2a; x20; x52; x54;
   x53; x50; x2f; x31; x2e; x30; x0d; x0a; x43; x53; x65; x71;
   x3a; x20; x33].

Definition CRLF : list byte := [x0d; x0a].

(** The request with its 17 bytes of content, the line end the sender adds
    behind them, and the next request. *)
Definition idr_stream : list byte :=
  idr_headers ++ CRLF ++ CRLF ++ Session.wfd_idr_request ++ CRLF
  ++ options_headers ++ CRLF ++ CRLF.

(** A kernel under which every call of [createClientOrServer] succeeds,
    handing out the descriptor [fd]; a [connect] is in progress. *)
Definition setup (fd : Z) : ANetworkSession.SetupIO :=
  {| ANetworkSession.su_socket := {| rv := fd; errno := 0 |};
     ANetworkSession.su_reuseaddr := {| rv := 0; errno := 0 |};
     ANetworkSession.su_rcvbuf := {| rv := 0; errno := 0 |};
     ANetworkSession.su_sndbuf := {| rv := 0; errno := 0 |};
     ANetworkSession.su_setfl := {| rv := 0; errno := 0 |};
     ANetworkSession.su_gethostbyname := Some 2130706433;
     ANetworkSession.su_h_errno := 0;
     ANetworkSession.su_connect := {| rv := -1; errno := EINPROGRESS |};
     ANetworkSession.su_bind := {| rv := 0; errno := 0 |};
     ANetworkSession.su_listen := {| rv := 0; errno := 0 |};
     ANetworkSession.su_getsockname :=
       (0, {| sin_addr := 2130706433; sin_port := 23456 |});
     ANetworkSession.su_getpeername :=
       (0, {| sin_addr := 2130706433; sin_port := 40000 |}) |}.

(** An engine that holds one UDP session, on descriptor 7. *)
Definition udp_engine : ANetworkSession.t :=
  {| ANetworkSession.mNextSessionID := 2;
     ANetworkSession.mSessions := [(1, session 1 DATAGRAM false)];
     ANetworkSession.mPipeFd := (3, 4) |}.


End Reference.

(** ** The words of the specification *)

(** The two bytes [sendRequest] puts before a payload of [n] bytes. *)
Definition prefix (n : Z) : list byte :=
  [to_u8 (Z.shiftr n 8); to_u8 (Z.land n 255)].

(** A length-prefixed frame on the wire. *)
Definition frame (payload : list byte) : list byte :=
  prefix (size payload) ++ payload.

(** The frames a buffer starts with, and what is left behind them: the
    decoding of a stream of length-prefixed frames, in the words of the
    specification. *)
Definition incomplete (buf : list byte) : Prop :=
  size buf < 2 \/ size buf < U16_AT buf + 2.

Inductive Frames : list byte -> list (list byte) -> list byte -> Prop :=
| Frames_rest (buf : list byte) :
    incomplete buf -> Frames buf [] buf
| Frames_frame (p buf : list byte) (ps : list (list byte)) (rest : list byte) :
    size p <= 65535 ->
    Frames buf ps rest ->
    Frames (frame p ++ buf) (p :: ps) rest.

(** The bytes a call [sendRequest(data, size)] takes from [data]: the first
    [size] of them, or the C string at [data], up to its NUL, when [size] is
    negative. *)
Definition payload (data : list byte) (n : Z) : list byte :=
  firstn (Z.to_nat (if 0 <=? n then n else strlen data)) data.


(** ** Runs of a session *)

Section Runs.
Context {P : Platform}.
Local Open Scope method_scope.



(** The bytes a successful [recv] hands over. *)
Definition received (io : Session.IO) : list byte :=
  firstn (Z.to_nat (rv (fst (Session.io_recv io)))) (snd (Session.io_recv io)).

(** The notification of a datagram taken off a stream. *)
Definition Datagram (s : Session) (packet : list byte) : event :=
  Post (mNotify s)
       {| sessionID := mSessionID s; reason := kWhatDatagram;
          fields := PacketFields packet |}.

End Runs.

Section Notifications.
Context {P : Platform}.

(** The notification [notifyError(send, err, detail)] posts. *)
Definition Error (s : Session) (send : bool) (err : status_t) (detail : string)
  : event :=
  Post (mNotify s)
       {| sessionID := mSessionID s; reason := kWhatError;
          fields := ErrorFields send err detail |}.

(** The notification of a parsed RTSP message. *)
Definition Data (s : Session) (msg : ParsedMessage) : event :=
  Post (mNotify s)
       {| sessionID := mSessionID s; reason := kWhatData;
          fields := DataFields msg |}.

(** The notification of a binary frame behind a '$'. *)
Definition BinaryData (s : Session) (channel : byte) (data : list byte)
    (arrivalTimeUs : Z) : event :=
  Post (mNotify s)
       {| sessionID := mSessionID s; reason := kWhatBinaryData;
          fields := BinaryFields channel data arrivalTimeUs |}.

(** [err] as [readMore] has it after the [recv]. *)
Definition recv_status (r : sysret) : status_t :=
  if 0 <? rv r then OK else if rv r <? 0 then - errno r else - ECONNRESET.

End Notifications.

(** ** The RTP time stamp, in the words of the specification *)

(** A datagram whose byte 0 is [0x80] and whose byte 1 has 33 in its low
    seven bits. *)
Definition is_rtp33 (d : list byte) : bool :=
  (u8 (nth 0 d x00) =? 128) && (Z.land (u8 (nth 1 d x00)) 127 =? 33).

(** The big-endian encoding of a 32-bit value. *)
Definition be32 (v : Z) : list byte :=
  [to_u8 (v / 2 ^ 24); to_u8 (v / 2 ^ 16); to_u8 (v / 2 ^ 8); to_u8 v].

(** The bytes that go out for a datagram sent at [now_us]. *)
Definition on_wire (now_us : Z) (d : list byte) : list byte :=
  if is_rtp33 d
  then firstn 4 d ++ be32 ((now_us * 9 / 100) mod 2 ^ 32) ++ skipn 8 d
  else d.

(** The sizes under which the rewrite stays inside the datagram: byte 0 is
    there; byte 1 when byte 0 is [0x80]; bytes 4 to 7 when the pattern
    matches. *)
Definition well_sized (d : list byte) : Prop :=
  1 <= size d
  /\ (u8 (nth 0 d x00) = 128 -> 2 <= size d)
  /\ (is_rtp33 d = true -> 8 <= size d).

Section Reached.
Context {P : Platform}.

(** A pass of [writeMore] over the queue of datagrams reaches the datagram
    at [j]: each [send] before it took its datagram. *)
Definition reached (io : Session.IO) (j : nat) : Prop :=
  forall i : nat, (i < j)%nat -> 0 < rv (Session.io_send io i).

End Reached.

Section Wire.
Context {P : Platform}.

(** The [send] calls of a pass over a queue, were all of it sent. *)
Fixpoint wire (io : Session.IO) (sock : Z) (k : nat) (queue : list ABuffer)
  : list event :=
  match queue with
  | [] => []
  | d :: queue' =>
      Send sock (on_wire (Session.io_now io k) d) :: wire io sock (S k) queue'
  end.

End Wire.

(** ** Binary frames on an RTSP stream, in the words of the specification *)

(** ['$'], the channel, a 16-bit big-endian length, the payload. *)
Definition interleaved (channel : byte) (payload : list byte) : list byte :=
  x24 :: channel :: prefix (size payload) ++ payload.

(** No whole binary frame at the head of the buffer. *)
Definition no_binary_frame (buf : list byte) : Prop :=
  c_str_at buf 0 <> x24
  \/ size buf < 4
  \/ size buf < 4 + U16_AT (skipn 2 buf).

(** The binary frames a buffer starts with, and what is left behind them. *)
Inductive Binary : list byte -> list (byte * list byte) -> list byte -> Prop :=
| Binary_rest (buf : list byte) :
    no_binary_frame buf -> Binary buf [] buf
| Binary_frame (channel : byte) (p buf : list byte)
               (fs : list (byte * list byte)) (rest : list byte) :
    size p <= 65535 ->
    Binary buf fs rest ->
    Binary (interleaved channel p ++ buf) ((channel, p) :: fs) rest.

Section LastMessage.
Context {P : Platform}.

(** After a failed [recv], what the loop does with the bytes behind the
    binary frames: nothing when they begin a binary frame, else one call of
    the parser, told that no more data comes. *)
Definition last_message (rest : list byte) : option (ParsedMessage * Z) :=
  if Strings.Byte.eqb (c_str_at rest 0) x24 then None else Parse rest true.

Fixpoint binary_events (s : Session) (io : Session.IO) (k : nat)
    (fs : list (byte * list byte)) : list event :=
  match fs with
  | [] => []
  | (channel, p) :: fs' =>
      BinaryData s channel p (Session.io_now io k)
      :: binary_events s io (S k) fs'
  end.

End LastMessage.

Section Wake.
Context {P : Platform}.

(** The byte [interrupt] writes into the pipe of an engine. *)
Definition wake (e : ANetworkSession.t) : event :=
  PipeWrite (snd (ANetworkSession.mPipeFd e)) x00.

End Wake.

Section Created.
Context {P : Platform}.

(** The session [createClientOrServer] puts into the vector. *)
Definition created (mode : ANetworkSession.Mode) (id s : Z) (notify : AMessage)
  : Session :=
  {| mSessionID := id; mState := ANetworkSession.state_of_mode mode;
     mIsRTSPConnection :=
       ANetworkSession.Mode_eqb mode ANetworkSession.kModeCreateRTSPClient;
     mSocket := s; mNotify := notify; mSawReceiveFailure := false;
     mSawSendFailure := false; mOutBuffer := []; mOutDatagrams := [];
     mInBuffer := [] |}.

End Created.

(** ** Runs of the engine *)

Section EngineRuns.
Context {P : Platform}.
Local Open Scope method_scope.

(** A call on the engine: one of the control API, or one pass of the
    loop. *)
Inductive op : Type :=
| Create (io : ANetworkSession.SetupIO) (mode : ANetworkSession.Mode)
         (localAddr : option Z) (port : Z)
         (remoteHost : option string) (remotePort : Z) (notify : AMessage)
| Destroy (sessionID : Z)
| Connect (ent : option Z) (h_errno : Z) (c : sysret)
          (sessionID : Z) (remoteHost : string) (remotePort : Z)
| Request (sessionID : Z) (data : list byte) (size : Z)
| Pass (io : ANetworkSession.LoopIO) (fuel : nat).

(** The call, giving the identifiers it hands to its caller: what a
    creation stores in [*sessionID], unless that is the 0 it starts with. *)
Definition perform (o : op) : M ANetworkSession.t (list Z) :=
  match o with
  | Create io mode localAddr port remoteHost remotePort notify =>
      r <- ANetworkSession.createClientOrServer
             io mode localAddr port remoteHost remotePort notify ;;
      ret (if snd r =? 0 then [] else [snd r])
  | Destroy id => ANetworkSession.destroySession id ;; ret []
  | Connect ent h_errno c id host port =>
      ANetworkSession.connectUDPSession ent h_errno c id host port ;; ret []
  | Request id data n => ANetworkSession.sendRequest id data n ;; ret []
  | Pass io fuel => ANetworkSession.threadLoop io fuel ;; ret []
  end.

(** The identifiers the ClientConnected notifications of a trace announce:
    those of the sessions accepted on a listener. *)
Definition accepted (t : list event) : list Z :=
  flat_map (fun ev =>
              match ev with
              | Post _ n =>
                  match reason n with
                  | kWhatClientConnected => [sessionID n]
                  | _ => []
                  end
              | _ => []
              end) t.

(** A sequence of calls that all return: the identifiers issued, in the
    order of issue, and the engine at the end. *)
Fixpoint run (ops : list op) (e : ANetworkSession.t)
  : option (list Z * ANetworkSession.t) :=
  match ops with
  | [] => Some ([], e)
  | o :: ops' =>
      match perform o e with
      | (t, Done (ids, e')) =>
          match run ops' e' with
          | Some (ids', e'') => Some (ids ++ accepted t ++ ids', e'')
          | None => None
          end
      | _ => None
      end
  end.


(** The values of an [int32_t]. *)
Definition in_range (z : Z) : Prop := - 2 ^ 31 <= z <= INT32_MAX.


(** A session created and destroyed again, [n] times over. *)
Fixpoint churn (io : ANetworkSession.SetupIO) (notify : AMessage)
    (n : nat) (id : Z) : list op :=
  match n with
  | O => []
  | S n' =>
      Create io ANetworkSession.kModeCreateUDPSession None 0 None 0 notify
      :: Destroy id
      :: churn io notify n' (wrap_s32 (id + 1))
  end.

End EngineRuns.

(** ** What belongs to a session *)

Section Ownership.
Context {P : Platform}.

(** An event of the session [s]: a notification made from its template
    under its identifier, or a [send] on its socket. *)
Definition own (s : Session) (ev : event) : Prop :=
  match ev with
  | Post notify msg => notify = mNotify s /\ sessionID msg = mSessionID s
  | Send socket _ => socket = mSocket s
  | _ => False
  end.

(** [s'] is the session [s] later in its life: the identifier, the socket,
    the template and the kind of connection are the same, a failure that was
    seen is still seen, and the state is the same or went from CONNECTING to
    CONNECTED. *)
Definition later (s s' : Session) : Prop :=
  mSessionID s' = mSessionID s
  /\ mSocket s' = mSocket s
  /\ mNotify s' = mNotify s
  /\ mIsRTSPConnection s' = mIsRTSPConnection s
  /\ (mState s' = mState s
      \/ (mState s = CONNECTING /\ mState s' = CONNECTED))
  /\ (mSawReceiveFailure s = true -> mSawReceiveFailure s' = true)
  /\ (mSawSendFailure s = true -> mSawSendFailure s' = true).

(** The methods the engine calls on a session. *)
Inductive method : Type :=
| ReadMore (io : Session.IO) (fuel : nat)
| WriteMore (io : Session.IO)
| SendRequest (data : list byte) (size : Z).

Definition invoke (m : method) : M Session status_t :=
  match m with
  | ReadMore io fuel => Session.readMore io fuel
  | WriteMore io => Session.writeMore io
  | SendRequest data n => Session.sendRequest data n
  end.

(** Calls one after the other, all of which return. *)
Fixpoint invokes (ms : list method) (s : Session) : option Session :=
  match ms with
  | [] => Some s
  | m :: ms' =>
      match invoke m s with
      | (_, Done (_, s')) => invokes ms' s'
      | _ => None
      end
  end.

(** At [s], the method [m] makes events of [s] only and returns [s] later
    in its life. *)
Definition keeps_at {A : Type} (s : Session) (m : M Session A) : Prop :=
  Forall (own s) (fst (m s))
  /\ forall a s', snd (m s) = Done (a, s') -> later s s'.

End Ownership.

(** ** Passes over a session that writes or receives datagrams *)

Section Passes.
Context {P : Platform}.
Local Open Scope method_scope.

(** One [writeMore] for each readiness of the socket. *)
Fixpoint writeMores (ios : list Session.IO) : M Session (list status_t) :=
  match ios with
  | [] => ret []
  | io :: ios' =>
      err <- Session.writeMore io ;;
      errs <- writeMores ios' ;;
      ret (err :: errs)
  end.

(** What the [send] of a [writeMore] on a stream returns. *)
Definition taken (io : Session.IO) : Z := rv (Session.io_send io 0).

(** Where each of a sequence of sends starts when the first starts at
    [from] and each takes the number of bytes listed. *)
Fixpoint offsets (ns : list Z) (from : Z) : list Z :=
  match ns with
  | [] => []
  | n :: ns' => from :: offsets ns' (from + n)
  end.

Definition total (ns : list Z) : Z := fold_right Z.add 0 ns.

(** The notification of the datagram the [k]-th [recvfrom] hands over. *)
Definition UDPDatagram (s : Session) (io : Session.IO) (k : nat) : event :=
  let '(r, buf, remoteAddr) := Session.io_recvfrom io k in
  Post (mNotify s)
       {| sessionID := mSessionID s; reason := kWhatDatagram;
          fields := UDPFields (dotted_quad (sin_addr remoteAddr))
                              (sin_port remoteAddr)
                              (firstn (Z.to_nat (rv r)) buf)
                              (Session.io_now io k) |}.

(** [err] after a call that returned [n <= 0]. *)
Definition failure_status (r : sysret) : status_t :=
  if rv r <? 0 then - errno r else - ECONNRESET.

(** [if (err == -EAGAIN) err = OK]. *)
Definition forgive_EAGAIN (err : status_t) : status_t :=
  if err =? - EAGAIN then OK else err.

End Passes.

(** ** The session an identifier stands for *)

(** What is found for a key: [indexOfKey], then [valueAt]. *)
Definition valueFor {V : Type} (v : KeyedVector.t V) (key : Z) : option V :=
  match KeyedVector.find v key with
  | Some i => KeyedVector.valueAt v i
  | None => None
  end.

Section Table.
Context {P : Platform}.

Definition sessionFor (e : ANetworkSession.t) (id : Z) : option Session :=
  valueFor (ANetworkSession.mSessions e) id.

End Table.

(** * Properties *)

(** ** Bytes *)

Lemma u8_range (b : byte) : 0 <= u8 b < 256.
Proof.
  unfold u8. pose proof (Strings.Byte.to_N_bounded b). lia.
Qed.

Lemma to_u8_u8 (b : byte) : to_u8 (u8 b) = b.
Proof.
  unfold to_u8. pose proof (u8_range b) as H.
  rewrite Z.mod_small by lia. unfold u8. rewrite N2Z.id.
  now rewrite Strings.Byte.of_to_N.
Qed.

Lemma u8_to_u8 (z : Z) : u8 (to_u8 z) = z mod 256.
Proof.
  unfold to_u8, u8.
  assert (0 <= z mod 256 < 256) as H by (apply Z.mod_pos_bound; lia).
  destruct (Strings.Byte.of_N (Z.to_N (z mod 256))) as [b|] eqn:E.
  - apply Strings.Byte.to_of_N in E. rewrite E. lia.
  - apply Strings.Byte.of_N_None_iff in E. lia.
Qed.

Lemma land_shiftl_small (x y n : Z) :
  0 <= n -> 0 <= y < 2 ^ n -> Z.land (Z.shiftl x n) y = 0.
Proof.
  intros Hn Hy. apply Z.bits_inj'; intros i Hi.
  rewrite Z.land_spec, Z.bits_0.
  destruct (Z.lt_ge_cases i n) as [Hlt|Hge].
  - now rewrite Z.shiftl_spec_low.
  - destruct (Z.eq_dec y 0) as [->|Hy0].
    + now rewrite Z.bits_0, andb_false_r.
    + rewrite (Z.bits_above_log2 y i), andb_false_r; try lia.
      apply Z.lt_le_trans with n; trivial.
      apply Z.log2_lt_pow2; lia.
Qed.

Lemma lor_shiftl_add (x y n : Z) :
  0 <= n -> 0 <= y < 2 ^ n -> Z.lor (Z.shiftl x n) y = x * 2 ^ n + y.
Proof.
  intros Hn Hy. pose proof (land_shiftl_small x y n Hn Hy) as H.
  rewrite <- Z.lxor_lor, <- Z.add_nocarry_lxor, Z.shiftl_mul_pow2; trivial.
Qed.

Lemma U16_AT_cons (b0 b1 : byte) (p : list byte) :
  U16_AT (b0 :: b1 :: p) = u8 b0 * 256 + u8 b1.
Proof.
  unfold U16_AT. simpl nth.
  rewrite lor_shiftl_add; try lia. apply u8_range.
Qed.

Lemma U16_AT_range (p : list byte) : 0 <= U16_AT p <= 65535.
Proof.
  unfold U16_AT. rewrite lor_shiftl_add by (try lia; apply u8_range).
  pose proof (u8_range (nth 0 p x00)). pose proof (u8_range (nth 1 p x00)).
  lia.
Qed.

Lemma U16_AT_prefix (n : Z) (p : list byte) :
  0 <= n <= 65535 -> U16_AT (prefix n ++ p) = n.
Proof.
  intros H. unfold prefix. cbn [app]. rewrite U16_AT_cons, !u8_to_u8.
  rewrite Z.shiftr_div_pow2 by lia.
  change 255 with (Z.ones 8). rewrite Z.land_ones by lia.
  change (2 ^ 8) with 256.
  rewrite (Z.mod_small (n / 256)) by (split; [apply Z.div_pos|apply Z.div_lt_upper_bound]; lia).
  rewrite Z.mod_mod by lia.
  pose proof (Z.div_mod n 256). lia.
Qed.

Lemma prefix_U16_AT (b0 b1 : byte) (p : list byte) :
  prefix (U16_AT (b0 :: b1 :: p)) = [b0; b1].
Proof.
  rewrite U16_AT_cons. unfold prefix.
  pose proof (u8_range b0). pose proof (u8_range b1).
  rewrite Z.shiftr_div_pow2 by lia.
  change 255 with (Z.ones 8). rewrite Z.land_ones by lia.
  change (2 ^ 8) with 256.
  replace ((u8 b0 * 256 + u8 b1) / 256) with (u8 b0)
    by (apply Z.div_unique with (u8 b1); lia).
  replace ((u8 b0 * 256 + u8 b1) mod 256) with (u8 b1)
    by (apply Z.mod_unique with (u8 b0); lia).
  now rewrite !to_u8_u8.
Qed.

Lemma to_u8_mod (z : Z) : to_u8 (z mod 256) = to_u8 z.
Proof. unfold to_u8. now rewrite Z.mod_mod. Qed.

Lemma to_u8_land (z : Z) : to_u8 (Z.land z 255) = to_u8 z.
Proof.
  change 255 with (Z.ones 8). rewrite Z.land_ones by lia. apply to_u8_mod.
Qed.





(** ** Session::sendRequest on a stream of length-prefixed datagrams *)

Section SendRequest.
Context {P : Platform}.

Lemma firstn_size (data : list byte) : firstn (Z.to_nat (size data)) data = data.
Proof. unfold size. rewrite Nat2Z.id. apply firstn_all. Qed.

Lemma size_nonneg (data : list byte) : 0 <= size data.
Proof. unfold size. lia. Qed.






End SendRequest.



(** ** The decoding loop of a stream of length-prefixed datagrams *)

Section LengthPrefix.
Context {P : Platform}.

Lemma set_mInBuffer_same (s : Session) : set_mInBuffer s (mInBuffer s) = s.
Proof. now destruct s. Qed.

Lemma size_app (a b : list byte) : size (a ++ b) = size a + size b.
Proof. unfold size. rewrite length_app. lia. Qed.

Lemma size_frame (p : list byte) : size (frame p) = 2 + size p.
Proof. unfold frame. rewrite size_app. reflexivity. Qed.

Lemma lengthPrefixLoop_S (fuel : nat) (s : Session) :
  Session.lengthPrefixLoop (S fuel) s =
    if 2 <=? size (mInBuffer s) then
      if size (mInBuffer s) <? U16_AT (mInBuffer s) + 2 then
        ([], Done (tt, s))
      else
        let (t, o) :=
          Session.lengthPrefixLoop fuel
            (set_mInBuffer s
               (erase (mInBuffer s) (U16_AT (mInBuffer s) + 2))) in
        (Datagram s (firstn (Z.to_nat (U16_AT (mInBuffer s)))
                            (skipn 2 (mInBuffer s))) :: t, o)
    else ([], Done (tt, s)).
Proof.
  cbn [Session.lengthPrefixLoop]. unfold bind at 1, get.
  destruct (2 <=? size (mInBuffer s)); [|reflexivity].
  destruct (size (mInBuffer s) <? U16_AT (mInBuffer s) + 2); [reflexivity|].
  unfold bind, emit, modify. cbn.
  destruct (Session.lengthPrefixLoop fuel _) as [t o]. reflexivity.
Qed.

(** A frame at the head of the buffer is what the loop takes next. *)
Lemma frame_head (p buf : list byte) :
  size p <= 65535 ->
  2 <= size (frame p ++ buf)
  /\ U16_AT (frame p ++ buf) = size p
  /\ firstn (Z.to_nat (size p)) (skipn 2 (frame p ++ buf)) = p
  /\ erase (frame p ++ buf) (size p + 2) = buf.
Proof.
  intros Hp. pose proof (size_nonneg p) as Hn. pose proof (size_nonneg buf).
  unfold frame. rewrite <- app_assoc.
  repeat split.
  - rewrite !size_app. change (size (prefix (size p))) with 2. lia.
  - apply U16_AT_prefix. lia.
  - cbn [prefix app skipn]. unfold size. rewrite Nat2Z.id.
    now rewrite firstn_app, firstn_all, Nat.sub_diag, firstn_0, app_nil_r.
  - unfold erase, size.
    replace (Z.to_nat (Z.of_nat (length p) + 2)) with (S (S (length p))) by lia.
    cbn [prefix app skipn].
    now rewrite skipn_app, skipn_all, Nat.sub_diag.
Qed.

Lemma Frames_loop (buf : list byte) (ps : list (list byte)) (rest : list byte) :
  Frames buf ps rest ->
  forall (s : Session) (fuel : nat),
    mInBuffer s = buf -> (length buf < fuel)%nat ->
    Session.lengthPrefixLoop fuel s =
      (map (Datagram s) ps, Done (tt, set_mInBuffer s rest)).
Proof.
  induction 1 as [buf Hinc|p buf ps rest Hp HF IH]; intros s fuel Hbuf Hfuel.
  - destruct fuel as [|fuel]; [lia|]. subst buf.
    rewrite lengthPrefixLoop_S, set_mInBuffer_same.
    destruct Hinc as [H|H].
    + replace (2 <=? size (mInBuffer s)) with false
        by (symmetry; apply Z.leb_gt; lia).
      reflexivity.
    + replace (size (mInBuffer s) <? U16_AT (mInBuffer s) + 2) with true
        by (symmetry; apply Z.ltb_lt; lia).
      now destruct (2 <=? size (mInBuffer s)).
  - destruct fuel as [|fuel]; [lia|]. rewrite lengthPrefixLoop_S, Hbuf.
    destruct (frame_head p buf Hp) as (H2 & HU & Hpkt & Herase).
    rewrite HU, Hpkt, Herase.
    replace (2 <=? size (frame p ++ buf)) with true
      by (symmetry; apply Z.leb_le; lia).
    replace (size (frame p ++ buf) <? size p + 2) with false
      by (symmetry; apply Z.ltb_ge; rewrite size_app, size_frame;
          pose proof (size_nonneg buf); lia).
    rewrite (IH (set_mInBuffer s buf) fuel eq_refl).
    + reflexivity.
    + rewrite length_app in Hfuel. unfold frame in Hfuel.
      rewrite length_app in Hfuel. cbn in Hfuel. lia.
Qed.

Lemma Frames_left (buf : list byte) (ps : list (list byte)) (rest : list byte) :
  Frames buf ps rest -> incomplete rest.
Proof. induction 1; trivial. Qed.





(** Every buffer decodes. *)
Lemma Frames_total (buf : list byte) : exists ps rest, Frames buf ps rest.
Proof.
  remember (length buf) as n eqn:Hn.
  revert buf Hn. induction n as [n IH] using lt_wf_ind. intros buf Hn.
  destruct (Z_lt_ge_dec (size buf) 2) as [Hs|Hs].
  { exists [], buf. constructor. now left. }
  destruct (Z_lt_ge_dec (size buf) (U16_AT buf + 2)) as [Hu|Hu].
  { exists [], buf. constructor. now right. }
  destruct buf as [|b0 [|b1 body]]; try (cbn in Hs; lia).
  pose proof (U16_AT_range (b0 :: b1 :: body)) as Hr.
  set (k := U16_AT (b0 :: b1 :: body)) in *.
  assert (size body >= k) as Hk.
  { unfold size in *. cbn [length] in Hu. lia. }
  set (p := firstn (Z.to_nat k) body).
  assert (size p = k) as Hp.
  { unfold p, size in *. rewrite length_firstn. lia. }
  destruct (IH (length (skipn (Z.to_nat k) body))) with (buf := skipn (Z.to_nat k) body)
    as (ps & rest & HF); trivial.
  { subst n. rewrite length_skipn. cbn [length]. lia. }
  exists (p :: ps), rest.
  replace (b0 :: b1 :: body) with (frame p ++ skipn (Z.to_nat k) body).
  - constructor; trivial. lia.
  - unfold frame. rewrite Hp. unfold k. rewrite prefix_U16_AT.
    cbn [app]. unfold p. now rewrite firstn_skipn.
Qed.



(** [readMore] on a stream of length-prefixed datagrams: the [recv], the
    decoding loop, then the report of a failed [recv]. *)
Lemma readMore_length_prefix (io : Session.IO) (fuel : nat) (s : Session) :
  mState s <> DATAGRAM -> mIsRTSPConnection s = false ->
  Session.readMore io fuel s =
    let r := fst (Session.io_recv io) in
    let err := recv_status r in
    let s1 := if 0 <? rv r
              then set_mInBuffer s (mInBuffer s ++ received io) else s in
    match Session.lengthPrefixLoop fuel s1 with
    | (t, Done (_, s2)) =>
        if err =? OK then (t, Done (OK, s2))
        else (t ++ [Error s2 false err "Recv failed."],
              Done (err, set_mSawReceiveFailure s2 true))
    | (t, CheckFailed) => (t, CheckFailed)
    | (t, OutOfRange) => (t, OutOfRange)
    | (t, OutOfFuel) => (t, OutOfFuel)
    end.
Proof.
  intros Hst Hrtsp. unfold Session.readMore, received, recv_status.
  unfold bind at 1, get.
  replace (State_eqb (mState s) DATAGRAM) with false
    by (destruct (mState s); trivial; contradiction).
  rewrite Hrtsp. destruct (Session.io_recv io) as [r tmp]. cbn [fst snd negb].
  destruct (0 <? rv r).
  - unfold bind, modify, ret, append. cbn.
    destruct (Session.lengthPrefixLoop fuel _) as [t [[[] s2]| | |]]; cbn;
      now rewrite ?app_nil_r.
  - destruct (rv r <? 0).
    + unfold bind, modify, ret, Session.notifyError, get, emit, Error. cbn.
      destruct (Session.lengthPrefixLoop fuel s) as [t [[[] s2]| | |]]; cbn;
        trivial.
      destruct (Z.eqb_spec (- errno r) OK) as [E|E]; cbn;
        now rewrite ?E, ?app_nil_r.
    + unfold bind, modify, ret, Session.notifyError, get, emit, Error. cbn.
      destruct (Session.lengthPrefixLoop fuel s) as [t [[[] s2]| | |]]; cbn;
        trivial.
Qed.


Lemma set_mInBuffer_twice (s : Session) (a b : AString) :
  set_mInBuffer (set_mInBuffer s a) b = set_mInBuffer s b.
Proof. reflexivity. Qed.


Lemma recv_status_OK (r : sysret) : 0 < rv r -> recv_status r = OK.
Proof.
  intros H. unfold recv_status.
  now replace (0 <? rv r) with true by (symmetry; apply Z.ltb_lt; lia).
Qed.




End LengthPrefix.



(** ** The RTP time stamp on egress *)

Section Stamp.
Context {P : Platform}.

Lemma wrap_s64_small (z : Z) : 0 <= z <= INT64_MAX -> wrap_s64 z = z.
Proof.
  unfold wrap_s64, wrap_signed, INT64_MAX. intros H.
  rewrite Z.mod_small; lia.
Qed.

(** Inside the range of the clock the 64-bit product does not wrap, and the
    stamp is the quotient the specification writes. *)
Lemma rtpTime_spec (nowUs : Z) :
  0 <= nowUs -> nowUs * 9 <= INT64_MAX ->
  Session.rtpTime nowUs = (nowUs * 9 / 100) mod 2 ^ 32.
Proof.
  intros H0 H1. unfold Session.rtpTime, to_u32.
  rewrite wrap_s64_small by lia. rewrite Z.quot_div_nonneg by lia. reflexivity.
Qed.

Lemma stamp_bytes (t : Z) :
  [to_u8 (Z.shiftr t 24); to_u8 (Z.land (Z.shiftr t 16) 255);
   to_u8 (Z.land (Z.shiftr t 8) 255); to_u8 (Z.land t 255)] = be32 t.
Proof.
  unfold be32. rewrite !to_u8_land, !Z.shiftr_div_pow2 by lia. reflexivity.
Qed.

(** What [stamp] hands to [send], for the datagrams it can index. *)
Lemma stamp_on_wire (nowUs : Z) (d : ABuffer) :
  well_sized d -> 0 <= nowUs -> nowUs * 9 <= INT64_MAX ->
  Session.stamp nowUs d = Done (on_wire nowUs d).
Proof.
  intros (H1 & H2 & H8) H0 Hmax. unfold on_wire, is_rtp33 in *.
  unfold Session.stamp, data_at.
  change (Z.to_nat 0) with 0%nat. change (Z.to_nat 1) with 1%nat.
  change (Z.to_nat 4) with 4%nat. change (Z.to_nat 5) with 5%nat.
  change (Z.to_nat 6) with 6%nat. change (Z.to_nat 7) with 7%nat.
  destruct d as [|d0 d]; [cbn in H1; lia|].
  cbn [nth_error obind nth] in *.
  destruct (Z.eqb_spec (u8 d0) 128) as [E|E]; [|reflexivity].
  destruct d as [|d1 d]; [specialize (H2 E); cbn in H2; lia|].
  cbn [nth_error obind nth andb] in *.
  destruct (Z.land (u8 d1) 127 =? 33); [|reflexivity].
  specialize (H8 eq_refl).
  destruct d as [|d2 [|d3 [|d4 [|d5 [|d6 [|d7 d]]]]]];
    try (cbn in H8; lia).
  cbn [nth_error obind data_set firstn skipn app].
  rewrite <- rtpTime_spec by trivial.
  now rewrite <- stamp_bytes.
Qed.

(** [writeMore] on a datagram session: the loop over the queue, then the
    report of a failed [send]. *)
Lemma writeMore_datagram (io : Session.IO) (s : Session) :
  mState s = DATAGRAM -> mOutDatagrams s <> [] ->
  Session.writeMore io s =
    match Session.sendDatagrams io (mSocket s) 0 (mOutDatagrams s) with
    | (t, Done (err, queue)) =>
        let err := if err =? - EAGAIN then OK else err in
        if err =? OK then (t, Done (err, set_mOutDatagrams s queue))
        else (t ++ [Error s true err "Send datagram failed."],
              Done (err, set_mSawSendFailure (set_mOutDatagrams s queue) true))
    | (t, CheckFailed) => (t, CheckFailed)
    | (t, OutOfRange) => (t, OutOfRange)
    | (t, OutOfFuel) => (t, OutOfFuel)
    end.
Proof.
  intros Hst Hq. unfold Session.writeMore. unfold bind at 1, get.
  rewrite Hst. cbn [State_eqb].
  destruct (mOutDatagrams s) as [|d q] eqn:Eq; [contradiction|].
  unfold bind, CHECK, ret, Session.notifyError, get, emit, modify, Error,
    Session.drainDatagrams.
  cbn [is_empty negb]. rewrite Eq.
  destruct (Session.sendDatagrams io (mSocket s) 0 (d :: q))
    as [t [[err q']| | |]]; cbn; trivial.
  destruct (negb _) eqn:E; cbn.
  - apply negb_true_iff in E. rewrite E. now rewrite ?app_nil_r.
  - apply negb_false_iff in E. rewrite E. now rewrite ?app_nil_r.
Qed.

(** The loop calls [send] on a prefix of the queue, each datagram as the
    specification puts it on the wire. *)
Lemma sendDatagrams_wire (io : Session.IO) (sock : Z) (queue : list ABuffer) :
  forall k : nat,
    queue <> [] -> Forall well_sized queue ->
    (forall k, 0 <= Session.io_now io k
               /\ Session.io_now io k * 9 <= INT64_MAX) ->
    exists (m : nat) (err : status_t) (left : list ABuffer),
      (1 <= m <= length queue)%nat
      /\ Session.sendDatagrams io sock k queue =
           (firstn m (wire io sock k queue), Done (err, left)).
Proof.
  induction queue as [|d queue IH]; intros k Hne Hws Hclock; [contradiction|].
  inversion Hws as [|? ? Hd Hws']; subst.
  cbn [Session.sendDatagrams wire].
  rewrite stamp_on_wire by (trivial; apply Hclock).
  destruct (0 <? rv (Session.io_send io k)).
  - destruct queue as [|d' queue].
    + exists 1%nat, OK, []. cbn. split; [lia|reflexivity].
    + destruct (IH (S k)) as (m & err & left & Hm & E); trivial; [discriminate|].
      rewrite E. exists (S m), err, left. cbn [length] in *. split; [lia|].
      reflexivity.
  - destruct (rv (Session.io_send io k) <? 0).
    + eexists 1%nat, _, _. cbn [length firstn]. split; [lia|reflexivity].
    + eexists 1%nat, _, _. cbn [length firstn]. split; [lia|reflexivity].
Qed.

(** C2: in a pass of [writeMore] over the queue of a datagram session, every
    [send] is handed its datagram as [on_wire] writes it at the clock reading
    of that turn: bytes 4 to 7 hold the big-endian encoding of
    [(now_us * 9) / 100 mod 2^32] when byte 0 is [0x80] and byte 1 has 33 in
    its low seven bits, and all bytes are unchanged otherwise.  The clock is
    in the range where the 64-bit product is exact, and the datagrams are as
    large as the bytes the rewrite touches. *)
Theorem rtp_egress_stamp (io : Session.IO) (s : Session) :
  mState s = DATAGRAM -> mOutDatagrams s <> [] ->
  Forall well_sized (mOutDatagrams s) ->
  (forall k, 0 <= Session.io_now io k
             /\ Session.io_now io k * 9 <= INT64_MAX) ->
  exists (m : nat) (report : list event),
    (1 <= m <= length (mOutDatagrams s))%nat
    /\ fst (Session.writeMore io s) =
         firstn m (wire io (mSocket s) 0 (mOutDatagrams s)) ++ report
    /\ (report = []
        \/ exists err, report = [Error s true err "Send datagram failed."]).
Proof.
  intros Hst Hne Hws Hclock. rewrite writeMore_datagram by trivial.
  destruct (sendDatagrams_wire io (mSocket s) _ 0%nat Hne Hws Hclock)
    as (m & err & left & Hm & E).
  rewrite E. cbn zeta.
  match goal with
  | |- context [if ?c =? OK then (_, _) else _] => destruct (c =? OK)
  end.
  - exists m, []. rewrite app_nil_r. cbn [fst]. split; [trivial|]. split; auto.
  - exists m. eexists. split; [trivial|]. cbn [fst]. split; [reflexivity|].
    right. eexists. reflexivity.
Qed.

(** ** The sizes the rewrite takes for granted *)

Lemma stamp_in_range (nowUs : Z) (d : ABuffer) :
  well_sized d -> exists d', Session.stamp nowUs d = Done d'.
Proof.
  intros (H1 & H2 & H8). unfold is_rtp33 in *.
  unfold Session.stamp, data_at.
  change (Z.to_nat 0) with 0%nat. change (Z.to_nat 1) with 1%nat.
  change (Z.to_nat 4) with 4%nat. change (Z.to_nat 5) with 5%nat.
  change (Z.to_nat 6) with 6%nat. change (Z.to_nat 7) with 7%nat.
  destruct d as [|d0 d]; [cbn in H1; lia|].
  cbn [nth_error obind nth] in *.
  destruct (Z.eqb_spec (u8 d0) 128) as [E|E]; [|now eexists].
  destruct d as [|d1 d]; [specialize (H2 E); cbn in H2; lia|].
  cbn [nth_error obind nth andb] in *.
  destruct (Z.land (u8 d1) 127 =? 33); [|now eexists].
  specialize (H8 eq_refl).
  destruct d as [|d2 [|d3 [|d4 [|d5 [|d6 [|d7 d]]]]]];
    try (cbn in H8; lia).
  cbn [nth_error obind data_set]. now eexists.
Qed.

Lemma stamp_out_of_range (nowUs : Z) (d : ABuffer) :
  ~ well_sized d -> Session.stamp nowUs d = OutOfRange.
Proof.
  intros H. unfold well_sized, is_rtp33 in H.
  unfold Session.stamp, data_at.
  change (Z.to_nat 0) with 0%nat. change (Z.to_nat 1) with 1%nat.
  change (Z.to_nat 4) with 4%nat. change (Z.to_nat 5) with 5%nat.
  change (Z.to_nat 6) with 6%nat. change (Z.to_nat 7) with 7%nat.
  destruct d as [|d0 d]; [reflexivity|].
  cbn [nth_error obind nth] in *.
  destruct (Z.eqb_spec (u8 d0) 128) as [E|E].
  2:{ exfalso. apply H. unfold size. cbn [length andb].
      repeat split; try lia; discriminate. }
  destruct d as [|d1 d]; [reflexivity|].
  cbn [nth_error obind nth andb] in *.
  destruct (Z.land (u8 d1) 127 =? 33).
  2:{ exfalso. apply H. unfold size. cbn [length].
      repeat split; try lia; discriminate. }
  destruct d as [|d2 [|d3 [|d4 [|d5 [|d6 [|d7 d]]]]]]; try reflexivity.
  exfalso. apply H. unfold size. cbn [length]. repeat split; lia.
Qed.

Lemma sendDatagrams_in_range (io : Session.IO) (sock : Z) (queue : list ABuffer) :
  forall k : nat,
    queue <> [] -> Forall well_sized queue ->
    exists t err left,
      Session.sendDatagrams io sock k queue = (t, Done (err, left)).
Proof.
  induction queue as [|d queue IH]; intros k Hne Hws; [contradiction|].
  inversion Hws as [|? ? Hd Hws']; subst.
  cbn [Session.sendDatagrams].
  destruct (stamp_in_range (Session.io_now io k) d Hd) as [d' ->].
  destruct (0 <? rv (Session.io_send io k)).
  - destruct queue as [|d2 queue]; [now eexists _, _, _|].
    destruct (IH (S k)) as (t & err & left & ->); trivial; [discriminate|].
    now eexists _, _, _.
  - destruct (rv (Session.io_send io k) <? 0); now eexists _, _, _.
Qed.

(** A pass ends in a result when each datagram it reaches is
    [well_sized]. *)
Lemma sendDatagrams_reached_in_range (io : Session.IO) (sock : Z)
    (queue : list ABuffer) :
  forall k : nat,
    queue <> [] ->
    (forall j : nat,
        (j < length queue)%nat ->
        (forall i, (i < j)%nat -> 0 < rv (Session.io_send io (k + i))) ->
        well_sized (nth j queue [])) ->
    exists t err left,
      Session.sendDatagrams io sock k queue = (t, Done (err, left)).
Proof.
  induction queue as [|d queue IH]; intros k Hne Hws; [contradiction|].
  cbn [Session.sendDatagrams].
  destruct (stamp_in_range (Session.io_now io k) d) as [d' ->].
  { apply (Hws 0%nat); [cbn; lia|]. intros i Hi. lia. }
  destruct (Z.ltb_spec 0 (rv (Session.io_send io k))) as [Hpos|Hle].
  - destruct queue as [|d2 queue]; [now eexists _, _, _|].
    destruct (IH (S k)) as (t & err & left & ->); [discriminate| |].
    + intros j Hj Hreach. apply (Hws (S j)); [cbn [length] in *; lia|].
      intros [|i] Hi; [now rewrite Nat.add_0_r|].
      replace (k + S i)%nat with (S k + i)%nat by lia. apply Hreach. lia.
    + now eexists _, _, _.
  - destruct (rv (Session.io_send io k) <? 0); now eexists _, _, _.
Qed.

(** A pass stops out of range at the first datagram it reaches that is not
    [well_sized], behind the [send]s of the datagrams before it. *)
Lemma sendDatagrams_reached_out_of_range (io : Session.IO) (sock : Z) (j : nat) :
  forall (queue : list ABuffer) (k : nat),
    (j < length queue)%nat ->
    (forall i, (i < j)%nat -> 0 < rv (Session.io_send io (k + i))) ->
    (forall i, (i < j)%nat -> well_sized (nth i queue [])) ->
    ~ well_sized (nth j queue []) ->
    exists t,
      Session.sendDatagrams io sock k queue = (t, OutOfRange)
      /\ length t = j
      /\ Forall (fun ev => exists data, ev = Send sock data) t.
Proof.
  induction j as [|j IH]; intros queue k Hlen Hpos Hws Hbad;
    (destruct queue as [|d queue]; [cbn in Hlen; lia|]);
    cbn [Session.sendDatagrams].
  - cbn [nth] in Hbad. rewrite stamp_out_of_range by trivial.
    exists []. repeat split. constructor.
  - destruct (stamp_in_range (Session.io_now io k) d) as [d' ->].
    { exact (Hws 0%nat ltac:(lia)). }
    replace (0 <? rv (Session.io_send io k)) with true
      by (symmetry; apply Z.ltb_lt; specialize (Hpos 0%nat);
          rewrite Nat.add_0_r in Hpos; apply Hpos; lia).
    destruct queue as [|d2 queue]; [cbn in Hlen; lia|].
    destruct (IH (d2 :: queue) (S k)) as (t & E & Ht & Hsends).
    + cbn [length] in *. lia.
    + intros i Hi. replace (S k + i)%nat with (k + S i)%nat by lia.
      apply Hpos. lia.
    + intros i Hi. exact (Hws (S i) ltac:(lia)).
    + exact Hbad.
    + rewrite E. exists (Send sock d' :: t). repeat split.
      * cbn [length]. now rewrite Ht.
      * constructor; [now eexists|exact Hsends].
Qed.

(** C9, as the code has it: [sendRequest] on a datagram session takes a
    payload of any size from zero on, and refuses a negative size; the
    rewrite check of [writeMore] reads byte 0 of a datagram, byte 1 only
    when byte 0 is [0x80], and bytes 4 to 7 when the pattern matches, and
    checks no size.  So the indexing of a datagram is out of range exactly
    when the datagram is not [well_sized].  A pass of [writeMore] reaches a
    datagram of the queue when every [send] before it took its datagram:
    the pass ends in a result when every datagram it reaches is
    [well_sized], and it stops out of range at the first one that is not,
    behind the [send]s of the datagrams before it -- at once when that
    datagram is the head of the queue. *)
Theorem writeMore_datagram_sizes (io : Session.IO) (s : Session) :
  mState s = DATAGRAM ->
  (forall data n,
      Session.sendRequest data n s =
        if 0 <=? n
        then ([], Done (OK, set_mOutDatagrams s
                              (mOutDatagrams s ++ [firstn (Z.to_nat n) data])))
        else ([], CheckFailed))
  /\ (forall data,
        Session.sendRequest data (size data) s =
          ([], Done (OK, set_mOutDatagrams s (mOutDatagrams s ++ [data]))))
  /\ (forall nowUs d,
        Session.stamp nowUs d = OutOfRange <-> ~ well_sized d)
  /\ (mOutDatagrams s <> [] ->
      (forall j, (j < length (mOutDatagrams s))%nat -> reached io j ->
                 well_sized (nth j (mOutDatagrams s) [])) ->
      exists t err s', Session.writeMore io s = (t, Done (err, s')))
  /\ (forall j,
        (j < length (mOutDatagrams s))%nat -> reached io j ->
        (forall i, (i < j)%nat -> well_sized (nth i (mOutDatagrams s) [])) ->
        ~ well_sized (nth j (mOutDatagrams s) []) ->
        exists t,
          Session.writeMore io s = (t, OutOfRange)
          /\ length t = j
          /\ Forall (fun ev => exists data, ev = Send (mSocket s) data) t)
  /\ (forall d queue,
        mOutDatagrams s = d :: queue -> ~ well_sized d ->
        Session.writeMore io s = ([], OutOfRange)).
Proof.
  intros Hst.
  assert (forall data n,
             Session.sendRequest data n s =
               if 0 <=? n
               then ([], Done (OK, set_mOutDatagrams s
                        (mOutDatagrams s ++ [firstn (Z.to_nat n) data])))
               else ([], CheckFailed)) as Hsend.
  { intros data n. unfold Session.sendRequest, bind, get, CHECK, modify, ret,
      lift.
    rewrite Hst. cbn [State_eqb orb]. now destruct (0 <=? n). }
  split; [exact Hsend|]. split; [|split; [|split; [|split]]].
  - intros data. rewrite Hsend.
    replace (0 <=? size data) with true
      by (symmetry; apply Z.leb_le; apply size_nonneg).
    now rewrite firstn_size.
  - intros nowUs d. split.
    + intros E Hws. destruct (stamp_in_range nowUs d Hws) as [d' E'].
      congruence.
    + apply stamp_out_of_range.
  - intros Hne Hws. rewrite writeMore_datagram by trivial.
    destruct (sendDatagrams_reached_in_range io (mSocket s) _ 0%nat Hne)
      as (t & err & left & ->).
    { intros j Hj Hreach. now apply Hws. }
    cbn zeta. match goal with
    | |- context [if ?c =? OK then (_, _) else _] => destruct (c =? OK)
    end; now eexists _, _, _.
  - intros j Hj Hreach Hws Hbad.
    assert (mOutDatagrams s <> []) as Hne
      by (destruct (mOutDatagrams s); [cbn in Hj; lia|discriminate]).
    rewrite writeMore_datagram by trivial.
    destruct (sendDatagrams_reached_out_of_range io (mSocket s) j
                (mOutDatagrams s) 0%nat Hj Hreach Hws Hbad)
      as (t & -> & Ht & Hsends).
    now exists t.
  - intros d queue Eq Hd. rewrite writeMore_datagram by (trivial; congruence).
    rewrite Eq. cbn [Session.sendDatagrams].
    now rewrite stamp_out_of_range.
Qed.

End Stamp.

(** Scenario 5 of the specification: the datagram
    [80 21 00 01 00 00 00 00 DE AD BE EF], sent one second after the clock's
    origin, leaves with 90000 in bytes 4 to 7; the datagram behind it does
    not match and leaves as it is. *)
Example rtp_stamp_scenario :
  let s := set_mOutDatagrams (Reference.session 3 DATAGRAM false)
             [[x80; x21; x00; x01; x00; x00; x00; x00; xde; xad; xbe; xef];
              [x80; x60; x00; x02; x00; x00; x00; x00]] in
  Session.writeMore (Reference.io [] 12 1000000) s =
    ([Send 7 [x80; x21; x00; x01; x00; x01; x5f; x90; xde; xad; xbe; xef];
      Send 7 [x80; x60; x00; x02; x00; x00; x00; x00]],
     Done (OK, set_mOutDatagrams s [])).
Proof. vm_compute. reflexivity. Qed.

Lemma rtp_egress_stamp_witness :
  let s := set_mOutDatagrams (Reference.session 3 DATAGRAM false)
             [[x80; x21; x00; x01; x00; x00; x00; x00; xde; xad; xbe; xef];
              [x80; x60; x00; x02; x00; x00; x00; x00]] in
  let io := Reference.io [] 12 1000000 in
  exists (m : nat) (report : list event),
    (1 <= m <= length (mOutDatagrams s))%nat
    /\ fst (Session.writeMore io s) =
         firstn m (wire io (mSocket s) 0 (mOutDatagrams s)) ++ report
    /\ (report = []
        \/ exists err, report = [Error s true err "Send datagram failed."]).
Proof.
  intros s io. apply (rtp_egress_stamp io s).
  - reflexivity.
  - discriminate.
  - repeat constructor; cbn; intros; lia.
  - intros k. cbn. unfold INT64_MAX. lia.
Defined.

(** A datagram of one byte that is not [0x80] is shorter than two bytes, is
    accepted by [sendRequest], and goes through [writeMore] with no index
    out of range: the test of byte 1 is not reached. *)
Lemma writeMore_one_byte_datagram :
  let s0 := Reference.session 3 DATAGRAM false in
  let s := set_mOutDatagrams s0 [[x00]] in
  size [x00] < 2
  /\ Session.sendRequest [x00] 1 s0 = ([], Done (OK, s))
  /\ Session.writeMore (Reference.io [] 1 0) s =
       ([Send 7 [x00]], Done (OK, set_mOutDatagrams s [])).
Proof. vm_compute. repeat split. Qed.

(** A datagram of one byte is sent; the pass then reaches a datagram of
    three bytes that matches the pattern, and stops out of range. *)
Lemma writeMore_datagram_sizes_witness :
  let s := set_mOutDatagrams (Reference.session 3 DATAGRAM false)
             [[x00]; [x80; x21; x00]] in
  Session.sendRequest [] 0 s =
    ([], Done (OK, set_mOutDatagrams s [[x00]; [x80; x21; x00]; []]))
  /\ Session.writeMore (Reference.io [] 1 0) s = ([Send 7 [x00]], OutOfRange)
  /\ Session.writeMore (Reference.io [] 1 0)
       (set_mOutDatagrams s [[x80; x21; x00]]) = ([], OutOfRange).
Proof.
  intros s.
  assert (~ well_sized [x80; x21; x00]) as Hbad.
  { intros (_ & _ & H8). specialize (H8 eq_refl). cbn in H8. lia. }
  destruct (writeMore_datagram_sizes (Reference.io [] 1 0) s eq_refl)
    as (_ & Hsend & _ & _ & Hreached & _).
  destruct (writeMore_datagram_sizes
              (Reference.io [] 1 0) (set_mOutDatagrams s [[x80; x21; x00]])
              eq_refl) as (_ & _ & _ & _ & _ & Hhead).
  split; [exact (Hsend [])|]. split.
  - destruct (Hreached 1%nat) as (t & E & Ht & Hsends).
    + cbn. lia.
    + intros i Hi. cbn. lia.
    + intros [|i] Hi; [|lia]. cbn [nth].
      repeat split; cbn; (lia || discriminate).
    + exact Hbad.
    + reflexivity.
  - exact (Hhead [x80; x21; x00] [] eq_refl Hbad).
Defined.

(** ** Completion of a connect *)

Section Connecting.
Context {P : Platform}.

(** [writeMore] in state [CONNECTING]. *)
Lemma writeMore_connecting (io : Session.IO) (s : Session) (err : Z) :
  mState s = CONNECTING ->
  Session.io_getsockopt io = (0, 4, err) ->
  Session.writeMore io s =
    if err =? 0 then
      ([Post (mNotify s)
             {| sessionID := mSessionID s; reason := kWhatConnected;
                fields := NoFields |}],
       Done (OK, set_mState s CONNECTED))
    else
      ([Error s (negb (reason_value kWhatError =? 0)) (- err)
              "Connection failed"],
       Done (- err, set_mSawSendFailure s true)).
Proof.
  intros Hst Hio. unfold Session.writeMore. unfold bind at 1, get.
  rewrite Hst, Hio. cbn [State_eqb].
  unfold bind, CHECK, ret, modify, Session.notifyError, Session.notify,
    get, emit, Error.
  cbn. destruct (err =? 0); reflexivity.
Qed.

End Connecting.

(** C5, at a connect that was refused: [writeMore] reads [SO_ERROR = 111];
    the session stays in [CONNECTING] with its send-failure flag set, and the
    Error notification carries [-111], but its [send] field is [false]: the
    source passes the enumerator [kWhatError], which is zero, where
    [notifyError] takes the flag. *)
Theorem connect_refused_send_flag :
  let s := Reference.session 1 CONNECTING true in
  let io :=
    {| Session.io_recv := ({| rv := 0; errno := 0 |}, []);
       Session.io_recvfrom :=
         fun _ => ({| rv := -1; errno := EAGAIN |}, [],
                   {| sin_addr := 0; sin_port := 0 |});
       Session.io_send := fun _ => {| rv := 0; errno := 0 |};
       Session.io_now := fun _ => 0;
       Session.io_getsockopt := (0, 4, ECONNREFUSED) |} in
  Session.writeMore io s =
    ([Post (mNotify s)
           {| sessionID := 1; reason := kWhatError;
              fields := ErrorFields false (- ECONNREFUSED)
                                    "Connection failed" |}],
     Done (- ECONNREFUSED, set_mSawSendFailure s true))
  /\ mState (set_mSawSendFailure s true) = CONNECTING
  /\ Session.wantsToWrite (set_mSawSendFailure s true) = false.
Proof. vm_compute. repeat split. Qed.

(** With [SO_ERROR = 0] the session becomes [CONNECTED] and a Connected
    notification is posted. *)
Example connect_completed :
  let s := Reference.session 1 CONNECTING true in
  Session.writeMore (Reference.io [] 0 0) s =
    ([Post (mNotify s)
           {| sessionID := 1; reason := kWhatConnected; fields := NoFields |}],
     Done (OK, set_mState s CONNECTED)).
Proof. vm_compute. reflexivity. Qed.

(** ** The decoding loop of an RTSP stream *)

Section RTSP.
Context {P : Platform}.

Lemma rtspLoop_S (io : Session.IO) (err : status_t) (fuel k : nat) (s : Session) :
  Session.rtspLoop io err (S fuel) k s =
    let buf := mInBuffer s in
    if (0 <? size buf) && Strings.Byte.eqb (c_str_at buf 0) x24 then
      if size buf <? 4 then ([], Done (tt, s))
      else if size buf <? 4 + U16_AT (skipn 2 buf) then ([], Done (tt, s))
      else
        let (t, o) :=
          Session.rtspLoop io err fuel (S k)
            (set_mInBuffer s (erase buf (4 + U16_AT (skipn 2 buf)))) in
        (BinaryData s (c_str_at buf 1)
                    (firstn (Z.to_nat (U16_AT (skipn 2 buf))) (skipn 4 buf))
                    (Session.io_now io k) :: t, o)
    else
      match Parse buf (negb (err =? OK)) with
      | None => ([], Done (tt, s))
      | Some (msg, length) =>
          let s' :=
            set_mInBuffer s (erase buf (Session.idr_length msg buf length)) in
          if negb (err =? OK) then ([Data s msg], Done (tt, s'))
          else
            let (t, o) := Session.rtspLoop io err fuel (S k) s' in
            (Data s msg :: t, o)
      end.
Proof.
  cbn [Session.rtspLoop]. unfold bind at 1, get. cbn zeta.
  destruct ((0 <? size (mInBuffer s))
            && Strings.Byte.eqb (c_str_at (mInBuffer s) 0) x24).
  - destruct (size (mInBuffer s) <? 4); [reflexivity|].
    destruct (size (mInBuffer s) <? 4 + U16_AT (skipn 2 (mInBuffer s)));
      [reflexivity|].
    unfold bind, emit, modify. cbn.
    destruct (Session.rtspLoop io err fuel (S k) _) as [t o]. reflexivity.
  - destruct (Parse (mInBuffer s) (negb (err =? OK))) as [[msg length]|];
      [|reflexivity].
    unfold bind, emit, modify, ret. cbn.
    destruct (negb (err =? OK)); [reflexivity|].
    destruct (Session.rtspLoop io err fuel (S k) _) as [t o]. reflexivity.
Qed.

Lemma bytes_eqb_refl (a : list byte) : bytes_eqb a a = true.
Proof.
  induction a as [|x a IH]; trivial. cbn.
  rewrite IH, andb_true_r. now apply Strings.Byte.byte_dec_lb.
Qed.

(** [memcmp] finds the literal in a content that begins with it. *)
Lemma memcmp_eq_begins (content : list byte) :
  firstn 17 content = Session.wfd_idr_request ->
  Session.memcmp_eq content Session.wfd_idr_request 17 = true
  /\ 17 <= size content.
Proof.
  intros H. assert (17 <= length content)%nat as Hlen.
  { apply (f_equal (@length byte)) in H. rewrite length_firstn in H.
    change (length Session.wfd_idr_request) with 17%nat in H. lia. }
  split; [|unfold size; lia].
  unfold Session.memcmp_eq. rewrite firstn_app.
  replace (17 - length content)%nat with 0%nat by lia.
  rewrite firstn_0, app_nil_r, H. apply bytes_eqb_refl.
Qed.

(** C4: when the parser hands back a message whose content begins with the
    17 bytes ["wfd_idr_request\r\n"], and the buffer holds ['\r'] at position
    [length] and ['\n'] at [length + 1] ([length] being what the parser
    reports it took), the loop posts the message, erases [length + 2] bytes
    and goes on decoding from there.  The parser's [length] counts the
    content and a line end of the header before it. *)
Theorem wfd_idr_request_quirk
    (io : Session.IO) (err : status_t) (fuel k : nat) (s : Session)
    (msg : ParsedMessage) (length : Z) (content : list byte) :
  c_str_at (mInBuffer s) 0 <> x24 ->
  Parse (mInBuffer s) (negb (err =? OK)) = Some (msg, length) ->
  getContent msg = Some content ->
  firstn 17 content = Session.wfd_idr_request ->
  size content + 2 <= length ->
  c_str_at (mInBuffer s) length = x0d ->
  c_str_at (mInBuffer s) (length + 1) = x0a ->
  Session.rtspLoop io err (S fuel) k s =
    let s' := set_mInBuffer s (erase (mInBuffer s) (length + 2)) in
    if err =? OK then
      let (t, o) := Session.rtspLoop io err fuel (S k) s' in
      (Data s msg :: t, o)
    else ([Data s msg], Done (tt, s')).
Proof.
  intros Hdollar Hparse Hcontent Hbegins Hlen Hcr Hlf.
  destruct (memcmp_eq_begins content Hbegins) as [Hcmp H17].
  rewrite rtspLoop_S. cbn zeta.
  replace (Strings.Byte.eqb (c_str_at (mInBuffer s) 0) x24) with false.
  2:{ symmetry. destruct (Strings.Byte.eqb _ x24) eqn:E; trivial.
      now apply Strings.Byte.byte_dec_bl in E. }
  rewrite andb_false_r, Hparse.
  unfold Session.idr_length. rewrite Hcontent, Hcmp, Hcr, Hlf.
  replace (19 <=? length) with true by (symmetry; apply Z.leb_le; lia).
  cbn [andb Strings.Byte.eqb]. 
  change (Strings.Byte.eqb x0d x0d) with true.
  change (Strings.Byte.eqb x0a x0a) with true. cbn [andb].
  now destruct (err =? OK).
Qed.

(** ** A failed recv *)

Lemma readMore_rtsp (io : Session.IO) (fuel : nat) (s : Session) :
  mState s <> DATAGRAM -> mIsRTSPConnection s = true ->
  Session.readMore io fuel s =
    let r := fst (Session.io_recv io) in
    let err := recv_status r in
    let s1 := if 0 <? rv r
              then set_mInBuffer s (mInBuffer s ++ received io) else s in
    match Session.rtspLoop io err fuel 0 s1 with
    | (t, Done (_, s2)) =>
        if err =? OK then (t, Done (OK, s2))
        else (t ++ [Error s2 false err "Recv failed."],
              Done (err, set_mSawReceiveFailure s2 true))
    | (t, CheckFailed) => (t, CheckFailed)
    | (t, OutOfRange) => (t, OutOfRange)
    | (t, OutOfFuel) => (t, OutOfFuel)
    end.
Proof.
  intros Hst Hrtsp. unfold Session.readMore, received, recv_status.
  unfold bind at 1, get.
  replace (State_eqb (mState s) DATAGRAM) with false
    by (destruct (mState s); trivial; contradiction).
  rewrite Hrtsp. destruct (Session.io_recv io) as [r tmp]. cbn [fst snd negb].
  destruct (0 <? rv r).
  - unfold bind, modify, ret, append. cbn.
    destruct (Session.rtspLoop io OK fuel 0 _) as [t [[[] s2]| | |]]; cbn;
      now rewrite ?app_nil_r.
  - destruct (rv r <? 0).
    + unfold bind, modify, ret, Session.notifyError, get, emit, Error. cbn.
      destruct (Session.rtspLoop io _ fuel 0 s) as [t [[[] s2]| | |]]; cbn;
        trivial.
      destruct (Z.eqb_spec (- errno r) OK) as [E|E]; cbn;
        now rewrite ?E, ?app_nil_r.
    + unfold bind, modify, ret, Session.notifyError, get, emit, Error. cbn.
      destruct (Session.rtspLoop io _ fuel 0 s) as [t [[[] s2]| | |]]; cbn;
        trivial.
Qed.

Lemma dollar_test (buf : list byte) :
  (0 <? size buf) && Strings.Byte.eqb (c_str_at buf 0) x24 =
  Strings.Byte.eqb (c_str_at buf 0) x24.
Proof. destruct buf as [|b buf]; trivial. Qed.

Lemma size_interleaved (channel : byte) (p : list byte) :
  size (interleaved channel p) = 4 + size p.
Proof. unfold interleaved, size. cbn [length prefix app]. lia. Qed.

(** A binary frame at the head of the buffer is what the loop takes next. *)
Lemma interleaved_head (channel : byte) (p buf : list byte) :
  size p <= 65535 ->
  let b := interleaved channel p ++ buf in
  c_str_at b 0 = x24
  /\ c_str_at b 1 = channel
  /\ U16_AT (skipn 2 b) = size p
  /\ firstn (Z.to_nat (size p)) (skipn 4 b) = p
  /\ erase b (4 + size p) = buf.
Proof.
  intros Hp b. pose proof (size_nonneg p) as Hn.
  unfold b, interleaved. repeat split.
  - cbn [app skipn]. rewrite <- app_assoc. apply U16_AT_prefix. lia.
  - cbn [prefix app skipn]. unfold size. rewrite Nat2Z.id.
    now rewrite firstn_app, firstn_all, Nat.sub_diag, firstn_0, app_nil_r.
  - unfold erase, size.
    replace (Z.to_nat (4 + Z.of_nat (length p)))
      with (S (S (S (S (length p))))) by lia.
    cbn [prefix app skipn].
    now rewrite skipn_app, skipn_all, Nat.sub_diag.
Qed.

Lemma BinaryData_set_mInBuffer (s : Session) (buf : AString) :
  BinaryData (set_mInBuffer s buf) = BinaryData s.
Proof. reflexivity. Qed.

Lemma binary_events_set_mInBuffer (s : Session) (buf : AString)
    (io : Session.IO) (fs : list (byte * list byte)) :
  forall k, binary_events (set_mInBuffer s buf) io k fs = binary_events s io k fs.
Proof.
  induction fs as [|[c p] fs IH]; intros k; trivial.
  cbn [binary_events]. now rewrite IH.
Qed.

(** After a failed [recv] the loop posts the binary frames the buffer starts
    with, then at most one parsed message. *)
Lemma Binary_loop (buf : list byte) (fs : list (byte * list byte))
    (rest : list byte) :
  Binary buf fs rest ->
  forall (io : Session.IO) (err : status_t) (s : Session) (fuel k : nat),
    err <> OK -> mInBuffer s = buf -> (length buf < fuel)%nat ->
    Session.rtspLoop io err fuel k s =
      (binary_events s io k fs
       ++ match last_message rest with
          | Some (msg, _) => [Data s msg]
          | None => []
          end,
       Done (tt,
             match last_message rest with
             | Some (msg, length) =>
                 set_mInBuffer s (erase rest (Session.idr_length msg rest length))
             | None => set_mInBuffer s rest
             end)).
Proof.
  induction 1 as [buf Hno|channel p buf fs rest Hp HB IH];
    intros io err s fuel k Herr Hbuf Hfuel.
  - destruct fuel as [|fuel]; [lia|]. subst buf.
    rewrite rtspLoop_S. cbn zeta. rewrite dollar_test.
    unfold last_message. cbn [binary_events app].
    replace (negb (err =? OK)) with true
      by (symmetry; apply negb_true_iff; now apply Z.eqb_neq).
    destruct (Strings.Byte.eqb (c_str_at (mInBuffer s) 0) x24) eqn:E.
    + rewrite set_mInBuffer_same.
      destruct Hno as [H|[H|H]].
      * now apply Strings.Byte.byte_dec_bl in E.
      * now replace (size (mInBuffer s) <? 4) with true
          by (symmetry; apply Z.ltb_lt; lia).
      * replace (size (mInBuffer s) <? 4 + U16_AT (skipn 2 (mInBuffer s)))
          with true by (symmetry; apply Z.ltb_lt; lia).
        now destruct (size (mInBuffer s) <? 4).
    + destruct (Parse (mInBuffer s) true) as [[msg length]|]; trivial.
      now rewrite set_mInBuffer_same.
  - destruct fuel as [|fuel]; [lia|].
    rewrite rtspLoop_S, Hbuf. cbn zeta. rewrite dollar_test.
    destruct (interleaved_head channel p buf Hp) as (H0 & H1 & HU & Hpkt & Her).
    rewrite H0, H1, HU, Hpkt, Her.
    change (Strings.Byte.eqb x24 x24) with true. cbn iota.
    pose proof (size_nonneg p). pose proof (size_nonneg buf).
    replace (size (interleaved channel p ++ buf) <? 4) with false
      by (symmetry; apply Z.ltb_ge; rewrite size_app, size_interleaved; lia).
    replace (size (interleaved channel p ++ buf) <? 4 + size p) with false
      by (symmetry; apply Z.ltb_ge; rewrite size_app, size_interleaved; lia).
    rewrite (IH io err (set_mInBuffer s buf) fuel (S k)); trivial.
    + rewrite binary_events_set_mInBuffer. cbn [binary_events app].
      destruct (last_message rest) as [[msg length]|]; reflexivity.
    + rewrite length_app in Hfuel. unfold interleaved in Hfuel.
      cbn [length app prefix] in Hfuel. lia.
Qed.

(** Every buffer splits into the binary frames it starts with and a rest. *)
Lemma Binary_total (buf : list byte) : exists fs rest, Binary buf fs rest.
Proof.
  remember (length buf) as n eqn:Hn.
  revert buf Hn. induction n as [n IH] using lt_wf_ind. intros buf Hn.
  destruct (Strings.Byte.byte_eq_dec (c_str_at buf 0) x24) as [H0|H0].
  2:{ exists [], buf. constructor. now left. }
  destruct (Z_lt_ge_dec (size buf) 4) as [H4|H4].
  { exists [], buf. constructor. right. now left. }
  destruct (Z_lt_ge_dec (size buf) (4 + U16_AT (skipn 2 buf))) as [Hu|Hu].
  { exists [], buf. constructor. right. now right. }
  destruct buf as [|b0 [|channel [|l0 [|l1 body]]]]; try (cbn in H4; lia).
  cbn in H0. subst b0. cbn [skipn] in Hu.
  pose proof (U16_AT_range (l0 :: l1 :: body)) as Hr.
  set (k := U16_AT (l0 :: l1 :: body)) in *.
  assert (size body >= k) as Hk.
  { unfold size in *. cbn [length] in Hu. lia. }
  set (p := firstn (Z.to_nat k) body).
  assert (size p = k) as Hp.
  { unfold p, size in *. rewrite length_firstn. lia. }
  destruct (IH (length (skipn (Z.to_nat k) body)))
    with (buf := skipn (Z.to_nat k) body) as (fs & rest & HB); trivial.
  { subst n. rewrite length_skipn. cbn [length]. lia. }
  exists ((channel, p) :: fs), rest.
  replace (x24 :: channel :: l0 :: l1 :: body)
    with (interleaved channel p ++ skipn (Z.to_nat k) body).
  - constructor; trivial. lia.
  - unfold interleaved. rewrite Hp. unfold k. rewrite prefix_U16_AT.
    cbn [app]. unfold p. now rewrite firstn_skipn.
Qed.

Lemma recv_status_failed (r : sysret) :
  rv r <= 0 -> (rv r < 0 -> 0 < errno r) ->
  recv_status r <> OK
  /\ recv_status r = (if rv r <? 0 then - errno r else - ECONNRESET).
Proof.
  intros H0 He. unfold recv_status, OK, ECONNRESET.
  replace (0 <? rv r) with false by (symmetry; apply Z.ltb_ge; lia).
  split; trivial.
  destruct (Z.ltb_spec (rv r) 0) as [H|H]; [specialize (He H)|]; lia.
Qed.

(** C10: when the [recv] of a stream session fails or returns zero bytes,
    [readMore] first posts what its decoding loop finds in the buffer -- on a
    session that is not an RTSP connection every whole length-prefixed
    frame; on an RTSP connection the binary frames the buffer starts with
    and then at most one parsed message -- and after these the Error
    notification with [send = false]; it sets the receive-failure flag and
    returns the error. *)
Theorem readMore_failure_order (io : Session.IO) (fuel : nat) (s : Session) :
  mState s <> DATAGRAM ->
  rv (fst (Session.io_recv io)) <= 0 ->
  (rv (fst (Session.io_recv io)) < 0 -> 0 < errno (fst (Session.io_recv io))) ->
  (length (mInBuffer s) < fuel)%nat ->
  exists (decoded : list event) (s' : Session),
    let err := recv_status (fst (Session.io_recv io)) in
    Session.readMore io fuel s =
      (decoded ++ [Error s false err "Recv failed."], Done (err, s'))
    /\ err <> OK
    /\ mSawReceiveFailure s' = true
    /\ (mIsRTSPConnection s = false ->
        exists ps rest,
          Frames (mInBuffer s) ps rest
          /\ decoded = map (Datagram s) ps
          /\ mInBuffer s' = rest)
    /\ (mIsRTSPConnection s = true ->
        exists fs rest,
          Binary (mInBuffer s) fs rest
          /\ decoded = binary_events s io 0 fs
                       ++ match last_message rest with
                          | Some (msg, _) => [Data s msg]
                          | None => []
                          end).
Proof.
  intros Hst Hrv Herrno Hfuel.
  destruct (recv_status_failed _ Hrv Herrno) as [Herr _].
  destruct (mIsRTSPConnection s) eqn:Hrtsp.
  - destruct (Binary_total (mInBuffer s)) as (fs & rest & HB).
    rewrite readMore_rtsp by trivial. cbn zeta.
    replace (0 <? rv (fst (Session.io_recv io))) with false
      by (symmetry; apply Z.ltb_ge; lia).
    rewrite (Binary_loop _ _ _ HB) by trivial.
    replace (recv_status (fst (Session.io_recv io)) =? OK) with false
      by (symmetry; now apply Z.eqb_neq).
    destruct (last_message rest) as [[msg length]|] eqn:El;
      (eexists _, _; split; [reflexivity|];
       split; [exact Herr|]; split; [reflexivity|];
       split; [discriminate|]; intros _; exists fs, rest;
       split; [exact HB|]; now rewrite El).
  - destruct (Frames_total (mInBuffer s)) as (ps & rest & HF).
    rewrite readMore_length_prefix by trivial. cbn zeta.
    replace (0 <? rv (fst (Session.io_recv io))) with false
      by (symmetry; apply Z.ltb_ge; lia).
    rewrite (Frames_loop _ _ _ HF) by trivial.
    replace (recv_status (fst (Session.io_recv io)) =? OK) with false
      by (symmetry; now apply Z.eqb_neq).
    eexists _, _. split; [|split; [exact Herr|split; [|split]]].
    + reflexivity.
    + reflexivity.
    + intros _. now exists ps, rest.
    + discriminate.
Qed.

End RTSP.

(** Scenario 3 of the specification: the parser takes 96 bytes for the
    request, the loop erases 98, and the next request is decoded from its
    first byte. *)
Lemma wfd_idr_request_quirk_witness :
  let s := set_mInBuffer (Reference.session 4 CONNECTED true)
                         Reference.idr_stream in
  let io := Reference.io [] 0 0 in
  let msg := (Reference.idr_headers, Session.wfd_idr_request) in
  Session.rtspLoop io OK 3 0 s =
    let s' := set_mInBuffer s (erase (mInBuffer s) (96 + 2)) in
    let (t, o) := Session.rtspLoop io OK 2 1 s' in
    (Data s msg :: t, o).
Proof.
  intros s io msg.
  apply (wfd_idr_request_quirk io OK 2 0 s msg 96 Session.wfd_idr_request).
  - vm_compute. discriminate.
  - vm_compute. reflexivity.
  - reflexivity.
  - reflexivity.
  - vm_compute. discriminate.
  - vm_compute. reflexivity.
  - vm_compute. reflexivity.
Defined.

Example idr_scenario :
  let s := Reference.session 4 CONNECTED true in
  Session.readMore (Reference.io Reference.idr_stream 0 0) 3 s =
    ([Data s (Reference.idr_headers, Session.wfd_idr_request);
      Data s (Reference.options_headers, [])],
     Done (OK, s)).
Proof. vm_compute. reflexivity. Qed.

(** The peer closes an RTSP connection whose buffer holds a binary frame and
    a request: the frame and the request are posted, then the error. *)
Example closed_connection_scenario :
  let s := set_mInBuffer (Reference.session 4 CONNECTED true)
             (interleaved x00 [x41; x42; x43; x44]
              ++ Reference.options_headers
              ++ Reference.CRLF ++ Reference.CRLF) in
  Session.readMore (Reference.io [] 0 5) 40 s =
    ([BinaryData s x00 [x41; x42; x43; x44] 5;
      Data s (Reference.options_headers, []);
      Error s false (- ECONNRESET) "Recv failed."],
     Done (- ECONNRESET,
           set_mSawReceiveFailure (set_mInBuffer s []) true)).
Proof. vm_compute. reflexivity. Qed.

Lemma readMore_failure_order_witness :
  let s := set_mInBuffer (Reference.session 4 CONNECTED true)
             (interleaved x00 [x41; x42; x43; x44]
              ++ Reference.options_headers
              ++ Reference.CRLF ++ Reference.CRLF) in
  let io := Reference.io [] 0 5 in
  exists (decoded : list event) (s' : Session),
    Session.readMore io 40 s =
      (decoded ++ [Error s false (- ECONNRESET) "Recv failed."],
       Done (- ECONNRESET, s'))
    /\ mSawReceiveFailure s' = true.
Proof.
  intros s io.
  destruct (readMore_failure_order io 40 s) as (decoded & s' & H & _ & Hf & _).
  - discriminate.
  - cbn. lia.
  - cbn. lia.
  - vm_compute. lia.
  - exists decoded, s'. split; [exact H|exact Hf].
Defined.

(** ** KeyedVector *)

Section KeyedVectorFacts.
Context {V : Type}.
Implicit Types (v : KeyedVector.t V) (key : Z) (item : V).

Lemma find_nth v key (i : nat) :
  KeyedVector.find v key = Some i ->
  exists item, nth_error v i = Some (key, item).
Proof.
  revert i. induction v as [|[k x] v IH]; intros i; cbn; [discriminate|].
  destruct (Z.eqb_spec k key) as [->|Hne].
  - intros [= <-]. now exists x.
  - destruct (KeyedVector.find v key) as [j|]; [|discriminate].
    intros [= <-]. now apply IH.
Qed.

Lemma find_None v key :
  KeyedVector.find v key = None <-> ~ In key (KeyedVector.keys v).
Proof.
  induction v as [|[k x] v IH]; cbn; [tauto|].
  destruct (Z.eqb_spec k key) as [->|Hne].
  - split; [discriminate|]. intros H. exfalso. apply H. now left.
  - destruct (KeyedVector.find v key) as [j|]; cbn.
    + split; [discriminate|]. intros H. exfalso.
      destruct IH as [_ IH]. assert (Some j = None) by (apply IH; tauto).
      discriminate.
    + split; trivial. intros _ [H|H]; [contradiction|]. now apply IH.
Qed.

Lemma indexOfKey_absent v key :
  ~ In key (KeyedVector.keys v) ->
  (KeyedVector.indexOfKey v key <? 0) = true.
Proof.
  intros H. unfold KeyedVector.indexOfKey.
  now replace (KeyedVector.find v key) with (@None nat)
    by (symmetry; now apply find_None).
Qed.

Lemma indexOfKey_present v key :
  In key (KeyedVector.keys v) ->
  exists (i : nat) item,
    KeyedVector.find v key = Some i
    /\ (KeyedVector.indexOfKey v key <? 0) = false
    /\ Z.to_nat (KeyedVector.indexOfKey v key) = i
    /\ KeyedVector.valueAt v i = Some item.
Proof.
  intros H. unfold KeyedVector.indexOfKey, KeyedVector.valueAt.
  destruct (KeyedVector.find v key) as [i|] eqn:E.
  - destruct (find_nth v key i E) as [item Hn]. exists i, item.
    rewrite Hn. repeat split; [apply Z.ltb_ge|]; lia.
  - apply find_None in E. contradiction.
Qed.


Lemma keys_add v key item (k : Z) :
  In k (KeyedVector.keys (KeyedVector.add v key item))
  <-> k = key \/ In k (KeyedVector.keys v).
Proof.
  induction v as [|[k' x] v IH]; cbn.
  - intuition.
  - destruct (Z.ltb_spec key k'); cbn; [intuition|].
    destruct (Z.eqb_spec key k'); cbn; [subst; intuition|].
    rewrite IH. intuition.
Qed.




(** In a sorted vector a key occurs once: removed, it is gone. *)
Lemma removed_absent v key (i : nat) :
  KeyedVector.sorted v -> KeyedVector.find v key = Some i ->
  ~ In key (KeyedVector.keys (KeyedVector.removeItemsAt v i)).
Proof.
  unfold KeyedVector.sorted. revert i.
  induction v as [|[k x] v IH]; intros i H; cbn; [discriminate|].
  inversion H as [|? ? Hs Hall]; subst.
  destruct (Z.eqb_spec k key) as [->|Hne].
  - intros [= <-]. cbn. rewrite Forall_forall in Hall.
    intros Hin. specialize (Hall _ Hin). lia.
  - destruct (KeyedVector.find v key) as [j|] eqn:E; [|discriminate].
    intros [= <-]. cbn. intros [Hk|Hk]; [contradiction|].
    now apply (IH j Hs eq_refl).
Qed.

End KeyedVectorFacts.

(** ** The control API *)

Section ControlAPI.
Context {P : Platform}.

Implicit Types e : ANetworkSession.t.

Lemma destroySession_absent e (id : Z) :
  ~ In id (KeyedVector.keys (ANetworkSession.mSessions e)) ->
  ANetworkSession.destroySession id e = ([Lock; Unlock], Done (- ENOENT, e)).
Proof.
  intros H. unfold ANetworkSession.destroySession, ANetworkSession.Autolock.
  unfold bind, emit, get, ret. cbn.
  now rewrite indexOfKey_absent.
Qed.

Lemma destroySession_present e (id : Z) :
  In id (KeyedVector.keys (ANetworkSession.mSessions e)) ->
  exists (i : nat) (session : Session),
    KeyedVector.find (ANetworkSession.mSessions e) id = Some i
    /\ KeyedVector.valueAt (ANetworkSession.mSessions e) i = Some session
    /\ ANetworkSession.destroySession id e =
         ([Lock; Close (mSocket session); wake e; Unlock],
          Done (OK, ANetworkSession.set_mSessions e
                      (KeyedVector.removeItemsAt (ANetworkSession.mSessions e) i))).
Proof.
  intros H.
  destruct (indexOfKey_present _ _ H) as (i & session & Hf & Hlt & Hi & Hv).
  exists i, session. repeat split; trivial.
  unfold ANetworkSession.destroySession, ANetworkSession.Autolock,
    ANetworkSession.interrupt, ANetworkSession.sessionAt.
  unfold bind, emit, get, put, ret. cbn.
  rewrite Hlt, Hi. cbn. rewrite Hv. reflexivity.
Qed.

Lemma sendRequest_absent e (id : Z) (data : list byte) (n : Z) :
  ~ In id (KeyedVector.keys (ANetworkSession.mSessions e)) ->
  ANetworkSession.sendRequest id data n e =
    ([Lock; Unlock], Done (- ENOENT, e)).
Proof.
  intros H. unfold ANetworkSession.sendRequest, ANetworkSession.Autolock.
  unfold bind, emit, get, ret. cbn.
  now rewrite indexOfKey_absent.
Qed.

(** [Session::sendRequest] posts nothing and sends nothing. *)
Lemma Session_sendRequest_silent (data : list byte) (n : Z) (s : Session) :
  fst (Session.sendRequest data n s) = [].
Proof.
  unfold Session.sendRequest, bind, get, CHECK, modify, ret, lift.
  destruct (State_eqb (mState s) CONNECTED || State_eqb (mState s) DATAGRAM);
    cbn; trivial.
  destruct (State_eqb (mState s) DATAGRAM); cbn.
  - destruct (0 <=? n); reflexivity.
  - destruct (State_eqb (mState s) CONNECTED && negb (mIsRTSPConnection s));
      cbn; trivial.
    destruct (n <=? 65535); reflexivity.
Qed.

Lemma sendRequest_present e (id : Z) (data : list byte) (n : Z) :
  In id (KeyedVector.keys (ANetworkSession.mSessions e)) ->
  exists (i : nat) (session : Session),
    KeyedVector.find (ANetworkSession.mSessions e) id = Some i
    /\ KeyedVector.valueAt (ANetworkSession.mSessions e) i = Some session
    /\ ANetworkSession.sendRequest id data n e =
         match snd (Session.sendRequest data n session) with
         | Done (err, session') =>
             ([Lock; wake e; Unlock],
              Done (err, ANetworkSession.set_mSessions e
                           (KeyedVector.setValueAt (ANetworkSession.mSessions e) i session')))
         | CheckFailed => ([Lock], CheckFailed)
         | OutOfRange => ([Lock], OutOfRange)
         | OutOfFuel => ([Lock], OutOfFuel)
         end.
Proof.
  intros H.
  destruct (indexOfKey_present _ _ H) as (i & session & Hf & Hlt & Hi & Hv).
  exists i, session. repeat split; trivial.
  unfold ANetworkSession.sendRequest, ANetworkSession.Autolock,
    ANetworkSession.interrupt, ANetworkSession.onSession.
  unfold bind, emit, get, put, ret. cbn -[Session.sendRequest].
  rewrite Hlt, Hi. cbn -[Session.sendRequest]. rewrite Hv.
  pose proof (Session_sendRequest_silent data n session) as Hs.
  destruct (Session.sendRequest data n session) as [t [[err s']| | |]];
    cbn in Hs; subst t; reflexivity.
Qed.

(** [connectUDPSession] takes the lock and leaves the engine as it is. *)
Lemma connectUDPSession_trace (ent : option Z) (h_errno : Z) (c : sysret)
    (id : Z) (host : string) (port : Z) e :
  exists err,
    ANetworkSession.connectUDPSession ent h_errno c id host port e =
      ([Lock; Unlock], Done (err, e)).
Proof.
  unfold ANetworkSession.connectUDPSession, ANetworkSession.Autolock.
  unfold bind, emit, get, ret. cbn.
  destruct (_ <? 0); cbn; [now eexists|].
  destruct ent; [destruct (rv c <? 0)|]; cbn; now eexists.
Qed.

Lemma createClientOrServer_spec (io : ANetworkSession.SetupIO)
    (mode : ANetworkSession.Mode) (localAddr : option Z) (port : Z)
    (remoteHost : option string) (remotePort : Z) (notify : AMessage) e :
  ANetworkSession.createClientOrServer io mode localAddr port
                                       remoteHost remotePort notify e =
    let s := ANetworkSession.su_socket io in
    if rv s <? 0 then ([Lock; Unlock], Done ((- errno s, 0), e))
    else
      match ANetworkSession.configure io mode remoteHost with
      | Done err =>
          if err =? OK then
            let id := ANetworkSession.mNextSessionID e in
            ([Lock; wake e; Unlock],
             Done ((OK, id),
                   {| ANetworkSession.mNextSessionID := wrap_s32 (id + 1);
                      ANetworkSession.mSessions :=
                        KeyedVector.add (ANetworkSession.mSessions e) id
                                        (created mode id (rv s) notify);
                      ANetworkSession.mPipeFd := ANetworkSession.mPipeFd e |}))
          else ([Lock; Close (rv s); Unlock], Done ((err, 0), e))
      | CheckFailed => ([Lock], CheckFailed)
      | OutOfRange => ([Lock], OutOfRange)
      | OutOfFuel => ([Lock], OutOfFuel)
      end.
Proof.
  unfold ANetworkSession.createClientOrServer, ANetworkSession.Autolock.
  cbn zeta. unfold bind at 1 2, emit. cbn [app].
  destruct (rv (ANetworkSession.su_socket io) <? 0); [reflexivity|].
  unfold bind at 1, lift.
  destruct (ANetworkSession.configure io mode remoteHost) as [err| | |];
    cbn [obind]; trivial.
  destruct (err =? OK); cbn [negb].
  - unfold ANetworkSession.nextSessionID, ANetworkSession.construct,
      ANetworkSession.interrupt, Session.new, wake, created.
    unfold bind, get, put, emit, ret, modify.
    destruct mode; reflexivity.
  - reflexivity.
Qed.

(** C3, as the code has it: a creation that inserts a session, a
    [sendRequest] and a [destroySession] on a known identifier take the
    engine's mutex, change the engine, write one byte into the wake pipe and
    release the mutex; [connectUDPSession] takes the mutex and never writes
    into the pipe; a call that changes nothing -- the socket could not be
    set up, the identifier is not known -- returns without writing into
    it. *)
Theorem control_api_wake e :
  (forall io mode localAddr port remoteHost remotePort notify t status id e',
      ANetworkSession.createClientOrServer io mode localAddr port
        remoteHost remotePort notify e = (t, Done ((status, id), e')) ->
      (t = [Lock; wake e; Unlock] /\ status = OK
       /\ id = ANetworkSession.mNextSessionID e
       /\ In id (KeyedVector.keys (ANetworkSession.mSessions e')))
      \/ (e' = e /\ id = 0
          /\ (t = [Lock; Unlock] \/ exists s, t = [Lock; Close s; Unlock])))
  /\ (forall id data n t err e',
        In id (KeyedVector.keys (ANetworkSession.mSessions e)) ->
        ANetworkSession.sendRequest id data n e = (t, Done (err, e')) ->
        t = [Lock; wake e; Unlock])
  /\ (forall id,
        In id (KeyedVector.keys (ANetworkSession.mSessions e)) ->
        exists s i,
          ANetworkSession.destroySession id e =
            ([Lock; Close s; wake e; Unlock],
             Done (OK, ANetworkSession.set_mSessions e
                         (KeyedVector.removeItemsAt
                            (ANetworkSession.mSessions e) i))))
  /\ (forall id data n,
        ~ In id (KeyedVector.keys (ANetworkSession.mSessions e)) ->
        ANetworkSession.destroySession id e =
          ([Lock; Unlock], Done (- ENOENT, e))
        /\ ANetworkSession.sendRequest id data n e =
             ([Lock; Unlock], Done (- ENOENT, e)))
  /\ (forall ent h_errno c id host port,
        exists err,
          ANetworkSession.connectUDPSession ent h_errno c id host port e =
            ([Lock; Unlock], Done (err, e))).
Proof.
  split; [|split; [|split; [|split]]].
  - intros io mode la port rh rp notify t status id e' H.
    rewrite createClientOrServer_spec in H. cbn zeta in H.
    destruct (rv (ANetworkSession.su_socket io) <? 0).
    { injection H as <- <- <- <-. right. auto. }
    destruct (ANetworkSession.configure io mode rh) as [err| | |];
      try discriminate.
    destruct (err =? OK).
    + injection H as <- <- <- <-. left. repeat split; trivial.
      cbn. apply keys_add. now left.
    + injection H as <- <- <- <-. right. repeat split; trivial.
      right. now eexists.
  - intros id data n t err e' Hin H.
    destruct (sendRequest_present e id data n Hin) as (i & session & _ & _ & E).
    rewrite E in H.
    destruct (snd (Session.sendRequest data n session)) as [[err' s']| | |];
      try discriminate.
    now injection H as <- _ _.
  - intros id Hin.
    destruct (destroySession_present e id Hin) as (i & session & _ & _ & E).
    now exists (mSocket session), i.
  - intros id data n Hin. split.
    + now apply destroySession_absent.
    + now apply sendRequest_absent.
  - intros. apply connectUDPSession_trace.
Qed.

(** C7: for an identifier that is not a key of the session map,
    [destroySession] and [sendRequest] return [-ENOENT] at once and leave the
    engine as it was; and after a [destroySession] that succeeded, the
    identifier is no key of the map, so that a second [destroySession] on it
    returns [-ENOENT]. *)
Theorem unknown_session_id e (id : Z) :
  KeyedVector.sorted (ANetworkSession.mSessions e) ->
  (~ In id (KeyedVector.keys (ANetworkSession.mSessions e)) ->
   ANetworkSession.destroySession id e = ([Lock; Unlock], Done (- ENOENT, e))
   /\ forall data n,
        ANetworkSession.sendRequest id data n e =
          ([Lock; Unlock], Done (- ENOENT, e)))
  /\ (forall t e',
        ANetworkSession.destroySession id e = (t, Done (OK, e')) ->
        ~ In id (KeyedVector.keys (ANetworkSession.mSessions e'))
        /\ ANetworkSession.destroySession id e' =
             ([Lock; Unlock], Done (- ENOENT, e'))).
Proof.
  intros Hsorted. split.
  - intros Hin. split; [now apply destroySession_absent|].
    intros data n. now apply sendRequest_absent.
  - intros t e' H.
    assert (~ In id (KeyedVector.keys (ANetworkSession.mSessions e'))) as Hout.
    { destruct (in_dec Z.eq_dec id
                  (KeyedVector.keys (ANetworkSession.mSessions e))) as [Hin|Hin].
      - destruct (destroySession_present e id Hin) as (i & session & Hf & _ & E).
        rewrite E in H. injection H as _ <-. cbn.
        now apply removed_absent.
      - rewrite destroySession_absent in H by trivial.
        now injection H as _ _ <-. }
    split; [exact Hout|now apply destroySession_absent].
Qed.

End ControlAPI.

(** On the engine with the UDP session 1: the first [destroySession] closes
    the socket and wakes the loop, the second one finds nothing; so does a
    [sendRequest] for an identifier never issued. *)
Lemma unknown_session_id_witness :
  let e := Reference.udp_engine in
  let e' := ANetworkSession.set_mSessions e [] in
  ANetworkSession.destroySession 1 e =
    ([Lock; Close 7; wake e; Unlock], Done (OK, e'))
  /\ ANetworkSession.destroySession 1 e' = ([Lock; Unlock], Done (- ENOENT, e'))
  /\ ANetworkSession.sendRequest 5 [x41] 1 e =
       ([Lock; Unlock], Done (- ENOENT, e)).
Proof.
  intros e e'.
  assert (KeyedVector.sorted (ANetworkSession.mSessions e)) as Hsorted
    by (repeat constructor).
  destruct (unknown_session_id e 1 Hsorted) as [_ Htwice].
  destruct (unknown_session_id e 5 Hsorted) as [Habsent _].
  split; [reflexivity|]. split.
  - apply (Htwice [Lock; Close 7; wake e; Unlock] e'). reflexivity.
  - apply Habsent. cbn. intros [H|[]]. discriminate.
Defined.

(** [connectUDPSession] on a known session connects the socket and returns
    [OK] without a write into the wake pipe. *)
Lemma connectUDPSession_no_wake :
  let e := Reference.udp_engine in
  ANetworkSession.connectUDPSession
    (Some 2130706433) 0 {| rv := 0; errno := 0 |} 1 "localhost" 5004 e =
    ([Lock; Unlock], Done (OK, e))
  /\ ~ In (wake e) [Lock; Unlock].
Proof.
  split; [reflexivity|]. cbn. intros [H|[H|[]]]; discriminate.
Qed.

(** The other calls of the control API on that engine. *)
Example control_api_scenario :
  let e := Reference.udp_engine in
  fst (ANetworkSession.sendRequest 1 [x41] 1 e) = [Lock; wake e; Unlock]
  /\ fst (ANetworkSession.destroySession 1 e) =
       [Lock; Close 7; wake e; Unlock]
  /\ fst (ANetworkSession.createUDPSession (Reference.setup 8) 5004 None 0
                                           Reference.template e) =
       [Lock; wake e; Unlock].
Proof. repeat split. Qed.

(** ** What a trace announces *)

Section Quiet.
Context {P : Platform}.

(** A method that posts no ClientConnected notification. *)
Definition quiet {St A : Type} (m : M St A) : Prop :=
  forall s, accepted (fst (m s)) = [].

Lemma accepted_app (t t' : list event) :
  accepted (t ++ t') = accepted t ++ accepted t'.
Proof. apply flat_map_app. Qed.

Lemma quiet_ret {St A : Type} (a : A) : quiet (@ret P St A a).
Proof. intros s. reflexivity. Qed.

Lemma quiet_get {St : Type} : quiet (@get P St).
Proof. intros s. reflexivity. Qed.

Lemma quiet_put {St : Type} (s0 : St) : quiet (put s0).
Proof. intros s. reflexivity. Qed.

Lemma quiet_modify {St : Type} (f : St -> St) : quiet (modify f).
Proof. intros s. reflexivity. Qed.

Lemma quiet_lift {St A : Type} (o : outcome A) : quiet (@lift P St A o).
Proof. intros s. reflexivity. Qed.

Lemma quiet_CHECK {St : Type} (b : bool) : quiet (@CHECK P St b).
Proof. intros s. now destruct b. Qed.

Lemma quiet_emit {St : Type} (ev : event) :
  accepted [ev] = [] -> quiet (@emit P St ev).
Proof. intros H s. exact H. Qed.

Lemma quiet_bind {St A B : Type} (m : M St A) (f : A -> M St B) :
  quiet m -> (forall a, quiet (f a)) -> quiet (bind m f).
Proof.
  intros Hm Hf s. unfold bind. specialize (Hm s).
  destruct (m s) as [t [[a s']| | |]]; cbn [fst] in *; trivial.
  specialize (Hf a s'). destruct (f a s') as [t' o]. cbn [fst] in *.
  now rewrite accepted_app, Hm, Hf.
Qed.

End Quiet.

Ltac quiet :=
  repeat first
    [ apply quiet_ret | apply quiet_get | apply quiet_put | apply quiet_modify
    | apply quiet_lift | apply quiet_CHECK
    | apply quiet_emit; reflexivity
    | apply quiet_bind; [|intros]
    | match goal with
      | |- quiet (if ?c then _ else _) => destruct c
      | |- quiet (match ?x with _ => _ end) => destruct x
      end ].

Section QuietSession.
Context {P : Platform}.









End QuietSession.

(** ** Session identifiers *)

Section Identifiers.
Context {P : Platform}.
Implicit Types e : ANetworkSession.t.

Lemma wrap_s32_range (z : Z) : in_range (wrap_s32 z).
Proof.
  unfold in_range, wrap_s32, wrap_signed, INT32_MAX.
  pose proof (Z.mod_pos_bound (z + 2 ^ (32 - 1)) (2 ^ 32)).
  change (2 ^ (32 - 1)) with (2 ^ 31) in *. lia.
Qed.

Lemma wrap_s32_small (z : Z) : in_range z -> wrap_s32 z = z.
Proof.
  unfold in_range, wrap_s32, wrap_signed, INT32_MAX. intros H.
  change (2 ^ (32 - 1)) with (2 ^ 31).
  rewrite Z.mod_small; lia.
Qed.

Lemma wrap_s32_add (a b : Z) : wrap_s32 (wrap_s32 a + b) = wrap_s32 (a + b).
Proof.
  unfold wrap_s32, wrap_signed. change (2 ^ (32 - 1)) with (2 ^ 31).
  replace ((a + 2 ^ 31) mod 2 ^ 32 - 2 ^ 31 + b + 2 ^ 31)
    with ((a + 2 ^ 31) mod 2 ^ 32 + b) by lia.
  rewrite Z.add_mod_idemp_l by lia. f_equal. f_equal. lia.
Qed.

























(** ** The counter at its largest value *)

Lemma run_app (ops1 ops2 : list op) :
  forall e,
    run (ops1 ++ ops2) e =
      match run ops1 e with
      | Some (ids1, e1) =>
          match run ops2 e1 with
          | Some (ids2, e2) => Some (ids1 ++ ids2, e2)
          | None => None
          end
      | None => None
      end.
Proof.
  induction ops1 as [|o ops1 IH]; intros e; cbn [app run].
  - now destruct (run ops2 e) as [[ids2 e2]|].
  - destruct (perform o e) as [t [[ids e1]| | |]]; trivial.
    rewrite IH. destruct (run ops1 e1) as [[ids1 e1']|]; trivial.
    destruct (run ops2 e1') as [[ids2 e2]|]; trivial.
    now rewrite <- !app_assoc.
Qed.

(** Creating and destroying sessions drives the counter to any value. *)
Lemma run_churn (io : ANetworkSession.SetupIO) (notify : AMessage) (n : nat) :
  (rv (ANetworkSession.su_socket io) <? 0) = false ->
  ANetworkSession.configure io ANetworkSession.kModeCreateUDPSession None =
    Done OK ->
  forall (id : Z) (pipe : Z * Z),
    in_range id ->
    exists ids,
      run (churn io notify n id)
          {| ANetworkSession.mNextSessionID := id;
             ANetworkSession.mSessions := [];
             ANetworkSession.mPipeFd := pipe |} =
        Some (ids,
              {| ANetworkSession.mNextSessionID := wrap_s32 (id + Z.of_nat n);
                 ANetworkSession.mSessions := [];
                 ANetworkSession.mPipeFd := pipe |}).
Proof.
  intros Hsock Hconf. induction n as [|n IH]; intros id pipe Hr.
  - exists []. cbn. now rewrite Z.add_0_r, wrap_s32_small.
  - destruct (IH (wrap_s32 (id + 1)) pipe (wrap_s32_range _)) as [ids E].
    rewrite wrap_s32_add in E.
    replace (id + 1 + Z.of_nat n) with (id + Z.of_nat (S n)) in E by lia.
    set (c := created ANetworkSession.kModeCreateUDPSession id
                      (rv (ANetworkSession.su_socket io)) notify).
    set (e1 := {| ANetworkSession.mNextSessionID := wrap_s32 (id + 1);
                  ANetworkSession.mSessions := [(id, c)];
                  ANetworkSession.mPipeFd := pipe |}).
    cbn [churn run].
    assert (exists t ids1,
               perform (Create io ANetworkSession.kModeCreateUDPSession
                               None 0 None 0 notify)
                       {| ANetworkSession.mNextSessionID := id;
                          ANetworkSession.mSessions := [];
                          ANetworkSession.mPipeFd := pipe |} =
                 (t, Done (ids1, e1))) as (t1 & ids1 & ->).
    { unfold perform, bind. rewrite createClientOrServer_spec. cbn zeta.
      rewrite Hsock, Hconf. change (OK =? OK) with true. cbn iota.
      now eexists _, _. }
    assert (exists t,
               perform (Destroy id) e1 =
                 (t, Done ([], {| ANetworkSession.mNextSessionID :=
                                    wrap_s32 (id + 1);
                                  ANetworkSession.mSessions := [];
                                  ANetworkSession.mPipeFd := pipe |})))
      as (t2 & ->).
    { destruct (destroySession_present e1 id) as (i & s0 & Hf & _ & Ed).
      { now left. }
      cbn [e1 ANetworkSession.mSessions KeyedVector.find] in Hf.
      rewrite Z.eqb_refl in Hf. injection Hf as <-.
      unfold perform, bind. rewrite Ed. now eexists. }
    rewrite E. now eexists.
Qed.

End Identifiers.

(** ** What a method of a session leaves as it is *)

Section Keeps.
Context {P : Platform}.

Lemma later_refl (s : Session) : later s s.
Proof. unfold later. repeat split; auto. Qed.

Lemma later_trans (a b c : Session) : later a b -> later b c -> later a c.
Proof.
  unfold later.
  intros (H1 & H2 & H3 & H4 & H5 & H6 & H7) (K1 & K2 & K3 & K4 & K5 & K6 & K7).
  repeat split; try congruence; auto.
  destruct H5 as [H5|[H5 H5']], K5 as [K5|[K5 K5']]; try (left; congruence);
    try (right; split; congruence).
Qed.

Lemma own_later (s s' : Session) (ev : event) :
  later s s' -> own s' ev -> own s ev.
Proof.
  intros (H1 & H2 & H3 & _). destruct ev; cbn; trivial.
  - intros [-> ->]. now split.
  - intros ->. trivial.
Qed.

Lemma keeps_ret {A : Type} (s : Session) (a : A) : keeps_at s (ret a).
Proof. split; [constructor|]. intros a' s' H. injection H as _ <-. apply later_refl. Qed.

Lemma keeps_get (s : Session) : keeps_at s get.
Proof. split; [constructor|]. intros a' s' H. injection H as _ <-. apply later_refl. Qed.

Lemma keeps_lift {A : Type} (s : Session) (o : outcome A) : keeps_at s (lift o).
Proof.
  split; [constructor|]. intros a' s' H. destruct o; try discriminate.
  injection H as _ <-. apply later_refl.
Qed.

Lemma keeps_CHECK (s : Session) (b : bool) : keeps_at s (CHECK b).
Proof. destruct b; [apply keeps_ret|apply keeps_lift]. Qed.

Lemma keeps_emit (s : Session) (ev : event) : own s ev -> keeps_at s (emit ev).
Proof.
  intros H. split; [now repeat constructor|].
  intros a' s' E. injection E as _ <-. apply later_refl.
Qed.

Lemma keeps_modify (s : Session) (f : Session -> Session) :
  later s (f s) -> keeps_at s (modify f).
Proof.
  intros H. split; [constructor|]. intros a' s' E. now injection E as _ <-.
Qed.

Lemma keeps_bind {A B : Type} (s : Session) (m : M Session A)
    (f : A -> M Session B) :
  keeps_at s m ->
  (forall a s1, snd (m s) = Done (a, s1) -> keeps_at s1 (f a)) ->
  keeps_at s (bind m f).
Proof.
  intros [Ht Hs] Hf. unfold keeps_at, bind.
  destruct (m s) as [t [[a s1]| | |]]; cbn [fst snd] in *;
    try (split; [trivial|discriminate]).
  specialize (Hs a s1 eq_refl). destruct (Hf a s1 eq_refl) as [Ht' Hs'].
  destruct (f a s1) as [t' o]. cbn [fst snd] in *. split.
  - apply Forall_app. split; trivial.
    eapply Forall_impl; [|exact Ht']. intros ev. now apply own_later.
  - intros b s' E. eapply later_trans; eauto.
Qed.

Lemma CHECK_Done (b : bool) (s s' : Session) (a : unit) :
  snd (CHECK b s) = Done (a, s') -> b = true /\ s' = s.
Proof. destruct b; [|discriminate]. intros H. now injection H as _ <-. Qed.

End Keeps.

Ltac same_state H :=
  first
    [ apply CHECK_Done in H as [? ->]
    | cbn in H; try discriminate H;
      try (injection H as <- <-); try (injection H as _ <-) ].

Ltac keeps :=
  repeat first
    [ apply keeps_ret | apply keeps_get | apply keeps_lift | apply keeps_CHECK
    | apply keeps_emit; cbn; now auto
    | apply keeps_modify; unfold later; cbn; now auto 10
    | apply keeps_bind;
      [|let a := fresh "a" in let s1 := fresh "s" in let H := fresh "H" in
        intros a s1 H; try same_state H]
    | match goal with
      | |- keeps_at _ (if ?c then _ else _) => destruct c eqn:?
      | |- keeps_at _ (match ?x with _ => _ end) => destruct x eqn:?
      end ].

Section KeepsSession.
Context {P : Platform}.

Lemma keeps_notifyError (s : Session) (send : bool) (err : status_t)
    (detail : string) :
  keeps_at s (Session.notifyError send err detail).
Proof. unfold Session.notifyError. keeps. Qed.

Lemma keeps_notify (s : Session) (r : NotificationReason) :
  keeps_at s (Session.notify r).
Proof. unfold Session.notify. keeps. Qed.

Lemma keeps_sendRequest (data : list byte) (n : Z) (s : Session) :
  keeps_at s (Session.sendRequest data n).
Proof. unfold Session.sendRequest. keeps. Qed.

Lemma keeps_recvfromLoop (io : Session.IO) (fuel : nat) :
  forall k s, keeps_at s (Session.recvfromLoop io fuel k).
Proof.
  induction fuel as [|fuel IH]; intros k s; cbn [Session.recvfromLoop].
  - keeps.
  - destruct (Session.io_recvfrom io k) as [[r buf] remoteAddr]. keeps.
    apply IH.
Qed.

Lemma keeps_lengthPrefixLoop (fuel : nat) :
  forall s, keeps_at s (Session.lengthPrefixLoop fuel).
Proof.
  induction fuel as [|fuel IH]; intros s; cbn [Session.lengthPrefixLoop];
    keeps.
  apply IH.
Qed.

Lemma keeps_rtspLoop (io : Session.IO) (err : status_t) (fuel : nat) :
  forall k s, keeps_at s (Session.rtspLoop io err fuel k).
Proof.
  induction fuel as [|fuel IH]; intros k s; cbn [Session.rtspLoop];
    keeps; apply IH.
Qed.

Lemma keeps_readMore (io : Session.IO) (fuel : nat) (s : Session) :
  keeps_at s (Session.readMore io fuel).
Proof.
  unfold Session.readMore.
  destruct (Session.io_recv io) as [r tmp].
  keeps;
    auto using keeps_recvfromLoop, keeps_lengthPrefixLoop, keeps_rtspLoop,
               keeps_notifyError.
Qed.

Lemma sends_sendDatagrams (io : Session.IO) (sock : Z) (queue : list ABuffer) :
  forall k,
    Forall (fun ev => exists d, ev = Send sock d)
           (fst (Session.sendDatagrams io sock k queue)).
Proof.
  induction queue as [|d queue IH]; intros k; cbn [Session.sendDatagrams].
  - constructor.
  - destruct (Session.stamp _ d) as [data| | |]; try constructor.
    destruct (0 <? rv (Session.io_send io k)).
    + destruct queue as [|d' queue].
      * repeat constructor. now eexists.
      * specialize (IH (S k)).
        destruct (Session.sendDatagrams io sock (S k) (d' :: queue)) as [t o].
        constructor; [now eexists|exact IH].
    + destruct (rv (Session.io_send io k) <? 0); repeat constructor;
        now eexists.
Qed.

Lemma keeps_drainDatagrams (io : Session.IO) (s : Session) :
  keeps_at s (Session.drainDatagrams io).
Proof.
  unfold keeps_at, Session.drainDatagrams.
  pose proof (sends_sendDatagrams io (mSocket s) (mOutDatagrams s) 0) as H.
  destruct (Session.sendDatagrams io (mSocket s) 0 (mOutDatagrams s))
    as [t [[err q]| | |]]; cbn [fst snd] in *;
    (split; [eapply Forall_impl; [|exact H]; now intros ev [d ->]|]);
    try discriminate.
  intros a s' E. injection E as _ <-. unfold later. cbn. auto 10.
Qed.

Lemma keeps_writeMore (io : Session.IO) (s : Session) :
  keeps_at s (Session.writeMore io).
Proof.
  unfold Session.writeMore, Session.notify.
  destruct (Session.io_getsockopt io) as [[res optionLen] err].
  keeps; auto using keeps_drainDatagrams, keeps_notifyError.
  apply keeps_modify. unfold later. cbn.
  destruct (mState s); try discriminate. auto 10.
Qed.

Lemma keeps_invoke (m : method) (s : Session) : keeps_at s (invoke m).
Proof.
  destruct m; cbn [invoke];
    auto using keeps_readMore, keeps_writeMore, keeps_sendRequest.
Qed.

End KeepsSession.

(** ** The report of a failure *)

Section Failures.
Context {P : Platform}.

(** [readMore] on a datagram session: the loop over [recvfrom], then the
    report of a failure other than [EAGAIN]. *)
Lemma readMore_datagram (io : Session.IO) (fuel : nat) (s : Session) :
  mState s = DATAGRAM ->
  Session.readMore io fuel s =
    match Session.recvfromLoop io fuel 0 s with
    | (t, Done (err, s2)) =>
        let err := if err =? - EAGAIN then OK else err in
        if err =? OK then (t, Done (err, s2))
        else (t ++ [Error s2 false err "Recvfrom failed."],
              Done (err, set_mSawReceiveFailure s2 true))
    | (t, CheckFailed) => (t, CheckFailed)
    | (t, OutOfRange) => (t, OutOfRange)
    | (t, OutOfFuel) => (t, OutOfFuel)
    end.
Proof.
  intros Hst. unfold Session.readMore. unfold bind at 1, get. rewrite Hst.
  cbn [State_eqb app]. unfold bind at 1.
  destruct (Session.recvfromLoop io fuel 0 s) as [t [[err s2]| | |]]; trivial.
  cbn zeta. set (e := if err =? - EAGAIN then OK else err). clearbody e.
  destruct (e =? OK) eqn:E; cbn [negb].
  - unfold bind, ret. cbn. now rewrite ?app_nil_r.
  - unfold bind, ret, modify, Session.notifyError, get, emit, Error. cbn.
    now rewrite ?app_nil_r.
Qed.

(** [writeMore] on a connected stream. *)
Lemma writeMore_stream (io : Session.IO) (s : Session) :
  mState s = CONNECTED ->
  Session.writeMore io s =
    if is_empty (mOutBuffer s) then ([], CheckFailed)
    else
      let r := Session.io_send io 0 in
      let err := if 0 <? rv r then OK
                 else if rv r <? 0 then - errno r else - ECONNRESET in
      let s1 := if 0 <? rv r
                then set_mOutBuffer s (erase (mOutBuffer s) (rv r)) else s in
      if err =? OK
      then ([Send (mSocket s) (mOutBuffer s)], Done (err, s1))
      else ([Send (mSocket s) (mOutBuffer s); Error s true err "Send failed."],
            Done (err, set_mSawSendFailure s true)).
Proof.
  intros Hst. unfold Session.writeMore. unfold bind at 1, get. rewrite Hst.
  cbn [State_eqb app].
  destruct (Session.io_getsockopt io) as [[res optionLen] e].
  destruct (is_empty (mOutBuffer s)); [reflexivity|].
  cbn zeta. destruct (0 <? rv (Session.io_send io 0)) eqn:Epos.
  - reflexivity.
  - destruct (rv (Session.io_send io 0) <? 0).
    + destruct (- errno (Session.io_send io 0) =? OK) eqn:E;
        unfold bind, ret, modify, emit, CHECK, Session.notifyError, get, Error;
        cbn; rewrite E; reflexivity.
    + reflexivity.
Qed.

Lemma readMore_failed_flag (io : Session.IO) (fuel : nat) (s s' : Session)
    (t : list event) (err : status_t) :
  Session.readMore io fuel s = (t, Done (err, s')) -> err <> OK ->
  mSawReceiveFailure s' = true.
Proof.
  intros H Herr.
  destruct (State_eqb (mState s) DATAGRAM) eqn:Est.
  - rewrite readMore_datagram in H by (destruct (mState s); trivial; discriminate).
    destruct (Session.recvfromLoop io fuel 0 s) as [t0 [[err0 s2]| | |]];
      try discriminate.
    cbn zeta in H.
    match type of H with
    | (if ?c then _ else _) = _ => destruct c eqn:E
    end.
    + injection H as _ <- _. apply Z.eqb_eq in E. contradiction.
    + now injection H as _ _ <-.
  - assert (mState s <> DATAGRAM) as Hst by (intros E; now rewrite E in Est).
    destruct (mIsRTSPConnection s) eqn:Ertsp.
    + rewrite readMore_rtsp in H by trivial. cbn zeta in H.
      destruct (Session.rtspLoop io _ fuel 0 _) as [t0 [[[] s2]| | |]];
        try discriminate.
      match type of H with
      | (if ?c then _ else _) = _ => destruct c eqn:E
      end.
      * injection H as _ <- _. contradiction.
      * now injection H as _ _ <-.
    + rewrite readMore_length_prefix in H by trivial. cbn zeta in H.
      destruct (Session.lengthPrefixLoop fuel _) as [t0 [[[] s2]| | |]];
        try discriminate.
      match type of H with
      | (if ?c then _ else _) = _ => destruct c eqn:E
      end.
      * injection H as _ <- _. contradiction.
      * now injection H as _ _ <-.
Qed.

Lemma writeMore_failed_flag (io : Session.IO) (s s' : Session)
    (t : list event) (err : status_t) :
  Session.writeMore io s = (t, Done (err, s')) -> err <> OK ->
  mSawSendFailure s' = true.
Proof.
  intros H Herr. destruct (mState s) eqn:Est.
  - (* CONNECTING *)
    unfold Session.writeMore in H. unfold bind at 1, get in H.
    rewrite Est in H. cbn [State_eqb app] in H.
    destruct (Session.io_getsockopt io) as [[res optionLen] e].
    unfold bind, CHECK, ret, lift, modify, Session.notifyError, Session.notify,
      get, emit in H.
    destruct (res =? 0); cbn in H; try discriminate.
    destruct (optionLen =? 4); cbn in H; try discriminate.
    destruct (e =? 0) eqn:E; cbn in H.
    + injection H as _ <- _. contradiction.
    + now injection H as _ _ <-.
  - (* CONNECTED *)
    rewrite writeMore_stream in H by trivial.
    destruct (is_empty (mOutBuffer s)); try discriminate. cbn zeta in H.
    match type of H with
    | (if ?c then _ else _) = _ => destruct c eqn:E
    end.
    + injection H as _ <- _. apply Z.eqb_eq in E. contradiction.
    + now injection H as _ _ <-.
  - (* LISTENING_RTSP *)
    unfold Session.writeMore in H. unfold bind at 1, get in H.
    rewrite Est in H. cbn [State_eqb app] in H.
    destruct (Session.io_getsockopt io) as [[res optionLen] e]. discriminate.
  - unfold Session.writeMore in H. unfold bind at 1, get in H.
    rewrite Est in H. cbn [State_eqb app] in H.
    destruct (Session.io_getsockopt io) as [[res optionLen] e]. discriminate.
  - (* DATAGRAM *)
    destruct (mOutDatagrams s) as [|d q] eqn:Eq.
    + unfold Session.writeMore in H. unfold bind at 1, get in H.
      rewrite Est, Eq in H. discriminate.
    + rewrite writeMore_datagram in H by (trivial; now rewrite Eq).
      destruct (Session.sendDatagrams io _ 0 _) as [t0 [[err0 q0]| | |]];
        try discriminate.
      cbn zeta in H.
      match type of H with
      | (if ?c then _ else _) = _ => destruct c eqn:E
      end.
      * injection H as _ <- _. apply Z.eqb_eq in E. contradiction.
      * now injection H as _ _ <-.
Qed.

Lemma sendRequest_OK (data : list byte) (n : Z) (s s' : Session)
    (t : list event) (err : status_t) :
  Session.sendRequest data n s = (t, Done (err, s')) -> err = OK.
Proof.
  unfold Session.sendRequest, bind, get, CHECK, modify, ret, lift.
  destruct (State_eqb (mState s) CONNECTED || State_eqb (mState s) DATAGRAM);
    cbn; try discriminate.
  destruct (State_eqb (mState s) DATAGRAM); cbn.
  - destruct (0 <=? n); cbn; try discriminate. now intros [= _ <- _].
  - destruct (State_eqb (mState s) CONNECTED && negb (mIsRTSPConnection s));
      cbn.
    + destruct (n <=? 65535); cbn; try discriminate. now intros [= _ <- _].
    + now intros [= _ <- _].
Qed.

Lemma invokes_later (ms : list method) :
  forall s s', invokes ms s = Some s' -> later s s'.
Proof.
  induction ms as [|m ms IH]; intros s s' H; cbn [invokes] in H.
  - injection H as <-. apply later_refl.
  - destruct (keeps_invoke m s) as [_ Hk].
    destruct (invoke m s) as [t [[err s1]| | |]]; try discriminate.
    eapply later_trans; [apply (Hk err s1 eq_refl)|now apply IH].
Qed.

End Failures.

(** The events of a method are the session's own, however the method
    ends: each notification it posts is made from the session's template and
    carries the session's identifier, each [send] is on the session's
    socket, and nothing else is done that the trace records -- no write
    into the wake pipe, no [close], no lock. *)
Theorem session_events_own `{Platform} (m : method) (s : Session) :
  Forall (own s) (fst (invoke m s)).
Proof. apply keeps_invoke. Qed.

(** Through any sequence of [readMore], [writeMore] and [sendRequest] calls
    that return, a session keeps its identifier, its socket, its template
    and its kind of connection; a failure flag that is set stays set; and
    the state is the one it was, or CONNECTED where it was CONNECTING. *)
Theorem session_identity_kept `{Platform} (ms : list method) (s s' : Session) :
  invokes ms s = Some s' -> later s s'.
Proof. apply invokes_later. Qed.

(** An RTSP client completes its connect, queues a byte and sends it. *)
Lemma session_identity_kept_witness :
  let s := Reference.session 1 CONNECTING true in
  let ms := [WriteMore (Reference.io [] 0 0); SendRequest [x41] 1;
             WriteMore (Reference.io [] 1 0)] in
  invokes ms s = Some (set_mState s CONNECTED)
  /\ later s (set_mState s CONNECTED).
Proof.
  intros s ms.
  assert (invokes ms s = Some (set_mState s CONNECTED)) as H by reflexivity.
  split; [exact H|]. exact (session_identity_kept ms s _ H).
Defined.

(** A failure is final.  When [readMore] has returned an error, the session
    does not want to read any more, whatever is called on it afterwards;
    when [writeMore] has returned an error, it does not want to write any
    more; and [sendRequest] returns no error at all. *)
Theorem failure_is_final `{Platform} (m : method) (ms : list method)
    (s s1 s2 : Session) (t : list event) (err : status_t) :
  invoke m s = (t, Done (err, s1)) -> err <> OK ->
  invokes ms s1 = Some s2 ->
  match m with
  | ReadMore _ _ => Session.wantsToRead s2 = false
  | WriteMore _ => Session.wantsToWrite s2 = false
  | SendRequest _ _ => False
  end.
Proof.
  intros Hm Herr Hms. apply invokes_later in Hms.
  destruct Hms as (_ & _ & _ & _ & _ & Hr & Hw).
  destruct m as [io fuel|io|data n]; cbn [invoke] in Hm.
  - apply readMore_failed_flag in Hm; trivial.
    unfold Session.wantsToRead. now rewrite (Hr Hm).
  - apply writeMore_failed_flag in Hm; trivial.
    unfold Session.wantsToWrite. now rewrite (Hw Hm).
  - apply sendRequest_OK in Hm. contradiction.
Qed.

(** The peer closes an RTSP connection: [recv] returns 0.  Requests queued
    afterwards do not make the session readable again. *)
Lemma failure_is_final_witness :
  let s := Reference.session 1 CONNECTED true in
  let s1 := set_mSawReceiveFailure s true in
  Session.readMore (Reference.io [] 0 0) 1 s =
    ([Error s false (- ECONNRESET) "Recv failed."], Done (- ECONNRESET, s1))
  /\ Session.wantsToRead (set_mOutBuffer s1 [x41]) = false.
Proof.
  intros s s1.
  assert (Session.readMore (Reference.io [] 0 0) 1 s =
            ([Error s false (- ECONNRESET) "Recv failed."],
             Done (- ECONNRESET, s1))) as H by reflexivity.
  split; [exact H|].
  apply (failure_is_final (ReadMore (Reference.io [] 0 0) 1)
                          [SendRequest [x41] 1] s s1 _ _ _ H).
  - discriminate.
  - reflexivity.
Defined.

(** ** Partial sends on a stream *)

Section PartialSends.
Context {P : Platform}.

Lemma offsets_shift (ns : list Z) :
  forall from d, offsets ns (from + d) = map (fun k => k + d) (offsets ns from).
Proof.
  induction ns as [|n ns IH]; intros from d; cbn [offsets map]; trivial.
  f_equal. replace (from + d + n) with (from + n + d) by lia. apply IH.
Qed.

Lemma offsets_nonneg (ns : list Z) :
  Forall (fun n => 0 < n) ns ->
  forall from, 0 <= from -> Forall (fun k => 0 <= k) (offsets ns from).
Proof.
  induction 1 as [|n ns Hn _ IH]; intros from Hfrom; cbn [offsets];
    constructor; trivial.
  apply IH. lia.
Qed.

Lemma total_nonneg (ns : list Z) : Forall (fun n => 0 < n) ns -> 0 <= total ns.
Proof.
  induction 1 as [|n ns Hn _ IH]; unfold total in *; cbn [fold_right]; lia.
Qed.

Lemma is_empty_size (buf : list byte) : 0 < size buf -> is_empty buf = false.
Proof. destruct buf; cbn; trivial. lia. Qed.

Lemma set_mOutBuffer_same (s : Session) : set_mOutBuffer s (mOutBuffer s) = s.
Proof. now destruct s. Qed.

Lemma writeMores_offsets (ios : list Session.IO) :
  forall s : Session,
    mState s = CONNECTED ->
    Forall (fun io => 0 < taken io) ios ->
    total (map taken ios) <= size (mOutBuffer s) ->
    writeMores ios s =
      (map (fun k => Send (mSocket s) (skipn (Z.to_nat k) (mOutBuffer s)))
           (offsets (map taken ios) 0),
       Done (map (fun _ => OK) ios,
             set_mOutBuffer s
               (skipn (Z.to_nat (total (map taken ios))) (mOutBuffer s)))).
Proof.
  induction ios as [|io ios IH]; intros s Hst Hpos Hsum.
  - cbn. now rewrite set_mOutBuffer_same.
  - inversion Hpos as [|? ? Hio Hpos']; subst.
    pose proof (total_nonneg (map taken ios)) as Hnn.
    assert (Forall (fun n => 0 < n) (map taken ios)) as Hpos''
      by (apply Forall_map; exact Hpos').
    specialize (Hnn Hpos'').
    cbn [map total fold_right] in Hsum. fold (total (map taken ios)) in Hsum.
    cbn [writeMores]. unfold bind at 1.
    rewrite writeMore_stream by trivial.
    rewrite is_empty_size by lia. cbn zeta. fold (taken io).
    replace (0 <? taken io) with true by (symmetry; apply Z.ltb_lt; lia).
    cbn [Z.eqb OK]. unfold bind at 1.
    set (s1 := set_mOutBuffer s (erase (mOutBuffer s) (taken io))).
    rewrite (IH s1); trivial.
    + cbn [ret app map offsets total fold_right mSocket mOutBuffer s1
           set_mOutBuffer].
      fold (total (map taken ios)).
      unfold erase. rewrite skipn_skipn.
      replace (Z.to_nat (total (map taken ios)) + Z.to_nat (taken io))%nat
        with (Z.to_nat (taken io + total (map taken ios))) by lia.
      rewrite (offsets_shift (map taken ios) 0 (taken io)), map_map.
      rewrite app_nil_r. f_equal. cbn [skipn Z.to_nat]. f_equal.
      apply map_ext_in. intros k Hk. rewrite skipn_skipn. do 2 f_equal.
      pose proof (offsets_nonneg _ Hpos'' 0 (Z.le_refl 0)) as Hall.
      rewrite Forall_forall in Hall. specialize (Hall k Hk). lia.
    + unfold s1, erase. cbn [mOutBuffer set_mOutBuffer].
      unfold size in *. rewrite length_skipn. lia.
Qed.

End PartialSends.

Section PartialSendsTheorem.
Context {P : Platform}.

(** Successive [writeMore] calls on a connected stream whose [send] takes
    only a part of the buffer each time: every call offers all the bytes
    that are left, the next one starts exactly where the kernel stopped, and
    the buffer ends as the bytes not taken; the session wants to write
    afterwards exactly when bytes are left. *)
Theorem stream_partial_sends (ios : list Session.IO) (s : Session) :
  mState s = CONNECTED ->
  Forall (fun io => 0 < taken io) ios ->
  total (map taken ios) <= size (mOutBuffer s) ->
  let s' := set_mOutBuffer s
              (skipn (Z.to_nat (total (map taken ios))) (mOutBuffer s)) in
  writeMores ios s =
    (map (fun k => Send (mSocket s) (skipn (Z.to_nat k) (mOutBuffer s)))
         (offsets (map taken ios) 0),
     Done (map (fun _ => OK) ios, s'))
  /\ (mSawSendFailure s = false ->
      Session.wantsToWrite s' =
        negb (total (map taken ios) =? size (mOutBuffer s))).
Proof.
  intros Hst Hpos Hsum s'. split; [now apply writeMores_offsets|].
  intros Hflag. unfold Session.wantsToWrite, s'.
  cbn [mSawSendFailure mState mOutBuffer mOutDatagrams set_mOutBuffer].
  rewrite Hflag, Hst. cbn [negb State_eqb andb orb]. rewrite orb_false_r.
  f_equal.
  pose proof (total_nonneg (map taken ios)) as Hnn.
  assert (0 <= total (map taken ios)) as H0
    by (apply Hnn, Forall_map; exact Hpos).
  set (T := total (map taken ios)) in *. clearbody T.
  destruct (Z.eqb_spec T (size (mOutBuffer s))) as [E|E].
  - rewrite E. unfold size. rewrite Nat2Z.id, skipn_all. reflexivity.
  - assert (length (skipn (Z.to_nat T) (mOutBuffer s)) <> 0%nat) as Hl
      by (rewrite length_skipn; unfold size in *; lia).
    now destruct (skipn (Z.to_nat T) (mOutBuffer s)).
Qed.

End PartialSendsTheorem.

(** Five bytes leave in a send of two and a send of three. *)
Lemma stream_partial_sends_witness :
  let s := set_mOutBuffer (Reference.session 1 CONNECTED true)
                          [x61; x62; x63; x64; x65] in
  writeMores [Reference.io [] 2 0; Reference.io [] 3 0] s =
    ([Send 7 [x61; x62; x63; x64; x65]; Send 7 [x63; x64; x65]],
     Done ([OK; OK], set_mOutBuffer s []))
  /\ Session.wantsToWrite (set_mOutBuffer s []) = false.
Proof.
  intros s.
  destruct (stream_partial_sends
              [Reference.io [] 2 0; Reference.io [] 3 0] s) as [H1 H2].
  - reflexivity.
  - repeat constructor.
  - vm_compute. discriminate.
  - split; [exact H1|]. now apply H2.
Defined.

(** ** Datagrams received on a UDP socket *)

Section UDPReceive.
Context {P : Platform}.

Lemma recvfromLoop_S (io : Session.IO) (fuel k : nat) (s : Session) :
  Session.recvfromLoop io (S fuel) k s =
    let r := fst (fst (Session.io_recvfrom io k)) in
    if 0 <? rv r then
      let (t, o) := Session.recvfromLoop io fuel (S k) s in
      (UDPDatagram s io k :: t, o)
    else ([], Done (failure_status r, s)).
Proof.
  cbn [Session.recvfromLoop]. unfold UDPDatagram, failure_status.
  destruct (Session.io_recvfrom io k) as [[r buf] remoteAddr]. cbn [fst].
  destruct (Z.ltb_spec 0 (rv r)) as [Hpos|Hle].
  - replace (rv r <? 0) with false by (symmetry; apply Z.ltb_ge; lia).
    replace (rv r =? 0) with false by (symmetry; apply Z.eqb_neq; lia).
    unfold bind, get, emit. cbn.
    now destruct (Session.recvfromLoop io fuel (S k) s) as [t o].
  - destruct (Z.ltb_spec (rv r) 0) as [Hneg|Hge]; [reflexivity|].
    replace (rv r =? 0) with true by (symmetry; apply Z.eqb_eq; lia).
    reflexivity.
Qed.

Lemma recvfromLoop_run (io : Session.IO) (s : Session) (n : nat) :
  forall (k fuel : nat),
    (forall i, (k <= i < k + n)%nat ->
               0 < rv (fst (fst (Session.io_recvfrom io i)))) ->
    rv (fst (fst (Session.io_recvfrom io (k + n)))) <= 0 ->
    (n < fuel)%nat ->
    Session.recvfromLoop io fuel k s =
      (map (UDPDatagram s io) (seq k n),
       Done (failure_status (fst (fst (Session.io_recvfrom io (k + n)))), s)).
Proof.
  induction n as [|n IH]; intros k fuel Hpos Hend Hfuel;
    (destruct fuel as [|fuel]; [lia|]); rewrite recvfromLoop_S; cbn zeta.
  - rewrite Nat.add_0_r in Hend.
    replace (0 <? _) with false by (symmetry; apply Z.ltb_ge; lia).
    now rewrite Nat.add_0_r.
  - replace (0 <? _) with true
      by (symmetry; apply Z.ltb_lt; apply Hpos; lia).
    rewrite (IH (S k) fuel).
    + cbn [seq map]. now rewrite Nat.add_succ_r.
    + intros i Hi. apply Hpos. lia.
    + now rewrite Nat.add_succ_r in Hend.
    + lia.
Qed.

(** [readMore] on a datagram session takes datagrams until a [recvfrom]
    gives none.  When [n] of them are there, it posts one notification for
    each, in the order of arrival, with the sender's address and the bytes
    received.  If the call that ends the loop fails with [EAGAIN], [readMore]
    returns [OK] and the session is as it was; any other end -- an error, or
    a datagram of no bytes, which is taken for a reset connection -- is
    reported behind the datagrams and makes the session fail. *)
Theorem readMore_udp (io : Session.IO) (fuel n : nat) (s : Session) :
  mState s = DATAGRAM ->
  (forall i, (i < n)%nat -> 0 < rv (fst (fst (Session.io_recvfrom io i)))) ->
  rv (fst (fst (Session.io_recvfrom io n))) <= 0 ->
  (n < fuel)%nat ->
  let err :=
    forgive_EAGAIN (failure_status (fst (fst (Session.io_recvfrom io n)))) in
  Session.readMore io fuel s =
    if err =? OK
    then (map (UDPDatagram s io) (seq 0 n), Done (OK, s))
    else (map (UDPDatagram s io) (seq 0 n)
          ++ [Error s false err "Recvfrom failed."],
          Done (err, set_mSawReceiveFailure s true)).
Proof.
  intros Hst Hpos Hend Hfuel err.
  rewrite readMore_datagram by trivial.
  rewrite (recvfromLoop_run io s n 0 fuel); trivial.
  - cbn zeta. unfold err, forgive_EAGAIN.
    set (e := if _ =? - EAGAIN then OK else _). clearbody e.
    destruct (Z.eqb_spec e OK) as [E|E]; [now rewrite E|trivial].
  - intros i Hi. apply Hpos. lia.
Qed.

End UDPReceive.

(** Two datagrams are waiting, of three bytes and of one; the third
    [recvfrom] finds nothing.  And a datagram of no bytes ends the session. *)
Lemma readMore_udp_witness :
  let s := Reference.session 1 DATAGRAM false in
  let from := {| sin_addr := 3232235777; sin_port := 5004 |} in
  let io (last : sysret) :=
    {| Session.io_recv := ({| rv := 0; errno := 0 |}, []);
       Session.io_recvfrom :=
         fun k =>
           match k with
           | O => ({| rv := 3; errno := 0 |}, [x61; x62; x63], from)
           | S O => ({| rv := 1; errno := 0 |}, [x64], from)
           | _ => (last, [], from)
           end;
       Session.io_send := fun _ => {| rv := 0; errno := 0 |};
       Session.io_now := fun k => 100 + Z.of_nat k;
       Session.io_getsockopt := (0, 4, 0) |} in
  let posted :=
    [Post Reference.template
          {| sessionID := 1; reason := kWhatDatagram;
             fields := UDPFields (192, 168, 1, 1) 5004 [x61; x62; x63] 100 |};
     Post Reference.template
          {| sessionID := 1; reason := kWhatDatagram;
             fields := UDPFields (192, 168, 1, 1) 5004 [x64] 101 |}] in
  Session.readMore (io {| rv := -1; errno := EAGAIN |}) 3 s =
    (posted, Done (OK, s))
  /\ Session.readMore (io {| rv := 0; errno := 0 |}) 3 s =
       (posted ++ [Error s false (- ECONNRESET) "Recvfrom failed."],
        Done (- ECONNRESET, set_mSawReceiveFailure s true)).
Proof.
  intros s from io posted. split.
  - apply (readMore_udp (io {| rv := -1; errno := EAGAIN |}) 3 2 s);
      [reflexivity| |vm_compute; discriminate|lia].
    intros [|[|i]] Hi; [reflexivity|reflexivity|lia].
  - apply (readMore_udp (io {| rv := 0; errno := 0 |}) 3 2 s);
      [reflexivity| |vm_compute; discriminate|lia].
    intros [|[|i]] Hi; [reflexivity|reflexivity|lia].
Defined.

(** ** The queue of datagrams *)

Section DatagramQueue.
Context {P : Platform}.

Lemma sendDatagrams_stop (io : Session.IO) (sock : Z) (j : nat) :
  forall (queue : list ABuffer) (k : nat),
    Forall well_sized queue ->
    (forall i, 0 <= Session.io_now io i
               /\ Session.io_now io i * 9 <= INT64_MAX) ->
    (forall i, (i < j)%nat -> 0 < rv (Session.io_send io (k + i))) ->
    (j < length queue)%nat ->
    rv (Session.io_send io (k + j)) <= 0 ->
    Session.sendDatagrams io sock k queue =
      (firstn (S j) (wire io sock k queue),
       Done (failure_status (Session.io_send io (k + j)),
             on_wire (Session.io_now io (k + j)) (nth j queue [])
             :: skipn (S j) queue)).
Proof.
  induction j as [|j IH]; intros queue k Hsized Hnow Hpos Hlen Hend;
    (destruct queue as [|d rest]; [cbn in Hlen; lia|]);
    inversion Hsized as [|? ? Hd Hrest]; subst;
    cbn [Session.sendDatagrams wire];
    rewrite (stamp_on_wire _ d Hd (proj1 (Hnow k)) (proj2 (Hnow k))).
  - rewrite Nat.add_0_r in *.
    replace (0 <? rv (Session.io_send io k)) with false
      by (symmetry; apply Z.ltb_ge; lia).
    unfold failure_status. cbn [firstn nth skipn].
    now destruct (rv (Session.io_send io k) <? 0).
  - replace (0 <? rv (Session.io_send io k)) with true
      by (symmetry; apply Z.ltb_lt; specialize (Hpos 0%nat);
          rewrite Nat.add_0_r in Hpos; apply Hpos; lia).
    destruct rest as [|d' rest']; [cbn in Hlen; lia|].
    rewrite (IH (d' :: rest') (S k)); trivial.
    + cbn [firstn nth skipn]. now rewrite Nat.add_succ_r.
    + intros i Hi. replace (S k + i)%nat with (k + S i)%nat by lia.
      apply Hpos. lia.
    + cbn [length] in *. lia.
    + now rewrite Nat.add_succ_r in Hend.
Qed.

Lemma sendDatagrams_all (io : Session.IO) (sock : Z) (queue : list ABuffer) :
  forall k : nat,
    queue <> [] ->
    Forall well_sized queue ->
    (forall i, 0 <= Session.io_now io i
               /\ Session.io_now io i * 9 <= INT64_MAX) ->
    (forall i, (i < length queue)%nat ->
               0 < rv (Session.io_send io (k + i))) ->
    Session.sendDatagrams io sock k queue =
      (wire io sock k queue, Done (OK, [])).
Proof.
  induction queue as [|d rest IH]; intros k Hne Hsized Hnow Hpos;
    [contradiction|].
  inversion Hsized as [|? ? Hd Hrest]; subst.
  cbn [Session.sendDatagrams wire].
  rewrite (stamp_on_wire _ d Hd (proj1 (Hnow k)) (proj2 (Hnow k))).
  replace (0 <? rv (Session.io_send io k)) with true
    by (symmetry; apply Z.ltb_lt; specialize (Hpos 0%nat);
        rewrite Nat.add_0_r in Hpos; apply Hpos; cbn; lia).
  destruct rest as [|d' rest']; [reflexivity|].
  rewrite (IH (S k)); trivial; [discriminate|].
  intros i Hi. replace (S k + i)%nat with (k + S i)%nat by lia.
  apply Hpos. cbn [length] in *. lia.
Qed.

(** [writeMore] on a datagram session sends the queue from its head.  When
    every [send] takes its datagram the queue ends empty.  When the [send]
    of the datagram at [j] takes nothing, the datagrams before it are gone
    and the queue keeps that datagram, as it was handed to [send], and those
    behind it, in their order; if the [send] failed with [EAGAIN] the call
    returns [OK] and the session still wants to write, and any other
    failure -- a [send] that returns 0 counts as a reset connection -- is
    reported and ends the writing. *)
Theorem writeMore_datagram_queue (io : Session.IO) (s : Session) :
  mState s = DATAGRAM ->
  mSawSendFailure s = false ->
  Forall well_sized (mOutDatagrams s) ->
  (forall i, 0 <= Session.io_now io i
             /\ Session.io_now io i * 9 <= INT64_MAX) ->
  (mOutDatagrams s <> [] ->
   (forall i, (i < length (mOutDatagrams s))%nat ->
              0 < rv (Session.io_send io i)) ->
   Session.writeMore io s =
     (wire io (mSocket s) 0 (mOutDatagrams s),
      Done (OK, set_mOutDatagrams s [])))
  /\ (forall j : nat,
        (forall i, (i < j)%nat -> 0 < rv (Session.io_send io i)) ->
        (j < length (mOutDatagrams s))%nat ->
        rv (Session.io_send io j) <= 0 ->
        let err := forgive_EAGAIN (failure_status (Session.io_send io j)) in
        let sent := firstn (S j) (wire io (mSocket s) 0 (mOutDatagrams s)) in
        let s' :=
          set_mOutDatagrams s
            (on_wire (Session.io_now io j) (nth j (mOutDatagrams s) [])
             :: skipn (S j) (mOutDatagrams s)) in
        if err =? OK
        then Session.writeMore io s = (sent, Done (OK, s'))
             /\ Session.wantsToWrite s' = true
        else Session.writeMore io s =
               (sent ++ [Error s true err "Send datagram failed."],
                Done (err, set_mSawSendFailure s' true))
             /\ Session.wantsToWrite (set_mSawSendFailure s' true) = false).
Proof.
  intros Hst Hflag Hsized Hnow. split.
  - intros Hne Hpos. rewrite writeMore_datagram by trivial.
    now rewrite sendDatagrams_all.
  - intros j Hpos Hlen Hend err sent s'.
    assert (mOutDatagrams s <> []) as Hne
      by (destruct (mOutDatagrams s); [cbn in Hlen; lia|discriminate]).
    rewrite writeMore_datagram by trivial.
    rewrite (sendDatagrams_stop io (mSocket s) j); trivial.
    cbn zeta. unfold err, forgive_EAGAIN.
    set (e := if _ =? - EAGAIN then OK else _). clearbody e.
    destruct (Z.eqb_spec e OK) as [E|E].
    + rewrite E. split; [reflexivity|].
      unfold Session.wantsToWrite, s'. cbn. rewrite Hflag, Hst. reflexivity.
    + split; [reflexivity|]. reflexivity.
Qed.

End DatagramQueue.

(** Three datagrams are queued; the second [send] would block. *)
Lemma writeMore_datagram_queue_witness :
  let s := set_mOutDatagrams (Reference.session 3 DATAGRAM false)
                             [[x01; x02]; [x03]; [x04; x05]] in
  let io :=
    {| Session.io_recv := ({| rv := 0; errno := 0 |}, []);
       Session.io_recvfrom :=
         fun _ => ({| rv := -1; errno := EAGAIN |}, [],
                   {| sin_addr := 0; sin_port := 0 |});
       Session.io_send :=
         fun k => match k with
                  | O => {| rv := 2; errno := 0 |}
                  | _ => {| rv := -1; errno := EAGAIN |}
                  end;
       Session.io_now := fun _ => 0;
       Session.io_getsockopt := (0, 4, 0) |} in
  Session.writeMore io s =
    ([Send 7 [x01; x02]; Send 7 [x03]],
     Done (OK, set_mOutDatagrams s [[x03]; [x04; x05]]))
  /\ Session.wantsToWrite (set_mOutDatagrams s [[x03]; [x04; x05]]) = true.
Proof.
  intros s io.
  assert (Forall well_sized (mOutDatagrams s)) as Hsized
    by (repeat constructor; vm_compute; (discriminate || lia)).
  assert (forall i, 0 <= Session.io_now io i
                    /\ Session.io_now io i * 9 <= INT64_MAX) as Hnow
    by (intros i; vm_compute; split; discriminate).
  destruct (writeMore_datagram_queue io s eq_refl eq_refl Hsized Hnow)
    as [_ Hstop].
  apply (Hstop 1%nat).
  - intros [|i] Hi; [reflexivity|lia].
  - cbn. lia.
  - vm_compute. discriminate.
Defined.

(** ** Any bytes on a stream of length-prefixed datagrams *)

Section AnyInput.
Context {P : Platform}.

Lemma Frames_concat (buf : list byte) (ps : list (list byte)) (rest : list byte) :
  Frames buf ps rest ->
  concat (map frame ps) ++ rest = buf
  /\ Forall (fun p => size p <= 65535) ps.
Proof.
  induction 1 as [buf Hinc|p buf ps rest Hp HF [IH1 IH2]]; cbn [map concat].
  - now split.
  - split; [|now constructor]. now rewrite <- app_assoc, IH1.
Qed.

(** Whatever bytes a peer sends, a [readMore] whose [recv] succeeds loses
    none of them and invents none: the frames of the datagrams it posts,
    followed by what it keeps in the buffer, are the bytes that were in the
    buffer followed by the bytes received.  It posts every datagram that is
    complete: what it keeps is shorter than two bytes or than the frame its
    first two bytes announce. *)
Theorem length_prefix_any_input (io : Session.IO) (fuel : nat) (s : Session) :
  mState s <> DATAGRAM -> mIsRTSPConnection s = false ->
  0 < rv (fst (Session.io_recv io)) ->
  (length (mInBuffer s) + length (received io) < fuel)%nat ->
  exists (ps : list (list byte)) (rest : list byte),
    Session.readMore io fuel s =
      (map (Datagram s) ps, Done (OK, set_mInBuffer s rest))
    /\ concat (map frame ps) ++ rest = mInBuffer s ++ received io
    /\ Forall (fun p => size p <= 65535) ps
    /\ (size rest < 2 \/ size rest < U16_AT rest + 2).
Proof.
  intros Hst Hrtsp Hrecv Hfuel.
  destruct (Frames_total (mInBuffer s ++ received io)) as (ps & rest & HF).
  exists ps, rest.
  destruct (Frames_concat _ _ _ HF) as [Hcat Hsizes].
  repeat split; trivial; [|exact (Frames_left _ _ _ HF)].
  rewrite readMore_length_prefix by trivial. cbn zeta.
  rewrite recv_status_OK by trivial.
  replace (0 <? rv (fst (Session.io_recv io))) with true
    by (symmetry; apply Z.ltb_lt; lia).
  rewrite (Frames_loop _ _ _ HF) by (trivial; rewrite ?length_app; cbn; lia).
  reflexivity.
Qed.

End AnyInput.

(** Bytes that are no frames of any sender: a frame of two bytes, and the
    beginning of one that announces 0x4142 bytes. *)
Lemma length_prefix_any_input_witness :
  let s := set_mInBuffer (Reference.session 2 CONNECTED false) [x00] in
  let io := Reference.io [x02; x68; x69; x41; x42; x43] 0 0 in
  exists (ps : list (list byte)) (rest : list byte),
    Session.readMore io 8 s =
      (map (Datagram s) ps, Done (OK, set_mInBuffer s rest))
    /\ concat (map frame ps) ++ rest =
         [x00; x02; x68; x69; x41; x42; x43].
Proof.
  intros s io.
  destruct (length_prefix_any_input io 8 s) as (ps & rest & H1 & H2 & _).
  - discriminate.
  - reflexivity.
  - vm_compute. reflexivity.
  - vm_compute. lia.
  - now exists ps, rest.
Defined.

(** ** Binary frames on a healthy RTSP connection *)

Section BinaryFrames.
Context {P : Platform}.

Lemma Binary_loop_OK (buf : list byte) (fs : list (byte * list byte))
    (rest : list byte) :
  Binary buf fs rest ->
  (c_str_at rest 0 <> x24 -> Parse rest false = None) ->
  forall (io : Session.IO) (s : Session) (fuel k : nat),
    mInBuffer s = buf -> (length buf < fuel)%nat ->
    Session.rtspLoop io OK fuel k s =
      (binary_events s io k fs, Done (tt, set_mInBuffer s rest)).
Proof.
  intros HB Hparse.
  induction HB as [buf Hno|channel p buf fs rest Hp HB IH];
    intros io s fuel k Hbuf Hfuel;
    (destruct fuel as [|fuel]; [lia|]); rewrite rtspLoop_S; cbn zeta;
    rewrite dollar_test, Hbuf.
  - rewrite <- Hbuf, set_mInBuffer_same, Hbuf. cbn [binary_events].
    destruct (Strings.Byte.eqb (c_str_at buf 0) x24) eqn:E.
    + apply Strings.Byte.byte_dec_bl in E.
      destruct Hno as [H|[H|H]]; [contradiction| |].
      * replace (size buf <? 4) with true by (symmetry; apply Z.ltb_lt; lia).
        reflexivity.
      * replace (size buf <? 4 + U16_AT (skipn 2 buf)) with true
          by (symmetry; apply Z.ltb_lt; lia).
        now destruct (size buf <? 4).
    + change (negb (OK =? OK)) with false. rewrite Hparse; trivial.
      intros H. rewrite H in E. discriminate.
  - destruct (interleaved_head channel p buf Hp) as (H0 & H1 & HU & Hpl & He).
    cbn zeta in H0, H1, HU, Hpl, He.
    rewrite H0, H1, HU, Hpl, He. cbn [Strings.Byte.eqb].
    pose proof (size_nonneg p) as Hn. pose proof (size_nonneg buf) as Hb.
    replace (Strings.Byte.eqb x24 x24) with true by reflexivity.
    replace (size (interleaved channel p ++ buf) <? 4) with false
      by (symmetry; apply Z.ltb_ge; rewrite size_app, size_interleaved; lia).
    replace (size (interleaved channel p ++ buf) <? 4 + size p) with false
      by (symmetry; apply Z.ltb_ge; rewrite size_app, size_interleaved; lia).
    rewrite (IH Hparse io (set_mInBuffer s buf) fuel (S k) eq_refl).
    + cbn [binary_events].
      now rewrite binary_events_set_mInBuffer, set_mInBuffer_twice.
    + rewrite length_app in Hfuel. unfold interleaved in Hfuel.
      cbn [length] in Hfuel. lia.
Qed.

Lemma Binary_frames (fs : list (byte * list byte)) (rest : list byte) :
  Forall (fun f => size (snd f) <= 65535) fs ->
  no_binary_frame rest ->
  Binary (concat (map (fun f => interleaved (fst f) (snd f)) fs) ++ rest)
         fs rest.
Proof.
  intros Hfs Hrest. induction Hfs as [|[channel p] fs Hp _ IH];
    cbn [map concat app fst snd].
  - now constructor.
  - rewrite <- app_assoc. now constructor.
Qed.

(** Binary frames on an RTSP connection, when the [recv] succeeds: if the
    buffer with the bytes received is a sequence of frames -- a ['$'], a
    channel, a length of 16 bits and that many bytes, none included --
    followed by bytes that are no whole frame and in which the parser finds
    no message, then [readMore] posts one BinaryData notification for each
    frame, in order, with its channel and its payload, keeps the bytes that
    follow and returns [OK]. *)
Theorem readMore_binary_frames (io : Session.IO) (fuel : nat) (s : Session)
    (fs : list (byte * list byte)) (rest : list byte) :
  mState s <> DATAGRAM -> mIsRTSPConnection s = true ->
  0 < rv (fst (Session.io_recv io)) ->
  mInBuffer s ++ received io =
    concat (map (fun f => interleaved (fst f) (snd f)) fs) ++ rest ->
  Forall (fun f => size (snd f) <= 65535) fs ->
  no_binary_frame rest ->
  (c_str_at rest 0 <> x24 -> Parse rest false = None) ->
  (length (mInBuffer s) + length (received io) < fuel)%nat ->
  Session.readMore io fuel s =
    (binary_events s io 0 fs, Done (OK, set_mInBuffer s rest)).
Proof.
  intros Hst Hrtsp Hrecv Hbuf Hfs Hrest Hparse Hfuel.
  rewrite readMore_rtsp by trivial. cbn zeta.
  rewrite recv_status_OK by trivial.
  replace (0 <? rv (fst (Session.io_recv io))) with true
    by (symmetry; apply Z.ltb_lt; lia).
  pose proof (Binary_frames fs rest Hfs Hrest) as HB. rewrite <- Hbuf in HB.
  rewrite (Binary_loop_OK _ _ _ HB Hparse io
            (set_mInBuffer s (mInBuffer s ++ received io)) fuel 0 eq_refl)
    by (rewrite length_app; lia).
  cbn [Z.eqb OK]. now rewrite binary_events_set_mInBuffer, set_mInBuffer_twice.
Qed.

End BinaryFrames.

(** Two frames, the second one empty, and the first bytes of a third,
    received in one [recv] behind a ['$'] that was there. *)
Lemma readMore_binary_frames_witness :
  let s := set_mInBuffer (Reference.session 4 CONNECTED true) [x24] in
  let io :=
    Reference.io [x00; x00; x02; x41; x42; x24; x01; x00; x00; x24; x00] 0 9 in
  Session.readMore io 13 s =
    ([BinaryData s x00 [x41; x42] 9; BinaryData s x01 [] 9],
     Done (OK, set_mInBuffer s [x24; x00])).
Proof.
  intros s io.
  apply (readMore_binary_frames io 13 s [(x00, [x41; x42]); (x01, [])]
                                [x24; x00]).
  - discriminate.
  - reflexivity.
  - vm_compute. reflexivity.
  - reflexivity.
  - repeat constructor; vm_compute; discriminate.
  - right. left. vm_compute. reflexivity.
  - intros H. now contradiction H.
  - vm_compute. lia.
Defined.

(** ** Requests that come too early *)

Section Requests.
Context {P : Platform}.

(** [sendRequest] for a session that is still connecting, or that listens,
    does not return: the [CHECK] on the state aborts, with the engine's
    mutex held and nothing written into the wake pipe. *)
Theorem sendRequest_not_ready (e : ANetworkSession.t) (id : Z)
    (i : nat) (session : Session) (data : list byte) (n : Z) :
  KeyedVector.find (ANetworkSession.mSessions e) id = Some i ->
  KeyedVector.valueAt (ANetworkSession.mSessions e) i = Some session ->
  mState session <> CONNECTED -> mState session <> DATAGRAM ->
  ANetworkSession.sendRequest id data n e = ([Lock], CheckFailed).
Proof.
  intros Hfind Hvalue Hc Hd.
  assert (In id (KeyedVector.keys (ANetworkSession.mSessions e))) as Hin.
  { destruct (in_dec Z.eq_dec id
                (KeyedVector.keys (ANetworkSession.mSessions e))) as [H|H];
      trivial.
    apply find_None in H. congruence. }
  destruct (sendRequest_present e id data n Hin) as (i' & session' & Hf & Hv & E).
  rewrite Hfind in Hf. injection Hf as <-.
  rewrite Hvalue in Hv. injection Hv as <-.
  rewrite E.
  unfold Session.sendRequest, bind, get, CHECK, lift.
  destruct (mState session); try contradiction; reflexivity.
Qed.

End Requests.

(** A request for an RTSP client whose connect has not completed. *)
Lemma sendRequest_not_ready_witness :
  let e :=
    {| ANetworkSession.mNextSessionID := 2;
       ANetworkSession.mSessions := [(1, Reference.session 1 CONNECTING true)];
       ANetworkSession.mPipeFd := (3, 4) |} in
  ANetworkSession.sendRequest 1 [x41] 1 e = ([Lock], CheckFailed).
Proof.
  intros e.
  apply (sendRequest_not_ready e 1 0 (Reference.session 1 CONNECTING true));
    (reflexivity || discriminate).
Defined.

(** ** The connect of a client *)

Section ClientConnect.
Context {P : Platform}.

(** A creation in one of the two client modes, once the socket is there and
    non-blocking and the host name resolves.  A [connect] that succeeds at
    once makes the [CHECK_LT(res, 0)] abort the process, with the mutex
    held.  A [connect] in progress gives a session in state CONNECTING under
    the next identifier and wakes the loop.  Any other failure closes the
    socket and returns its negative [errno], the engine left as it was and
    0 stored as the identifier. *)
Theorem client_connect_outcomes (io : ANetworkSession.SetupIO)
    (mode : ANetworkSession.Mode) (localAddr : option Z) (port : Z)
    (remoteHost : option string) (remotePort : Z) (notify : AMessage)
    (e : ANetworkSession.t) :
  ANetworkSession.is_client mode = true ->
  0 <= rv (ANetworkSession.su_socket io) ->
  0 <= rv (ANetworkSession.su_setfl io) ->
  ANetworkSession.su_gethostbyname io <> None ->
  (rv (ANetworkSession.su_connect io) < 0 ->
   0 < errno (ANetworkSession.su_connect io)) ->
  let c := ANetworkSession.su_connect io in
  let s := rv (ANetworkSession.su_socket io) in
  let id := ANetworkSession.mNextSessionID e in
  ANetworkSession.createClientOrServer io mode localAddr port
                                       remoteHost remotePort notify e =
    if 0 <=? rv c then ([Lock], CheckFailed)
    else if errno c =? EINPROGRESS then
      ([Lock; wake e; Unlock],
       Done ((OK, id),
             {| ANetworkSession.mNextSessionID := wrap_s32 (id + 1);
                ANetworkSession.mSessions :=
                  KeyedVector.add (ANetworkSession.mSessions e) id
                    {| mSessionID := id; mState := CONNECTING;
                       mIsRTSPConnection :=
                         ANetworkSession.Mode_eqb
                           mode ANetworkSession.kModeCreateRTSPClient;
                       mSocket := s; mNotify := notify;
                       mSawReceiveFailure := false;
                       mSawSendFailure := false; mOutBuffer := [];
                       mOutDatagrams := []; mInBuffer := [] |};
                ANetworkSession.mPipeFd := ANetworkSession.mPipeFd e |}))
    else ([Lock; Close s; Unlock], Done ((- errno c, 0), e)).
Proof.
  intros Hmode Hsock Hfl Hhost Herrno c s id.
  rewrite createClientOrServer_spec. cbn zeta.
  replace (rv (ANetworkSession.su_socket io) <? 0) with false
    by (symmetry; apply Z.ltb_ge; lia).
  assert (ANetworkSession.is_server mode = false
          /\ ANetworkSession.Mode_eqb mode ANetworkSession.kModeCreateUDPSession
             = false) as [Hserver Hudp]
    by (destruct mode; try discriminate; split; reflexivity).
  unfold ANetworkSession.configure, ANetworkSession.MakeSocketNonBlocking.
  rewrite Hserver, Hudp, Hmode. cbn [andb].
  replace (rv (ANetworkSession.su_setfl io) <? 0) with false
    by (symmetry; apply Z.ltb_ge; lia).
  change (negb (OK =? OK)) with false. cbn iota.
  destruct (ANetworkSession.su_gethostbyname io) as [addr|]; [|contradiction].
  fold c. destruct (Z.leb_spec 0 (rv c)) as [Hge|Hlt].
  - replace (rv c <? 0) with false by (symmetry; apply Z.ltb_ge; lia).
    reflexivity.
  - replace (rv c <? 0) with true by (symmetry; apply Z.ltb_lt; lia).
    cbn [negb]. destruct (errno c =? EINPROGRESS) eqn:Eprog.
    + change (0 <? 0) with false. cbn iota. change (OK =? OK) with true.
      cbn iota. unfold created.
      now destruct mode; try discriminate.
    + replace (rv c <? 0) with true by (symmetry; apply Z.ltb_lt; lia).
      replace (- errno c =? OK) with false; [reflexivity|].
      symmetry. apply Z.eqb_neq. unfold c in *. specialize (Herrno Hlt).
      unfold OK. lia.
Qed.

End ClientConnect.

(** An RTSP client whose [connect] succeeds at once, as to a listener on the
    same host it can. *)
Lemma client_connect_outcomes_witness :
  let io :=
    {| ANetworkSession.su_socket := {| rv := 8; errno := 0 |};
       ANetworkSession.su_reuseaddr := {| rv := 0; errno := 0 |};
       ANetworkSession.su_rcvbuf := {| rv := 0; errno := 0 |};
       ANetworkSession.su_sndbuf := {| rv := 0; errno := 0 |};
       ANetworkSession.su_setfl := {| rv := 0; errno := 0 |};
       ANetworkSession.su_gethostbyname := Some 2130706433;
       ANetworkSession.su_h_errno := 0;
       ANetworkSession.su_connect := {| rv := 0; errno := 0 |};
       ANetworkSession.su_bind := {| rv := 0; errno := 0 |};
       ANetworkSession.su_listen := {| rv := 0; errno := 0 |};
       ANetworkSession.su_getsockname :=
         (0, {| sin_addr := 2130706433; sin_port := 23456 |});
       ANetworkSession.su_getpeername :=
         (0, {| sin_addr := 2130706433; sin_port := 554 |}) |} in
  ANetworkSession.createRTSPClient io "localhost" 554 Reference.template
                                   Reference.udp_engine =
    ([Lock], CheckFailed).
Proof.
  intros io.
  apply (client_connect_outcomes
           io ANetworkSession.kModeCreateRTSPClient None 0 (Some "localhost"%string)
           554 Reference.template Reference.udp_engine);
    cbn; (reflexivity || lia || discriminate).
Defined.

(** ** The session map as a map *)

Section ValueFor.
Context {V : Type}.
Implicit Types v : KeyedVector.t V.

Lemma valueFor_cons v (k key : Z) (x : V) :
  valueFor ((k, x) :: v) key = if k =? key then Some x else valueFor v key.
Proof.
  unfold valueFor. cbn [KeyedVector.find].
  destruct (k =? key); [reflexivity|].
  now destruct (KeyedVector.find v key).
Qed.

Lemma valueFor_add v (key : Z) (item : V) (k : Z) :
  valueFor (KeyedVector.add v key item) k =
    if key =? k then Some item else valueFor v k.
Proof.
  induction v as [|[k0 x] v IH]; cbn [KeyedVector.add].
  - rewrite valueFor_cons. now destruct (key =? k).
  - destruct (Z.ltb_spec key k0) as [Hlt|Hge].
    + now rewrite valueFor_cons.
    + destruct (Z.eqb_spec key k0) as [->|Hne].
      * rewrite !valueFor_cons. now destruct (k0 =? k).
      * rewrite !valueFor_cons, IH.
        destruct (Z.eqb_spec k0 k) as [->|Hk]; trivial.
        now replace (key =? k) with false by (symmetry; now apply Z.eqb_neq).
Qed.

Lemma valueFor_removeItemsAt v (key : Z) :
  forall (i : nat) (k : Z),
    KeyedVector.find v key = Some i -> k <> key ->
    valueFor (KeyedVector.removeItemsAt v i) k = valueFor v k.
Proof.
  induction v as [|[k0 x] v IH]; intros i k Hfind Hk; [discriminate|].
  cbn [KeyedVector.find] in Hfind. rewrite valueFor_cons.
  destruct (Z.eqb_spec k0 key) as [->|Hne].
  - injection Hfind as <-. cbn [KeyedVector.removeItemsAt].
    now replace (key =? k) with false by (symmetry; apply Z.eqb_neq; auto).
  - destruct (KeyedVector.find v key) as [i'|] eqn:E; [|discriminate].
    injection Hfind as <-. cbn [KeyedVector.removeItemsAt].
    rewrite valueFor_cons. now rewrite (IH i' k eq_refl Hk).
Qed.

Lemma valueFor_setValueAt v (key : Z) (item : V) :
  forall (i : nat) (k : Z),
    KeyedVector.find v key = Some i ->
    valueFor (KeyedVector.setValueAt v i item) k =
      if key =? k then Some item else valueFor v k.
Proof.
  induction v as [|[k0 x] v IH]; intros i k Hfind; [discriminate|].
  cbn [KeyedVector.find] in Hfind. rewrite valueFor_cons.
  destruct (Z.eqb_spec k0 key) as [->|Hne].
  - injection Hfind as <-. cbn [KeyedVector.setValueAt].
    rewrite valueFor_cons. now destruct (key =? k).
  - destruct (KeyedVector.find v key) as [i'|] eqn:E; [|discriminate].
    injection Hfind as <-. cbn [KeyedVector.setValueAt].
    rewrite valueFor_cons, (IH i' k eq_refl).
    destruct (Z.eqb_spec k0 k) as [->|Hk]; trivial.
    now replace (key =? k) with false by (symmetry; apply Z.eqb_neq; auto).
Qed.

End ValueFor.

Section SessionMap.
Context {P : Platform}.
Implicit Types e : ANetworkSession.t.

(** A creation that succeeds puts the new session under the identifier it
    hands out, the value of the counter, and leaves what is found for every
    other identifier as it was.  The new session wants to write exactly
    when it is a client, whose connect is under way, and to read exactly
    when it is not. *)
Theorem created_session_found (io : ANetworkSession.SetupIO)
    (mode : ANetworkSession.Mode) (localAddr : option Z) (port : Z)
    (remoteHost : option string) (remotePort : Z) (notify : AMessage)
    e (t : list event) (id : Z) (e' : ANetworkSession.t) :
  0 <= rv (ANetworkSession.su_socket io) ->
  ANetworkSession.createClientOrServer io mode localAddr port
    remoteHost remotePort notify e = (t, Done ((OK, id), e')) ->
  let session := created mode id (rv (ANetworkSession.su_socket io)) notify in
  id = ANetworkSession.mNextSessionID e
  /\ sessionFor e' id = Some session
  /\ (forall id', id' <> id -> sessionFor e' id' = sessionFor e id')
  /\ Session.wantsToRead session = negb (ANetworkSession.is_client mode)
  /\ Session.wantsToWrite session = ANetworkSession.is_client mode.
Proof.
  intros Hsock H session. rewrite createClientOrServer_spec in H.
  cbn zeta in H.
  replace (rv (ANetworkSession.su_socket io) <? 0) with false in H
    by (symmetry; apply Z.ltb_ge; lia).
  destruct (ANetworkSession.configure io mode remoteHost) as [err| | |];
    try discriminate.
  destruct (err =? OK) eqn:E.
  - injection H as _ <- <-. unfold sessionFor. cbn [ANetworkSession.mSessions].
    split; [reflexivity|]. split; [|split; [|split]].
    + now rewrite valueFor_add, Z.eqb_refl.
    + intros id' Hid. rewrite valueFor_add.
      now replace (_ =? id') with false by (symmetry; apply Z.eqb_neq; auto).
    + now destruct mode.
    + now destruct mode.
  - injection H as _ -> _ _. discriminate.
Qed.

(** A [destroySession] that succeeds closes the socket of the session that
    was found for the identifier, and leaves what is found for every other
    identifier, and the counter, as they were. *)
Theorem destroySession_one e (id : Z) (t : list event)
    (e' : ANetworkSession.t) :
  ANetworkSession.destroySession id e = (t, Done (OK, e')) ->
  (exists session,
      sessionFor e id = Some session
      /\ t = [Lock; Close (mSocket session); wake e; Unlock])
  /\ (forall id', id' <> id -> sessionFor e' id' = sessionFor e id')
  /\ ANetworkSession.mNextSessionID e' = ANetworkSession.mNextSessionID e.
Proof.
  intros H.
  destruct (in_dec Z.eq_dec id (KeyedVector.keys (ANetworkSession.mSessions e)))
    as [Hin|Hout].
  - destruct (destroySession_present e id Hin) as (i & session & Hf & Hv & E).
    rewrite E in H. injection H as <- <-. split; [|split].
    + exists session. split; trivial. unfold sessionFor, valueFor.
      now rewrite Hf.
    + intros id' Hid. unfold sessionFor. cbn [ANetworkSession.mSessions
        ANetworkSession.set_mSessions].
      now apply valueFor_removeItemsAt with (key := id).
    + reflexivity.
  - rewrite destroySession_absent in H by trivial. discriminate.
Qed.

(** A [sendRequest] that succeeds changes the session found for the
    identifier as [Session::sendRequest] does, and no other session. *)
Theorem sendRequest_one e (id : Z) (data : list byte) (n : Z)
    (t : list event) (e' : ANetworkSession.t) :
  ANetworkSession.sendRequest id data n e = (t, Done (OK, e')) ->
  (exists session session',
      sessionFor e id = Some session
      /\ Session.sendRequest data n session = ([], Done (OK, session'))
      /\ sessionFor e' id = Some session')
  /\ (forall id', id' <> id -> sessionFor e' id' = sessionFor e id').
Proof.
  intros H.
  destruct (in_dec Z.eq_dec id (KeyedVector.keys (ANetworkSession.mSessions e)))
    as [Hin|Hout].
  - destruct (sendRequest_present e id data n Hin) as (i & session & Hf & Hv & E).
    rewrite E in H.
    pose proof (Session_sendRequest_silent data n session) as Hsilent.
    destruct (Session.sendRequest data n session) as [t0 [[err s']| | |]]
      eqn:Es; cbn [fst snd] in *; try discriminate.
    injection H as _ -> <-. subst t0. split.
    + exists session, s'. unfold sessionFor, valueFor at 1. rewrite Hf.
      split; [exact Hv|]. split; [exact Es|].
      cbn [ANetworkSession.mSessions ANetworkSession.set_mSessions].
      now rewrite (valueFor_setValueAt _ id s' i id Hf), Z.eqb_refl.
    + intros id' Hid. unfold sessionFor. cbn [ANetworkSession.mSessions
        ANetworkSession.set_mSessions].
      rewrite (valueFor_setValueAt _ id s' i id' Hf).
      now replace (id =? id') with false by (symmetry; apply Z.eqb_neq; auto).
  - rewrite sendRequest_absent in H by trivial. discriminate.
Qed.

End SessionMap.

(** An RTSP server is created on the engine that holds the UDP session 1. *)
Lemma created_session_found_witness :
  let e := Reference.udp_engine in
  let session :=
    created ANetworkSession.kModeCreateRTSPServer 2 8 Reference.template in
  let e' :=
    {| ANetworkSession.mNextSessionID := 3;
       ANetworkSession.mSessions :=
         [(1, Reference.session 1 DATAGRAM false); (2, session)];
       ANetworkSession.mPipeFd := (3, 4) |} in
  ANetworkSession.createRTSPServer (Reference.setup 8) 0 554
                                   Reference.template e =
    ([Lock; wake e; Unlock], Done ((OK, 2), e'))
  /\ sessionFor e' 2 = Some session
  /\ sessionFor e' 1 = sessionFor e 1
  /\ Session.wantsToRead session = true
  /\ Session.wantsToWrite session = false.
Proof.
  intros e session e'.
  assert (ANetworkSession.createClientOrServer
            (Reference.setup 8) ANetworkSession.kModeCreateRTSPServer
            (Some 0) 554 None 0 Reference.template e =
            ([Lock; wake e; Unlock], Done ((OK, 2), e'))) as Hr
    by (vm_compute; reflexivity).
  destruct (created_session_found
              (Reference.setup 8) ANetworkSession.kModeCreateRTSPServer
              (Some 0) 554 None 0 Reference.template e
              [Lock; wake e; Unlock] 2 e')
    as (_ & Hfound & Hother & Hread & Hwrite).
  - vm_compute. discriminate.
  - exact Hr.
  - split; [exact Hr|]. split; [exact Hfound|].
    split; [apply Hother; discriminate|]. split; [exact Hread|exact Hwrite].
Defined.

(** The UDP session 1 is destroyed: its descriptor is closed. *)
Lemma destroySession_one_witness :
  let e := Reference.udp_engine in
  sessionFor e 1 = Some (Reference.session 1 DATAGRAM false)
  /\ exists session,
       sessionFor e 1 = Some session
       /\ fst (ANetworkSession.destroySession 1 e) =
            [Lock; Close (mSocket session); wake e; Unlock].
Proof.
  intros e. split; [reflexivity|].
  destruct (destroySession_one e 1 (fst (ANetworkSession.destroySession 1 e))
              (ANetworkSession.set_mSessions e []))
    as ((session & Hs & Ht) & _); [reflexivity|].
  now exists session.
Defined.

(** A datagram is queued on the UDP session 1. *)
Lemma sendRequest_one_witness :
  let e := Reference.udp_engine in
  let e' :=
    ANetworkSession.set_mSessions e
      [(1, set_mOutDatagrams (Reference.session 1 DATAGRAM false) [[x41]])] in
  exists session session',
    sessionFor e 1 = Some session
    /\ Session.sendRequest [x41] 1 session = ([], Done (OK, session'))
    /\ sessionFor e' 1 = Some session'.
Proof.
  intros e e'.
  destruct (sendRequest_one e 1 [x41] 1 [Lock; wake e; Unlock] e')
    as ((session & session' & H1 & H2 & H3) & _); [reflexivity|].
  now exists session, session'.
Defined.

(** ** The sets handed to select *)

Section SelectSets.
Context {P : Platform}.

Lemma collect_spec (v : KeyedVector.t Session) :
  forall (rs ws : ANetworkSession.fd_set) (fd : Z),
    fst (ANetworkSession.collect v rs ws) fd =
      (rs fd
       || existsb (fun p => (0 <=? mSocket (snd p)) && (mSocket (snd p) =? fd)
                            && Session.wantsToRead (snd p)) v)
    /\ snd (ANetworkSession.collect v rs ws) fd =
         (ws fd
          || existsb (fun p => (0 <=? mSocket (snd p)) && (mSocket (snd p) =? fd)
                               && Session.wantsToWrite (snd p)) v).
Proof.
  induction v as [|[k session] v IH]; intros rs ws fd;
    cbn [ANetworkSession.collect existsb snd].
  - now rewrite !orb_false_r.
  - destruct (Z.ltb_spec (mSocket session) 0) as [Hneg|Hge].
    + replace (0 <=? mSocket session) with false
        by (symmetry; apply Z.leb_gt; lia).
      cbn [andb orb]. apply IH.
    + replace (0 <=? mSocket session) with true
        by (symmetry; apply Z.leb_le; lia).
      cbn [andb]. destruct (IH
        (if Session.wantsToRead session
         then ANetworkSession.FD_SET (mSocket session) rs else rs)
        (if Session.wantsToWrite session
         then ANetworkSession.FD_SET (mSocket session) ws else ws) fd)
        as [Hr Hw].
      rewrite Hr, Hw. unfold ANetworkSession.FD_SET.
      rewrite (Z.eqb_sym (mSocket session) fd).
      destruct (Session.wantsToRead session), (Session.wantsToWrite session),
        (fd =? mSocket session), (rs fd), (ws fd); cbn; split; reflexivity.
Qed.

(** The descriptors [threadLoop] hands to [select].  One is in the read set
    exactly when it is the read end of the wake pipe or the socket, not
    negative, of a session that wants to read; one is in the write set
    exactly when it is the socket, not negative, of a session that wants to
    write. *)
Theorem select_sets (e : ANetworkSession.t) (fd : Z) :
  let pipe := fst (ANetworkSession.mPipeFd e) in
  let sets :=
    ANetworkSession.collect (ANetworkSession.mSessions e)
      (ANetworkSession.FD_SET pipe ANetworkSession.FD_ZERO)
      ANetworkSession.FD_ZERO in
  (ANetworkSession.FD_ISSET fd (fst sets) = true <->
   fd = pipe
   \/ exists id session,
        In (id, session) (ANetworkSession.mSessions e)
        /\ mSocket session = fd /\ 0 <= fd
        /\ Session.wantsToRead session = true)
  /\ (ANetworkSession.FD_ISSET fd (snd sets) = true <->
      exists id session,
        In (id, session) (ANetworkSession.mSessions e)
        /\ mSocket session = fd /\ 0 <= fd
        /\ Session.wantsToWrite session = true).
Proof.
  intros pipe sets. unfold ANetworkSession.FD_ISSET, sets.
  destruct (collect_spec (ANetworkSession.mSessions e)
              (ANetworkSession.FD_SET pipe ANetworkSession.FD_ZERO)
              ANetworkSession.FD_ZERO fd) as [Hr Hw].
  rewrite Hr, Hw. unfold ANetworkSession.FD_SET, ANetworkSession.FD_ZERO.
  rewrite orb_false_r. cbn [orb]. rewrite orb_true_iff, !existsb_exists.
  rewrite Z.eqb_eq. split.
  - split.
    + intros [H|([id session] & Hin & H)]; [now left|right].
      cbn [snd] in H. apply andb_prop in H as [H H3].
      apply andb_prop in H as [H1 H2].
      apply Z.leb_le in H1. apply Z.eqb_eq in H2.
      exists id, session. repeat split; trivial. lia.
    + intros [H|(id & session & Hin & H1 & H2 & H3)]; [now left|right].
      exists (id, session). split; trivial. cbn [snd].
      rewrite H1, H3, Z.eqb_refl.
      now replace (0 <=? fd) with true by (symmetry; apply Z.leb_le; lia).
  - split.
    + intros ([id session] & Hin & H).
      cbn [snd] in H. apply andb_prop in H as [H H3].
      apply andb_prop in H as [H1 H2].
      apply Z.leb_le in H1. apply Z.eqb_eq in H2.
      exists id, session. repeat split; trivial. lia.
    + intros (id & session & Hin & H1 & H2 & H3).
      exists (id, session). split; trivial. cbn [snd].
      rewrite H1, H3, Z.eqb_refl.
      now replace (0 <=? fd) with true by (symmetry; apply Z.leb_le; lia).
Qed.

Lemma set_mSessions_same (e : ANetworkSession.t) :
  ANetworkSession.set_mSessions e (ANetworkSession.mSessions e) = e.
Proof. now destruct e. Qed.

Lemma dispatchLoop_done (io : ANetworkSession.LoopIO) (fuel : nat)
    (rs ws : ANetworkSession.fd_set) (i : nat) (res : Z)
    (sessionsToAdd : list Session) (e : ANetworkSession.t) :
  res <= 0 ->
  ANetworkSession.dispatchLoop io fuel rs ws i res sessionsToAdd e =
    ([], Done (sessionsToAdd, e)).
Proof.
  intros Hres. destruct i as [|i]; cbn [ANetworkSession.dispatchLoop];
    [reflexivity|].
  now replace (0 <? res) with false by (symmetry; apply Z.ltb_ge; lia).
Qed.

(** A pass of the loop in which no socket is ready.  When [select] returns
    0 or fails, the pass takes the mutex to build the sets and does nothing
    else.  When [select] reports one descriptor and it is the read end of
    the wake pipe, the pass reads the byte from the pipe, and takes the
    mutex again without calling any session: the engine is as it was. *)
Theorem threadLoop_no_socket_ready (io : ANetworkSession.LoopIO)
    (fuel : nat) (e : ANetworkSession.t) :
  let pipe := fst (ANetworkSession.mPipeFd e) in
  (rv (ANetworkSession.lo_select io) <= 0 ->
   ANetworkSession.threadLoop io fuel e = ([Lock; Unlock], Done (tt, e)))
  /\ (rv (ANetworkSession.lo_select io) = 1 ->
      ANetworkSession.lo_readable io pipe = true ->
      ANetworkSession.threadLoop io fuel e =
        ([Lock; Unlock; PipeRead pipe; Lock; Unlock], Done (tt, e))).
Proof.
  intros pipe. split.
  - intros Hres. unfold ANetworkSession.threadLoop, ANetworkSession.Autolock.
    unfold bind, get, ret, emit. cbn.
    destruct (Z.eqb_spec (rv (ANetworkSession.lo_select io)) 0) as [E|E];
      [reflexivity|].
    now replace (rv (ANetworkSession.lo_select io) <? 0) with true
      by (symmetry; apply Z.ltb_lt; lia).
  - intros Hres Hpipe.
    destruct (collect_spec (ANetworkSession.mSessions e)
                (ANetworkSession.FD_SET pipe ANetworkSession.FD_ZERO)
                ANetworkSession.FD_ZERO pipe) as [Hr _].
    unfold ANetworkSession.FD_SET in Hr at 2. rewrite Z.eqb_refl in Hr.
    cbn [orb] in Hr.
    unfold ANetworkSession.threadLoop, ANetworkSession.Autolock.
    unfold bind at 1, get. cbn [app]. fold pipe.
    unfold bind at 1. unfold bind at 1, emit. cbn [app].
    unfold bind at 1, get. unfold bind at 1, ret. cbn [app].
    unfold bind at 1. cbn [app]. rewrite Hres. cbn [Z.eqb Z.ltb Z.compare].
    cbn [fst snd]. unfold ANetworkSession.FD_ISSET at 1.
    rewrite Hr, Hpipe. cbn [andb].
    unfold bind at 1. unfold bind at 1. cbn [app Z.sub Z.add Z.opp Z.pos_sub].
    unfold bind at 1. cbn [app]. unfold bind at 1, get. cbn [app].
    unfold bind at 1. unfold bind at 1. rewrite dispatchLoop_done by lia.
    unfold modify, bind, ret. cbn [app ANetworkSession.addSessions fold_left].
    now rewrite set_mSessions_same.
Qed.

End SelectSets.
